(** * Quantization recipes: a shallow embedding of the two notebooks

    The notebooks 01_large_language_model_optimization.ipynb and
    02_vision_transformer_edge_optimization.ipynb are straight-line Python
    scripts that drive PyTorch.  The functions they define are embedded
    here as programs of a small monad: a framework call whose behaviour is
    not fixed by the notebooks is an event, answered by a handler; the
    pure tensor primitives the notebooks rely on (slicing, [cat], [view],
    broadcasting, ...) are modelled on shapes and row-major data. *)

From Stdlib Require Import ZArith QArith Qround String Bool Arith Lia List.
Import ListNotations.
Set Warnings "-register-all".
Close Scope Q_scope.
Open Scope string_scope.
Open Scope list_scope.

(* ================================================================== *)
(** * Part I: definitions *)
(* ================================================================== *)

(** ** Python values the notebooks compute with *)

(** A Python exception: its class and its message. *)
Inductive exn : Type := Exn (cls msg : string).

(** The outcome of a call: a value, or a raised exception. *)
Inductive result (A : Type) : Type := Ok (a : A) | Raise (e : exn).
Arguments Ok {A} a.
Arguments Raise {A} e.

Definition is_ok {A} (r : result A) : bool :=
  match r with Ok _ => true | Raise _ => false end.

Definition rbind {A B} (r : result A) (f : A -> result B) : result B :=
  match r with Ok a => f a | Raise e => Raise e end.

(** Context managers used by the notebooks: [torch.no_grad()] and
    [autocast()].  Entering and leaving them toggles a flag of the
    framework; neither swallows an exception. *)
Inductive ctx : Type := NoGrad | Autocast.

(** An opaque framework object (a module, an optimizer, a session, ...). *)
Inductive handle : Type := Obj (id : nat).

(** Python numbers: [int] and [float].  A float is idealised as an exact
    rational: rounding, infinities and NaN are outside the model. *)
Inductive pynum : Type := PInt (z : Z) | PFloat (q : Q).

Definition to_Q (n : pynum) : Q :=
  match n with PInt z => inject_Z z | PFloat q => q end.

Definition py_add (a b : pynum) : pynum :=
  match a, b with
  | PInt x, PInt y => PInt (x + y)%Z
  | _, _ => PFloat (to_Q a + to_Q b)%Q
  end.

Definition py_sub (a b : pynum) : pynum :=
  match a, b with
  | PInt x, PInt y => PInt (x - y)%Z
  | _, _ => PFloat (to_Q a - to_Q b)%Q
  end.

Definition py_mul (a b : pynum) : pynum :=
  match a, b with
  | PInt x, PInt y => PInt (x * y)%Z
  | _, _ => PFloat (to_Q a * to_Q b)%Q
  end.

Definition is_zero (n : pynum) : bool :=
  match n with PInt z => Z.eqb z 0 | PFloat q => Qeq_bool q 0%Q end.

Definition ZeroDivisionError (a : pynum) : exn :=
  match a with
  | PInt _ => Exn "ZeroDivisionError" "division by zero"
  | PFloat _ => Exn "ZeroDivisionError" "float division by zero"
  end.

(** Python's true division [a / b]: always a float, and a
    [ZeroDivisionError] when [b] is zero, whatever [a] is. *)
Definition py_truediv (a b : pynum) : result pynum :=
  if is_zero b then Raise (ZeroDivisionError a)
  else Ok (PFloat (to_Q a / to_Q b)%Q).

(** [int(x)]: truncation toward zero. *)
Definition py_int (n : pynum) : Z :=
  match n with
  | PInt z => z
  | PFloat q => Z.quot (Qnum q) (Z.pos (Qden q))
  end.

(** ** Tensors: a shape and row-major data *)

Module Torch.

Record tensor : Type := Tensor { shape : list nat; data : list Q }.

Definition numel (s : list nat) : nat := fold_right Nat.mul 1%nat s.

Definition ndim (t : tensor) : nat := length (shape t).

(** [size t d]: the extent of dimension [d] (0 when [t] has no such
    dimension). *)
Definition size (t : tensor) (d : nat) : nat := nth d (shape t) 0%nat.

(** [chunks n c l]: the first [c] consecutive blocks of [n] elements. *)
Fixpoint chunks {A} (n c : nat) (l : list A) : list (list A) :=
  match c with
  | O => []
  | S c' => firstn n l :: chunks n c' (skipn n l)
  end.

(** [t[:, -1:, :]]: the last position of dimension 1, kept as a
    dimension of extent 1 (extent 0 when dimension 1 is empty). *)
Definition slice_last_dim1 (t : tensor) : result tensor :=
  match shape t with
  | d0 :: d1 :: d2 :: rest =>
      let inner := numel (d2 :: rest) in
      let keep := Nat.min 1 d1 in
      Ok (Tensor (d0 :: keep :: d2 :: rest)
            (concat (map (skipn ((d1 - keep) * inner))
                         (chunks (d1 * inner) d0 (data t)))))
  | _ => Raise (Exn "IndexError" "too many indices for tensor")
  end.

Definition shape_eqb (a b : list nat) : bool :=
  if list_eq_dec Nat.eq_dec a b then true else false.

(** [torch.cat([a, b], dim=1)].  Every dimension but dimension 1 must
    agree; a one-dimensional empty tensor is skipped. *)
Definition cat_dim1 (a b : tensor) : result tensor :=
  match shape a, shape b with
  | [O], [O] => Ok (Tensor [O] [])
  | [O], _ :: _ :: _ => Ok b
  | _ :: _ :: _, [O] => Ok a
  | a0 :: a1 :: ra, b0 :: b1 :: rb =>
      if Nat.eqb a0 b0 && shape_eqb ra rb then
        let inner := numel ra in
        Ok (Tensor (a0 :: (a1 + b1)%nat :: ra)
              (concat (map (fun p => fst p ++ snd p)
                 (combine (chunks (a1 * inner) a0 (data a))
                          (chunks (b1 * inner) b0 (data b))))))
      else Raise (Exn "RuntimeError"
                      "Sizes of tensors must match except in dimension 1")
  | [], _ | _, [] =>
      Raise (Exn "RuntimeError"
                 "zero-dimensional tensor cannot be concatenated")
  | _, _ => Raise (Exn "IndexError" "Dimension out of range")
  end.

(** *** Reading a tensor *)

(** [t.item()] on a floating-point tensor: a Python float. *)
Definition item (t : tensor) : result pynum :=
  match data t with
  | [q] => Ok (PFloat q)
  | _ => Raise (Exn "RuntimeError"
                    "a Tensor with several elements cannot be converted to Scalar")
  end.

(** [t.item()] on an integer tensor: a Python int. *)
Definition item_int (t : tensor) : result pynum :=
  match data t with
  | [q] => Ok (PInt (Qfloor q))
  | _ => Raise (Exn "RuntimeError"
                    "a Tensor with several elements cannot be converted to Scalar")
  end.

(** [t.size(d)] *)
Definition size_dim (t : tensor) (d : nat) : result pynum :=
  match nth_error (shape t) d with
  | Some n => Ok (PInt (Z.of_nat n))
  | None => Raise (Exn "IndexError" "Dimension out of range")
  end.

(** *** Broadcasting *)

(** The multi-indices of a shape, in row-major order. *)
Fixpoint indices (s : list nat) : list (list nat) :=
  match s with
  | [] => [[]]
  | d :: s' => flat_map (fun i => map (cons i) (indices s')) (seq 0 d)
  end.

(** The row-major offset of a multi-index; a dimension of extent 1 is
    read at position 0 whatever the index. *)
Fixpoint offset (s idx : list nat) : nat :=
  match s, idx with
  | d :: s', i :: idx' => (if Nat.eqb d 1 then 0 else i) * numel s' + offset s' idx'
  | _, _ => 0
  end.

(** The data of [t] seen at the larger shape [s]. *)
Definition expand (t : tensor) (s : list nat) : list Q :=
  let padded := repeat 1 (length s - ndim t) ++ shape t in
  map (fun idx => nth (offset padded idx) (data t) 0%Q) (indices s).

(** Shapes are aligned on their last dimension; two extents are
    compatible when they are equal or one of them is 1. *)
Fixpoint broadcast_rev (a b : list nat) : option (list nat) :=
  match a, b with
  | [], _ => Some b
  | _, [] => Some a
  | x :: a', y :: b' =>
      if Nat.eqb x y then option_map (cons x) (broadcast_rev a' b')
      else if Nat.eqb x 1 then option_map (cons y) (broadcast_rev a' b')
      else if Nat.eqb y 1 then option_map (cons x) (broadcast_rev a' b')
      else None
  end.

Definition broadcast_shapes (a b : list nat) : option (list nat) :=
  option_map (@rev nat) (broadcast_rev (rev a) (rev b)).

Fixpoint map2 {A B C} (f : A -> B -> C) (l : list A) (l' : list B) : list C :=
  match l, l' with
  | x :: l, y :: l' => f x y :: map2 f l l'
  | _, _ => []
  end.

Definition broadcast_error : exn :=
  Exn "RuntimeError" "The size of tensor a must match the size of tensor b".

(** An element-wise operation [f] on two tensors. *)
Definition binop (f : Q -> Q -> Q) (a b : tensor) : result tensor :=
  match broadcast_shapes (shape a) (shape b) with
  | Some s => Ok (Tensor s (map2 f (expand a s) (expand b s)))
  | None => Raise broadcast_error
  end.

(** An in-place operation [a op= b]: the broadcast must not change the
    shape of [a]. *)
Definition binop_ (f : Q -> Q -> Q) (a b : tensor) : result tensor :=
  match broadcast_shapes (shape a) (shape b) with
  | Some s =>
      if shape_eqb s (shape a)
      then Ok (Tensor s (map2 f (expand a s) (expand b s)))
      else Raise (Exn "RuntimeError"
                      "output with shape doesn't match the broadcast shape")
  | None => Raise broadcast_error
  end.

(** [a.eq(b)]: 1 where the elements are equal, 0 elsewhere. *)
Definition tensor_eq (a b : tensor) : result tensor :=
  binop (fun x y => if Qeq_bool x y then 1%Q else 0%Q) a b.

(** [t.sum()]: a tensor of no dimension. *)
Definition tensor_sum (t : tensor) : tensor :=
  Tensor [] [fold_right Qplus 0%Q (data t)].

(** *** Reductions along dimension 1 *)

(** The position of the first greatest element. *)
Fixpoint argmax_from (best : Q) (besti i : nat) (l : list Q) : nat :=
  match l with
  | [] => besti
  | x :: l' =>
      if Qle_bool x best then argmax_from best besti (S i) l'
      else argmax_from x i (S i) l'
  end.

Definition argmax (l : list Q) : nat :=
  match l with
  | [] => 0
  | x :: l' => argmax_from x 0 1 l'
  end.

(** The [d1] elements of one block that differ only in their index along
    dimension 1, for each of the [inner] positions that follow. *)
Definition columns (inner d1 : nat) (block : list Q) : list (list Q) :=
  map (fun j => map (fun i => nth (i * inner + j) block 0%Q) (seq 0 d1))
      (seq 0 inner).

(** [values, indices = t.max(1)] *)
Definition max_dim1 (t : tensor) : result (tensor * tensor) :=
  match shape t with
  | d0 :: d1 :: rest =>
      if Nat.eqb d1 0
      then Raise (Exn "RuntimeError"
                      "max(): Expected reduction dim 1 to have non-zero size")
      else
        let inner := numel rest in
        let cols := flat_map (columns inner d1) (chunks (d1 * inner) d0 (data t)) in
        Ok (Tensor (d0 :: rest) (map (fun c => nth (argmax c) c 0%Q) cols),
            Tensor (d0 :: rest) (map (fun c => inject_Z (Z.of_nat (argmax c))) cols))
  | _ => Raise (Exn "IndexError" "Dimension out of range")
  end.

(** *** Reshaping *)

Definition shape_error (msg : string) : exn := Exn "RuntimeError" msg.

(** [t.view(a, b, -1)]: the last extent is inferred from the number of
    elements. *)
Definition view_3 (t : tensor) (a b : Z) : result tensor :=
  let n := length (data t) in
  let ab := (Z.to_nat a * Z.to_nat b)%nat in
  if (a <? 0)%Z || (b <? 0)%Z then
    Raise (shape_error "invalid shape dimension")
  else if Nat.eqb ab 0 then
    Raise (shape_error "cannot reshape tensor: the unspecified dimension is ambiguous")
  else if Nat.eqb (n mod ab) 0 then
    Ok (Tensor [Z.to_nat a; Z.to_nat b; (n / ab)%nat] (data t))
  else Raise (shape_error "shape is invalid for input size").

(** [t.unsqueeze(1)] *)
Definition unsqueeze_1 (t : tensor) : result tensor :=
  match shape t with
  | d0 :: rest => Ok (Tensor (d0 :: 1 :: rest) (data t))
  | [] => Raise (Exn "IndexError" "Dimension out of range")
  end.

(** [t.squeeze()]: every dimension of extent 1 is dropped. *)
Definition squeeze (t : tensor) : tensor :=
  Tensor (filter (fun d => negb (Nat.eqb d 1)) (shape t)) (data t).

(** [t.repeat(k)] on a one-dimensional tensor *)
Definition repeat_1d (t : tensor) (k : nat) : result tensor :=
  match shape t with
  | [n] => Ok (Tensor [(k * n)%nat] (concat (repeat (data t) k)))
  | _ => Raise (shape_error
                  "Number of dimensions of repeat dims can not be smaller than number of dimensions of tensor")
  end.

(** [torch.ones(n)] *)
Definition ones (n : Z) : result tensor :=
  if (n <? 0)%Z then Raise (shape_error "Trying to create tensor with negative dimension")
  else Ok (Tensor [Z.to_nat n] (repeat 1%Q (Z.to_nat n))).

(** *** Reductions and selection *)

(** [torch.norm(t, dim=2)] on a three-dimensional tensor; [norm2] is the
    Euclidean norm of the floating-point arithmetic. *)
Definition norm_dim2 (norm2 : list Q -> Q) (t : tensor) : result tensor :=
  match shape t with
  | [d0; d1; d2] =>
      Ok (Tensor [d0; d1] (map norm2 (chunks d2 (d0 * d1) (data t))))
  | _ => Raise (Exn "IndexError" "Dimension out of range")
  end.

(** [t.mean(dim=0)] on a two-dimensional tensor *)
Definition mean_dim0 (t : tensor) : result tensor :=
  match shape t with
  | [d0; d1] =>
      Ok (Tensor [d1]
            (map (fun j =>
                    (fold_right Qplus 0
                       (map (fun i => nth (i * d1 + j) (data t) 0) (seq 0 d0))
                     / inject_Z (Z.of_nat d0))%Q)
                 (seq 0 d1)))
  | _ => Raise (Exn "IndexError" "Dimension out of range")
  end.

(** The position of the first least element among the positions still
    [live]. *)
Fixpoint argmin_live (l : list Q) (live : list bool) (i : nat)
  (best : option (nat * Q)) : option nat :=
  match l, live with
  | x :: l', b :: live' =>
      let best' :=
        if b then
          match best with
          | Some (_, y) => if Qle_bool y x then best else Some (i, x)
          | None => Some (i, x)
          end
        else best in
      argmin_live l' live' (S i) best'
  | _, _ => option_map fst best
  end.

Fixpoint kill (i : nat) (live : list bool) : list bool :=
  match live, i with
  | [], _ => []
  | _ :: live', O => false :: live'
  | b :: live', S i' => b :: kill i' live'
  end.

Fixpoint smallest (k : nat) (l : list Q) (live : list bool) : list nat :=
  match k with
  | O => []
  | S k' =>
      match argmin_live l live 0 None with
      | Some i => i :: smallest k' l (kill i live)
      | None => []
      end
  end.

(** [values, indices = torch.topk(t, k=k, largest=False)] on a
    one-dimensional tensor: the [k] least elements, least first. *)
Definition topk_smallest (t : tensor) (k : Z) : result (tensor * list nat) :=
  match shape t with
  | [n] =>
      if (k <? 0)%Z || (Z.of_nat n <? k)%Z then
        Raise (shape_error "selected index k out of range")
      else
        let idx := smallest (Z.to_nat k) (data t) (repeat true n) in
        Ok (Tensor [Z.to_nat k] (map (fun i => nth i (data t) 0%Q) idx), idx)
  | _ => Raise (Exn "IndexError" "Dimension out of range")
  end.

Fixpoint set_nth {A} (i : nat) (v : A) (l : list A) : list A :=
  match l, i with
  | [], _ => []
  | _ :: l', O => v :: l'
  | x :: l', S i' => x :: set_nth i' v l'
  end.

(** [t[indices] = v] on a one-dimensional tensor *)
Definition index_fill (t : tensor) (indices : list nat) (v : Q) : result tensor :=
  match shape t with
  | [n] =>
      if forallb (fun i => Nat.ltb i n) indices
      then Ok (Tensor [n] (fold_left (fun d i => set_nth i v d) indices (data t)))
      else Raise (Exn "IndexError" "index out of range in self")
  | _ => Raise (Exn "IndexError" "too many indices for tensor")
  end.

(** [a *= b] *)
Definition imul (a b : tensor) : result tensor := binop_ Qmult a b.

End Torch.
Export Torch.

(** ** The modules of a model, as the notebooks look at them *)

(** The [qkv] layer of a timm [Attention] module and its number of
    heads. *)
Record Attention : Type := {
  num_heads : Z;
  qkv_weight : tensor;
  qkv_bias : option tensor }.

(** A module of the model: an attention module, or anything else. *)
Inductive vit_module : Type :=
| AttentionModule (a : Attention)
| OtherModule (class_name : string).

(** A module tree: the class of the module, whether
    [isinstance(module, torch.nn.BatchNorm2d)] holds, the parameters and
    buffers of the module itself, and its [_modules], the registered
    children in order.  A tree: no module object is registered twice. *)
Inductive nn_module : Type :=
  NNModule (class_name : string) (is_BatchNorm2d : bool)
           (state : list (string * tensor))
           (_modules : list (string * nn_module)).

Definition class_name (m : nn_module) : string :=
  match m with NNModule c _ _ _ => c end.
Definition is_BatchNorm2d (m : nn_module) : bool :=
  match m with NNModule _ b _ _ => b end.
Definition state (m : nn_module) : list (string * tensor) :=
  match m with NNModule _ _ s _ => s end.
(** [list(m.named_children())] *)
Definition named_children (m : nn_module) : list (string * nn_module) :=
  match m with NNModule _ _ _ ch => ch end.

(** An argument of a framework call that the notebooks only pass on. *)
Inductive arg : Type :=
| AObj (h : handle)
| AStr (s : string)
| ANum (n : pynum)
| ABool (b : bool)
| ATensor (t : tensor)
| ATuple (l : list pynum)
| ANames (l : list string)
| AKw (name : string) (a : arg).

(** A batch of the language-model loader: a dict from field names to
    tensors. *)
Definition batch : Type := list (string * tensor).

(** ** Framework calls

    One event per call into PyTorch, transformers, datasets, ONNX or the
    Python runtime whose effect the notebooks do not determine. *)
Inductive fwE : Type :=
(* objects *)
| GetAttr (o : handle) (name : string)
| SetAttr (o : handle) (name : string) (v : handle)
| GetAttrTensor (o : handle) (name : string)
| NNModuleInit
| CallModule (m : handle) (x : tensor)
| CallModel (m : handle) (x : tensor)
| CallModelLabels (m : handle) (inputs labels : tensor)
| CallCriterion (c : handle) (outputs targets : tensor)
| ToDevice (t : tensor)
| Clone (t : tensor)
| Print (text : string) (args : list pynum)
(* training *)
| ModelTrain (m : handle)
| ModelEval (m : handle)
| GradScalerNew
| ZeroGrad (optimizer : handle)
| Scale (scaler : handle) (loss : tensor)
| Backward (loss : tensor)
| ScalerStep (scaler optimizer : handle)
| ScalerUpdate (scaler : handle)
(* quantization *)
| QuantizeDynamic (m : handle)
| GetDefaultQConfig (backend : string)
| Prepare (m : handle)
| Convert (m : handle)
| Half (m : handle)
(* the model as a list of modules and as a tree of modules *)
| Modules (m : handle)
| SetModules (m : handle) (ms : list vit_module)
| ModuleTree (m : handle)
| SetModuleTree (m : handle) (t : nn_module)
(* any other call, by its name: the type of what it returns *)
| FwObj (f : string) (args : list arg)
| FwUnit (f : string) (args : list arg)
| FwNum (f : string) (args : list arg)
| FwBool (f : string) (args : list arg)
| FwTensor (f : string) (args : list arg)
| FwObjs (f : string) (args : list arg)
| FwBatches (f : string) (args : list arg)
| FwPairs (f : string) (args : list arg).

Definition resp (e : fwE) : Type :=
  match e with
  | GetAttr _ _ => handle
  | SetAttr _ _ _ => unit
  | GetAttrTensor _ _ => tensor
  | NNModuleInit => unit
  | CallModule _ _ => tensor
  | CallModel _ _ => handle
  | CallModelLabels _ _ _ => handle
  | CallCriterion _ _ _ => tensor
  | ToDevice _ => tensor
  | Clone _ => tensor
  | Print _ _ => unit
  | ModelTrain _ => unit
  | ModelEval _ => unit
  | GradScalerNew => handle
  | ZeroGrad _ => unit
  | Scale _ _ => tensor
  | Backward _ => unit
  | ScalerStep _ _ => unit
  | ScalerUpdate _ => unit
  | QuantizeDynamic _ => handle
  | GetDefaultQConfig _ => handle
  | Prepare _ => handle
  | Convert _ => handle
  | Half _ => handle
  | Modules _ => list vit_module
  | SetModules _ _ => unit
  | ModuleTree _ => nn_module
  | SetModuleTree _ _ => unit
  | FwObj _ _ => handle
  | FwUnit _ _ => unit
  | FwNum _ _ => pynum
  | FwBool _ _ => bool
  | FwTensor _ _ => tensor
  | FwObjs _ _ => list handle
  | FwBatches _ _ => list batch
  | FwPairs _ _ => list (tensor * tensor)
  end.

(** ** Programs *)

Section Prog.
Context {St : Type}.

(** A program over the state [St] of the Python objects it mutates. *)
Inductive prog : Type -> Type :=
| Ret {R} (r : R) : prog R
| Bind {X R} (m : prog X) (k : X -> prog R) : prog R
| Call (e : fwE) : prog (resp e)
| Throw {R} (x : exn) : prog R
| Get : prog St
| Put (s : St) : prog unit
| With {R} (c : ctx) (body : prog R) : prog R
| TryExcept {R} (body : prog R) (h : exn -> prog R) : prog R
| Cell (title : string) : prog unit.

(** What an execution leaves on record: the framework calls, the
    context managers entered and left, and the cells of the notebook
    begun, in order. *)
Inductive event : Type :=
| EvCall (e : fwE)
| EvEnter (c : ctx)
| EvExit (c : ctx)
| EvCell (title : string).

(** The framework: an answer (or an exception) to every call, and the
    effect of entering and leaving a context manager. *)
Record handler : Type := Handler {
  fw_call : forall e : fwE, St -> result (resp e) * St;
  fw_enter : ctx -> St -> St;
  fw_exit : ctx -> St -> St }.

Variable fw : handler.

(** The result of a program and the state it leaves.  An exception
    ends the program where it is raised; the state reached by then stays. *)
Fixpoint run {R} (p : prog R) (st : St) : result R * St :=
  match p with
  | Ret r => (Ok r, st)
  | Bind m k =>
      match run m st with
      | (Ok x, st1) => run (k x) st1
      | (Raise e, st1) => (Raise e, st1)
      end
  | Call e => fw_call fw e st
  | Throw x => (Raise x, st)
  | Get => (Ok st, st)
  | Put s => (Ok tt, s)
  | With c body =>
      let '(r, st1) := run body (fw_enter fw c st) in (r, fw_exit fw c st1)
  | TryExcept body h =>
      match run body st with
      | (Ok x, st1) => (Ok x, st1)
      | (Raise e, st1) => run (h e) st1
      end
  | Cell _ => (Ok tt, st)
  end.

(** The framework calls a program makes, in order. *)
Fixpoint trace {R} (p : prog R) (st : St) : list event :=
  match p with
  | Bind m k =>
      trace m st ++
      match run m st with
      | (Ok x, st1) => trace (k x) st1
      | (Raise _, _) => []
      end
  | Call e => [EvCall e]
  | With c body => EvEnter c :: trace body (fw_enter fw c st) ++ [EvExit c]
  | TryExcept body h =>
      trace body st ++
      match run body st with
      | (Ok _, _) => []
      | (Raise e, st1) => trace (h e) st1
      end
  | Cell title => [EvCell title]
  | _ => []
  end.

(** A program without [try]/[except]. *)
Fixpoint handler_free {R} (p : prog R) : Prop :=
  match p with
  | Bind m k => handler_free m /\ forall x, handler_free (k x)
  | With _ body => handler_free body
  | TryExcept _ _ => False
  | _ => True
  end.

(** A program that never calls [print]. *)
Fixpoint silent {R} (p : prog R) : Prop :=
  match p with
  | Bind m k => silent m /\ forall x, silent (k x)
  | Call (Print _ _) => False
  | With _ body => silent body
  | TryExcept body h => silent body /\ forall e, silent (h e)
  | _ => True
  end.

(** [raised_in p st x]: while [p] runs from [st], a framework call or a
    Python operation raises [x]. *)
Fixpoint raised_in {R} (p : prog R) (st : St) (x : exn) : Prop :=
  match p with
  | Bind m k =>
      raised_in m st x \/
      exists v st1, run m st = (Ok v, st1) /\ raised_in (k v) st1 x
  | Call e => fst (fw_call fw e st) = Raise x
  | Throw y => y = x
  | With c body => raised_in body (fw_enter fw c st) x
  | TryExcept body h =>
      raised_in body st x \/
      exists e st1, run body st = (Raise e, st1) /\ raised_in (h e) st1 x
  | _ => False
  end.

End Prog.

Arguments prog St : clear implicits.
Arguments handler St : clear implicits.
Arguments event : clear implicits.

(** A pure framework primitive, run inside a program. *)
Definition lift {St A} (r : result A) : prog St A :=
  match r with Ok a => Ret a | Raise e => Throw e end.

Declare Scope prog_scope.
Delimit Scope prog_scope with prog.
Notation "x <- m ;; k" := (Bind m (fun x => k))
  (at level 61, m at next level, right associativity) : prog_scope.
Notation "' pat <- m ;; k" := (Bind m (fun x => match x with pat => k end))
  (at level 61, pat pattern, m at next level, right associativity) : prog_scope.
Notation "m ;; k" := (Bind m (fun _ => k))
  (at level 61, right associativity) : prog_scope.
Open Scope prog_scope.

(** [for x in xs: body x], for a body that returns nothing. *)
Fixpoint for_each {St A} (xs : list A) (body : A -> prog St unit) : prog St unit :=
  match xs with
  | [] => Ret tt
  | x :: xs' => body x ;; for_each xs' body
  end.

(** [for x in xs: acc = body acc x], the loop-carried variables being [acc]. *)
Fixpoint for_fold {St A B} (xs : list A) (acc : B) (body : B -> A -> prog St B)
  : prog St B :=
  match xs with
  | [] => Ret acc
  | x :: xs' => acc' <- body acc x ;; for_fold xs' acc' body
  end.

(** ** The framework calls, typed *)

Section Calls.
Context {St : Type}.

(** [o.name], for an attribute that holds a framework object *)
Definition getattr (o : handle) (name : string) : prog St handle :=
  Call (GetAttr o name).
(** [super().__init__()] of [nn.Module] *)
Definition nn_Module__init__ : prog St unit := Call NNModuleInit.
(** [m(x)] *)
Definition call_module (m : handle) (x : tensor) : prog St tensor :=
  Call (CallModule m x).
(** [torch.quantization.quantize_dynamic(m, {torch.nn.Linear}, dtype=torch.qint8)] *)
Definition quantize_dynamic (m : handle) : prog St handle :=
  Call (QuantizeDynamic m).

(** [o.name], for an attribute that holds a tensor *)
Definition getattr_tensor (o : handle) (name : string) : prog St tensor :=
  Call (GetAttrTensor o name).
(** [model(inputs, labels=labels)] *)
Definition call_model_labels (m : handle) (inputs labels : tensor) : prog St handle :=
  Call (CallModelLabels m inputs labels).
(** [criterion(outputs, targets)] *)
Definition call_criterion (c : handle) (outputs targets : tensor) : prog St tensor :=
  Call (CallCriterion c outputs targets).
(** [t.to(device)] *)
Definition to_device (t : tensor) : prog St tensor := Call (ToDevice t).
(** [t.clone()] *)
Definition clone (t : tensor) : prog St tensor := Call (Clone t).
(** [print(f"...")]: the text of the f-string and the numbers it formats *)
Definition print (text : string) (args : list pynum) : prog St unit :=
  Call (Print text args).
(** [model.train()] and [model.eval()] *)
Definition model_train (m : handle) : prog St unit := Call (ModelTrain m).
Definition model_eval (m : handle) : prog St unit := Call (ModelEval m).
(** [torch.amp.GradScaler()] *)
Definition GradScaler : prog St handle := Call GradScalerNew.
(** [optimizer.zero_grad()] *)
Definition zero_grad (optimizer : handle) : prog St unit := Call (ZeroGrad optimizer).
(** [scaler.scale(loss)] *)
Definition scale (scaler : handle) (loss : tensor) : prog St tensor :=
  Call (Scale scaler loss).
(** [t.backward()] *)
Definition backward (t : tensor) : prog St unit := Call (Backward t).
(** [scaler.step(optimizer)] *)
Definition scaler_step (scaler optimizer : handle) : prog St unit :=
  Call (ScalerStep scaler optimizer).
(** [scaler.update()] *)
Definition scaler_update (scaler : handle) : prog St unit := Call (ScalerUpdate scaler).

(** [o.name = v], for a framework object [v] *)
Definition set_attr (o : handle) (name : string) (v : handle) : prog St unit :=
  Call (SetAttr o name v).
(** [model(x)], for a model whose output is an object *)
Definition call_model (m : handle) (x : tensor) : prog St handle :=
  Call (CallModel m x).
(** [torch.quantization.get_default_qconfig(backend)] *)
Definition get_default_qconfig (backend : string) : prog St handle :=
  Call (GetDefaultQConfig backend).
(** [torch.quantization.prepare(m)] *)
Definition prepare (m : handle) : prog St handle := Call (Prepare m).
(** [torch.quantization.convert(m)] *)
Definition convert (m : handle) : prog St handle := Call (Convert m).
(** [m.half()] *)
Definition half (m : handle) : prog St handle := Call (Half m).

(** The model as the list of its modules, [list(model.modules())], and
    the writing back of what a function changed in them in place. *)
Definition modules (m : handle) : prog St (list vit_module) := Call (Modules m).
Definition set_modules (m : handle) (ms : list vit_module) : prog St unit :=
  Call (SetModules m ms).
(** The model as the tree of its modules, and the writing back of what a
    function changed in it in place. *)
Definition module_tree (m : handle) : prog St nn_module := Call (ModuleTree m).
Definition set_module_tree (m : handle) (t : nn_module) : prog St unit :=
  Call (SetModuleTree m t).

(** Any other framework call [f(args)], by the type of what it returns:
    an object, nothing, a number, a boolean, a tensor, the objects of an
    iterable, the batches of a loader. *)
Definition fw_obj (f : string) (args : list arg) : prog St handle := Call (FwObj f args).
Definition fw_unit (f : string) (args : list arg) : prog St unit := Call (FwUnit f args).
Definition fw_num (f : string) (args : list arg) : prog St pynum := Call (FwNum f args).
Definition fw_bool (f : string) (args : list arg) : prog St bool := Call (FwBool f args).
Definition fw_tensor (f : string) (args : list arg) : prog St tensor :=
  Call (FwTensor f args).
Definition fw_objs (f : string) (args : list arg) : prog St (list handle) :=
  Call (FwObjs f args).
Definition fw_batches (f : string) (args : list arg) : prog St (list batch) :=
  Call (FwBatches f args).
Definition fw_pairs (f : string) (args : list arg) : prog St (list (tensor * tensor)) :=
  Call (FwPairs f args).

(** [a / b] *)
Definition truediv (a b : pynum) : prog St pynum := lift (py_truediv a b).

End Calls.

(** ** Python data the notebooks pass around *)

(** [range(n)] *)
Definition range (n : Z) : list Z := map Z.of_nat (seq 0 (Z.to_nat n)).

(** [len(xs)] *)
Definition len {A} (xs : list A) : pynum := PInt (Z.of_nat (length xs)).

(** [batch[k]] raises [KeyError] on a missing field. *)
Fixpoint getitem (d : batch) (k : string) : result tensor :=
  match d with
  | [] => Raise (Exn "KeyError" k)
  | (k', v) :: d' => if String.eqb k k' then Ok v else getitem d' k
  end.

(** A call that the model at hand does not answer. *)
Definition unmodelled : exn := Exn "NotImplementedError" "call outside the model".

(** No framework at all: for the code that calls none. *)
Definition no_fw {St} : handler St :=
  {| fw_call := fun e st => (Raise unmodelled, st);
     fw_enter := fun _ st => st;
     fw_exit := fun _ st => st |}.

(** ** Notebook 01: a large language model *)

Module LLM.

(** *** Mixed precision fine-tuning *)

(** The body of the inner loop of [fine_tune]; [total_loss] is the
    loop-carried variable. *)
Definition fine_tune_body {St} (model optimizer scaler : handle)
  (total_loss : pynum) (batch : batch) : prog St pynum :=
  zero_grad optimizer ;;
  loss <- With Autocast (
    x <- lift (getitem batch "input_ids") ;;
    inputs <- to_device x ;;
    labels <- clone inputs ;;
    outputs <- call_model_labels model inputs labels ;;
    getattr_tensor outputs "loss") ;;
  scaled <- scale scaler loss ;;
  backward scaled ;;
  scaler_step scaler optimizer ;;
  scaler_update scaler ;;
  l <- lift (item loss) ;;
  Ret (py_add total_loss l).

(** The body of the outer loop of [fine_tune]: one epoch. *)
Definition fine_tune_epoch {St} (model : handle) (train_dataloader : list batch)
  (optimizer scaler : handle) (epochs epoch : Z) : prog St unit :=
  total_loss <- for_fold train_dataloader (PInt 0)
                  (fine_tune_body model optimizer scaler) ;;
  avg_loss <- truediv total_loss (len train_dataloader) ;;
  print "Epoch {epoch+1}/{epochs}, Average Loss: {avg_loss:.4f}"
        [PInt (epoch + 1); PInt epochs; avg_loss].

(** [fine_tune(model, train_dataloader, optimizer, epochs=3)] *)
Definition fine_tune {St} (model : handle) (train_dataloader : list batch)
  (optimizer : handle) (epochs : Z) : prog St unit :=
  scaler <- GradScaler ;;
  model_train model ;;
  for_each (range epochs)
    (fine_tune_epoch model train_dataloader optimizer scaler epochs).

(** *** Post-training quantization *)

(** The calibration pass of [apply_ptq]: the [with torch.no_grad()]
    block. *)
Definition calibrate {St} (train_dataloader : list batch) (model_prepared : handle)
  : prog St unit :=
  With NoGrad
    (for_each train_dataloader (fun batch =>
       x <- lift (getitem batch "input_ids") ;;
       inputs <- to_device x ;;
       call_model model_prepared inputs ;;
       Ret tt)).

(** [apply_ptq(model)]; [train_dataloader] is the global of the
    notebook. *)
Definition apply_ptq {St} (train_dataloader : list batch) (model : handle)
  : prog St handle :=
  (* Specify quantization configuration *)
  qconfig <- get_default_qconfig "fbgemm" ;;
  set_attr model "qconfig" qconfig ;;
  (* Prepare model for quantization *)
  model_prepared <- prepare model ;;
  (* Calibrate the model *)
  calibrate train_dataloader model_prepared ;;
  (* Convert to quantized model *)
  model_quantized <- convert model_prepared ;;
  (* Keep embedding layers and softmax in FP16 *)
  t <- getattr model "transformer" ;;
  wte <- getattr t "wte" ;;
  wte <- half wte ;;
  tq <- getattr model_quantized "transformer" ;;
  set_attr tq "wte" wte ;;
  t <- getattr model "transformer" ;;
  wpe <- getattr t "wpe" ;;
  wpe <- half wpe ;;
  tq <- getattr model_quantized "transformer" ;;
  set_attr tq "wpe" wpe ;;
  lm_head <- getattr model "lm_head" ;;
  lm_head <- half lm_head ;;
  set_attr model_quantized "lm_head" lm_head ;;
  Ret model_quantized.

(** *** [QuantizedAttention] *)

Record QuantizedAttention : Type := {
  query : handle;
  key : handle;
  value : handle }.

(** [QuantizedAttention.__init__(self, attention)] *)
Definition QuantizedAttention__init__ {St} (attention : handle)
  : prog St QuantizedAttention :=
  nn_Module__init__ ;;
  q0 <- getattr attention "query" ;;
  q <- quantize_dynamic q0 ;;
  k0 <- getattr attention "key" ;;
  k <- quantize_dynamic k0 ;;
  v0 <- getattr attention "value" ;;
  v <- quantize_dynamic v0 ;;
  Ret {| query := q; key := k; value := v |}.

(** [QuantizedAttention.forward(self, hidden_states)] *)
Definition QuantizedAttention_forward {St} (self : QuantizedAttention)
  (hidden_states : tensor) : prog St (tensor * tensor * tensor) :=
  query_layer <- call_module (query self) hidden_states ;;
  key_layer <- call_module (key self) hidden_states ;;
  value_layer <- call_module (value self) hidden_states ;;
  Ret (query_layer, key_layer, value_layer).

(** *** [CachedQuantizedAttention(QuantizedAttention)] *)

Record CachedQuantizedAttention : Type := {
  base : QuantizedAttention;
  cached_key : option tensor;
  cached_value : option tensor }.

Definition set_cached_key (v : option tensor) (self : CachedQuantizedAttention) :=
  {| base := base self; cached_key := v; cached_value := cached_value self |}.

Definition set_cached_value (v : option tensor) (self : CachedQuantizedAttention) :=
  {| base := base self; cached_key := cached_key self; cached_value := v |}.

(** [CachedQuantizedAttention.__init__(self, attention)] *)
Definition CachedQuantizedAttention__init__ {St} (attention : handle)
  : prog St CachedQuantizedAttention :=
  b <- QuantizedAttention__init__ attention ;;
  Ret {| base := b; cached_key := None; cached_value := None |}.

(** [torch.cat([c, t], dim=1)] for an attribute [c] that may hold [None]. *)
Definition cat_cached (c : option tensor) (t : tensor) : result tensor :=
  match c with
  | Some ck => cat_dim1 ck t
  | None => Raise (Exn "TypeError" "expected Tensor as element 0 in argument 0")
  end.

(** [CachedQuantizedAttention.forward(self, hidden_states)]; the state is
    [self]. *)
Definition forward (hidden_states : tensor)
  : prog CachedQuantizedAttention (tensor * option tensor * option tensor) :=
  self <- Get ;;
  query_layer <- call_module (query (base self)) hidden_states ;;
  self <- Get ;;
  match cached_key self with
  | None =>
      key_layer <- call_module (key (base self)) hidden_states ;;
      self <- Get ;;
      value_layer <- call_module (value (base self)) hidden_states ;;
      self <- Get ;;
      Put (set_cached_key (Some key_layer) self) ;;
      self <- Get ;;
      Put (set_cached_value (Some value_layer) self)
  | Some _ =>
      last_hidden_state <- lift (slice_last_dim1 hidden_states) ;;
      self <- Get ;;
      key_layer <- call_module (key (base self)) last_hidden_state ;;
      self <- Get ;;
      value_layer <- call_module (value (base self)) last_hidden_state ;;
      self <- Get ;;
      ck <- lift (cat_cached (cached_key self) key_layer) ;;
      Put (set_cached_key (Some ck) self) ;;
      self <- Get ;;
      cv <- lift (cat_cached (cached_value self) value_layer) ;;
      Put (set_cached_value (Some cv) self)
  end ;;
  self <- Get ;;
  Ret (query_layer, cached_key self, cached_value self).

(** *** The other functions of the notebook *)

(** [tokenize_function(examples)], which [dataset.map] calls; [tokenizer]
    is the global of the notebook. *)
Definition tokenize_function {St} (tokenizer examples : handle) : prog St handle :=
  text <- fw_obj "examples.__getitem__" [AObj examples; AStr "text"] ;;
  fw_obj "tokenizer.__call__"
    [AObj tokenizer; AObj text; AKw "truncation" (ABool true);
     AKw "padding" (AStr "max_length"); AKw "max_length" (ANum (PInt 512))].

(** [dynamic_quantized_inference(model, input_ids)] *)
Definition dynamic_quantized_inference {St} (model : handle) (input_ids : tensor)
  : prog St handle :=
  quantized_model <- quantize_dynamic model ;;
  With NoGrad (call_model quantized_model input_ids).

(** [export_to_onnx(model, input_shape)] *)
Definition export_to_onnx {St} (model : handle) (input_shape : list pynum)
  : prog St unit :=
  dummy_input <- fw_tensor "torch.randint"
                   [ANum (PInt 0); ANum (PInt 1000); ATuple input_shape] ;;
  fw_unit "torch.onnx.export"
    [AObj model; ATensor dummy_input; AStr "quantized_gpt2.onnx";
     AKw "input_names" (ANames ["input_ids"]);
     AKw "output_names" (ANames ["logits"]);
     AKw "dynamic_axes" (ANames ["input_ids"; "logits"])] ;;
  print "Model exported to ONNX format" [].

(** [onnx_inference(onnx_path, input_ids)] *)
Definition onnx_inference {St} (onnx_path : string) (input_ids : tensor)
  : prog St handle :=
  session <- fw_obj "ort.InferenceSession" [AStr onnx_path] ;;
  inputs <- fw_obj "session.get_inputs" [AObj session] ;;
  input0 <- fw_obj "__getitem__" [AObj inputs; ANum (PInt 0)] ;;
  input_name <- getattr input0 "name" ;;
  outputs <- fw_obj "session.get_outputs" [AObj session] ;;
  output0 <- fw_obj "__getitem__" [AObj outputs; ANum (PInt 0)] ;;
  output_name <- getattr output0 "name" ;;
  array <- fw_obj "numpy" [ATensor input_ids] ;;
  results <- fw_obj "session.run"
               [AObj session; AObj output_name; AObj input_name; AObj array] ;;
  fw_obj "__getitem__" [AObj results; ANum (PInt 0)].

(** [benchmark(model, input_ids, runs=100)]; [model] is anything that
    can be called on [input_ids]. *)
Definition benchmark {St} (model : tensor -> prog St unit) (input_ids : tensor)
  (runs : Z) : prog St pynum :=
  start_time <- fw_num "time.time" [] ;;
  for_each (range runs) (fun _ => With NoGrad (model input_ids)) ;;
  end_time <- fw_num "time.time" [] ;;
  truediv (py_sub end_time start_time) (PInt runs).

(** *** The cells of the notebook, in order *)

Section Cells.
Context {St : Type}.

Definition cell_setup : prog St handle :=
  cuda <- fw_bool "torch.cuda.is_available" [] ;;
  device <- fw_obj "torch.device" [AStr (if cuda then "cuda" else "cpu")] ;;
  print "Using device: {device}" [] ;;
  fw_obj "torch.manual_seed" [ANum (PInt 42)] ;;
  Ret device.

Definition cell_load (device : handle) : prog St (handle * handle) :=
  m <- fw_obj "AutoModelForCausalLM.from_pretrained" [AStr "gpt2"] ;;
  model <- fw_obj "to" [AObj m; AObj device] ;;
  tokenizer <- fw_obj "AutoTokenizer.from_pretrained" [AStr "gpt2"] ;;
  pad_is_none <- fw_bool "tokenizer.pad_token is None" [AObj tokenizer] ;;
  (if pad_is_none : bool then
     eos <- getattr tokenizer "eos_token" ;;
     fw_obj "tokenizer.add_special_tokens"
       [AObj tokenizer; AKw "pad_token" (AObj eos)] ;;
     n <- fw_num "len" [AObj tokenizer] ;;
     fw_obj "model.resize_token_embeddings" [AObj model; ANum n] ;;
     Ret tt
   else Ret tt) ;;
  print "Model loaded: {model_name}" [] ;;
  n <- fw_num "sum(p.numel() for p in model.parameters())" [AObj model] ;;
  print "Number of parameters: {}" [n] ;;
  Ret (model, tokenizer).

Definition cell_fine_tune (model tokenizer : handle) : prog St (list batch) :=
  dataset <- fw_obj "load_dataset"
               [AStr "wikitext"; AStr "wikitext-2-raw-v1"; AKw "split" (AStr "train")] ;;
  tokenized_dataset <- fw_obj "dataset.map"
                         [AObj dataset; AStr "tokenize_function";
                          AKw "batched" (ABool true);
                          AKw "remove_columns" (ANames ["text"])] ;;
  tokenized_dataset <- fw_obj "with_format" [AObj tokenized_dataset; AStr "torch"] ;;
  data_collator <- fw_obj "DataCollatorForLanguageModeling"
                     [AKw "tokenizer" (AObj tokenizer); AKw "mlm" (ABool false)] ;;
  train_dataloader <- fw_batches "DataLoader"
                        [AObj tokenized_dataset; AKw "batch_size" (ANum (PInt 4));
                         AKw "shuffle" (ABool true);
                         AKw "collate_fn" (AObj data_collator)] ;;
  parameters <- fw_obj "model.parameters" [AObj model] ;;
  optimizer <- fw_obj "torch.optim.AdamW"
                 [AObj parameters; AKw "lr" (ANum (PFloat (1 # 20000)))] ;;
  fine_tune model train_dataloader optimizer 3 ;;
  Ret train_dataloader.

Definition cell_ptq (model : handle) (train_dataloader : list batch)
  : prog St handle :=
  cpu_model <- fw_obj "cpu" [AObj model] ;;
  model_int8 <- apply_ptq train_dataloader cpu_model ;;
  print "Model quantized to INT8" [] ;;
  Ret model_int8.

Definition cell_int8_attention (model_int8 : handle) : prog St unit :=
  t <- getattr model_int8 "transformer" ;;
  h <- getattr t "h" ;;
  layers <- fw_objs "iter" [AObj h] ;;
  for_each layers (fun layer =>
    attn <- getattr layer "attn" ;;
    self <- QuantizedAttention__init__ attn ;;
    instance <- fw_obj "QuantizedAttention"
                  [AObj (query self); AObj (key self); AObj (value self)] ;;
    set_attr layer "attn" instance) ;;
  print "Implemented efficient INT8 GEMM operations for attention mechanisms" [].

Definition cell_kv_cache (model_int8 : handle) : prog St unit :=
  t <- getattr model_int8 "transformer" ;;
  h <- getattr t "h" ;;
  layers <- fw_objs "iter" [AObj h] ;;
  for_each layers (fun layer =>
    attn <- getattr layer "attn" ;;
    self <- CachedQuantizedAttention__init__ attn ;;
    instance <- fw_obj "CachedQuantizedAttention"
                  [AObj (query (base self)); AObj (key (base self));
                   AObj (value (base self))] ;;
    set_attr layer "attn" instance) ;;
  print "Applied quantized key-value caching" [].

Definition cell_dynamic_quantization : prog St unit :=
  print "Implemented dynamic quantization for activations" [].

Definition cell_onnx (model_int8 : handle) : prog St unit :=
  export_to_onnx model_int8 [PInt 1; PInt 512] ;;
  input_ids <- fw_tensor "torch.randint"
                 [ANum (PInt 0); ANum (PInt 1000); ATuple [PInt 1; PInt 128]] ;;
  onnx_inference "quantized_gpt2.onnx" input_ids ;;
  print "Performed inference using ONNX Runtime" [].

Definition cell_benchmark (model model_int8 : handle) : prog St unit :=
  input_ids <- fw_tensor "torch.randint"
                 [ANum (PInt 0); ANum (PInt 1000); ATuple [PInt 1; PInt 512]] ;;
  input_ids <- to_device input_ids ;;
  original_time <- benchmark (fun x => call_model model x ;; Ret tt) input_ids 100 ;;
  quantized_time <- benchmark (fun x => call_model model_int8 x ;; Ret tt)
                      input_ids 100 ;;
  cpu_ids <- fw_tensor "cpu" [ATensor input_ids] ;;
  onnx_time <- benchmark (fun x => onnx_inference "quantized_gpt2.onnx" x ;; Ret tt)
                 cpu_ids 100 ;;
  print "Original model average inference time: {original_time:.4f} seconds"
        [original_time] ;;
  print "Quantized model average inference time: {quantized_time:.4f} seconds"
        [quantized_time] ;;
  print "ONNX Runtime average inference time: {onnx_time:.4f} seconds" [onnx_time] ;;
  speedup <- truediv original_time onnx_time ;;
  print "Speedup: {original_time / onnx_time:.2f}x" [speedup].

(** The notebook is run from the first cell to the last, each cell begun
    under the heading that introduces it.  [upto_c] is the notebook up to
    the end of cell [c]; it returns the globals that later cells read. *)
Definition upto_setup : prog St handle :=
  Cell "1. Setup and Imports" ;;
  cell_setup.

Definition upto_load : prog St (handle * handle) :=
  device <- upto_setup ;;
  Cell "2. Load Pre-trained Model" ;;
  cell_load device.

Definition upto_fine_tune : prog St (handle * list batch) :=
  ' (model, tokenizer) <- upto_load ;;
  Cell "3. Mixed Precision Fine-tuning" ;;
  train_dataloader <- cell_fine_tune model tokenizer ;;
  Ret (model, train_dataloader).

Definition upto_ptq : prog St (handle * handle) :=
  ' (model, train_dataloader) <- upto_fine_tune ;;
  Cell "4. Post-Training Quantization (PTQ)" ;;
  model_int8 <- cell_ptq model train_dataloader ;;
  Ret (model, model_int8).

Definition upto_int8_attention : prog St (handle * handle) :=
  ' (model, model_int8) <- upto_ptq ;;
  Cell "5. Implement efficient INT8 GEMM operations for attention mechanisms" ;;
  cell_int8_attention model_int8 ;;
  Ret (model, model_int8).

Definition upto_kv_cache : prog St (handle * handle) :=
  ' (model, model_int8) <- upto_int8_attention ;;
  Cell "6. Apply quantized key-value caching for faster autoregressive inference" ;;
  cell_kv_cache model_int8 ;;
  Ret (model, model_int8).

Definition upto_dynamic_quantization : prog St (handle * handle) :=
  ' (model, model_int8) <- upto_kv_cache ;;
  Cell "7. Use dynamic quantization for activations to handle varying sequence lengths" ;;
  cell_dynamic_quantization ;;
  Ret (model, model_int8).

Definition upto_onnx : prog St (handle * handle) :=
  ' (model, model_int8) <- upto_dynamic_quantization ;;
  Cell "8. Deploy using an inference-optimized runtime like ONNX Runtime" ;;
  cell_onnx model_int8 ;;
  Ret (model, model_int8).

Definition upto_benchmark : prog St unit :=
  ' (model, model_int8) <- upto_onnx ;;
  Cell "9. Performance Benchmarking" ;;
  cell_benchmark model model_int8.

Definition notebook : prog St unit := upto_benchmark.

(** The notebook up to the end of its [k]-th cell, what it returns left
    aside. *)
Definition prefix (k : nat) : prog St unit :=
  match k with
  | 0 => Ret tt
  | 1 => upto_setup ;; Ret tt
  | 2 => upto_load ;; Ret tt
  | 3 => upto_fine_tune ;; Ret tt
  | 4 => upto_ptq ;; Ret tt
  | 5 => upto_int8_attention ;; Ret tt
  | 6 => upto_kv_cache ;; Ret tt
  | 7 => upto_dynamic_quantization ;; Ret tt
  | 8 => upto_onnx ;; Ret tt
  | _ => upto_benchmark ;; Ret tt
  end%nat.

End Cells.

End LLM.

(** ** Notebook 02: a Vision Transformer for edge devices *)

Module ViT.

(** *** Mixed precision fine-tuning *)

(** The body of the loop of [train_epoch]; [total_loss], [correct] and
    [total] are the loop-carried variables. *)
Definition train_epoch_body {St} (model optimizer scaler criterion : handle)
  (acc : pynum * pynum * pynum) (b : tensor * tensor)
  : prog St (pynum * pynum * pynum) :=
  let '(total_loss, correct, total) := acc in
  let '(inputs, targets) := b in
  inputs <- to_device inputs ;;
  targets <- to_device targets ;;
  zero_grad optimizer ;;
  '(outputs, loss) <- With Autocast (
    outputs <- call_module model inputs ;;
    loss <- call_criterion criterion outputs targets ;;
    Ret (outputs, loss)) ;;
  scaled <- scale scaler loss ;;
  backward scaled ;;
  scaler_step scaler optimizer ;;
  scaler_update scaler ;;
  l <- lift (item loss) ;;
  '(_, predicted) <- lift (max_dim1 outputs) ;;
  n <- lift (size_dim targets 0) ;;
  hits <- lift (tensor_eq predicted targets) ;;
  c <- lift (item_int (tensor_sum hits)) ;;
  Ret (py_add total_loss l, py_add correct c, py_add total n).

(** [train_epoch(model, loader, optimizer, scaler, criterion)] *)
Definition train_epoch {St} (model : handle) (loader : list (tensor * tensor))
  (optimizer scaler criterion : handle) : prog St (pynum * pynum) :=
  model_train model ;;
  '(total_loss, correct, total) <-
    for_fold loader (PInt 0, PInt 0, PInt 0)
      (train_epoch_body model optimizer scaler criterion) ;;
  avg <- truediv total_loss (len loader) ;;
  acc <- truediv (py_mul (PFloat 100) correct) total ;;
  Ret (avg, acc).

(** The body of the loop of [validate]. *)
Definition validate_body {St} (model criterion : handle)
  (acc : pynum * pynum * pynum) (b : tensor * tensor)
  : prog St (pynum * pynum * pynum) :=
  let '(total_loss, correct, total) := acc in
  let '(inputs, targets) := b in
  inputs <- to_device inputs ;;
  targets <- to_device targets ;;
  outputs <- call_module model inputs ;;
  loss <- call_criterion criterion outputs targets ;;
  l <- lift (item loss) ;;
  '(_, predicted) <- lift (max_dim1 outputs) ;;
  n <- lift (size_dim targets 0) ;;
  hits <- lift (tensor_eq predicted targets) ;;
  c <- lift (item_int (tensor_sum hits)) ;;
  Ret (py_add total_loss l, py_add correct c, py_add total n).

(** [validate(model, loader, criterion)] *)
Definition validate {St} (model : handle) (loader : list (tensor * tensor))
  (criterion : handle) : prog St (pynum * pynum) :=
  model_eval model ;;
  '(total_loss, correct, total) <-
    With NoGrad (for_fold loader (PInt 0, PInt 0, PInt 0)
                   (validate_body model criterion)) ;;
  avg <- truediv total_loss (len loader) ;;
  acc <- truediv (py_mul (PFloat 100) correct) total ;;
  Ret (avg, acc).

(** *** Pruning *)

(** [module.qkv.weight.data = w], on module [i] of the model *)
Definition set_weight (i : nat) (w : tensor) (model : list vit_module)
  : list vit_module :=
  match nth_error model i with
  | Some (AttentionModule a) =>
      set_nth i (AttentionModule {| num_heads := num_heads a; qkv_weight := w;
                                    qkv_bias := qkv_bias a |}) model
  | _ => model
  end.

(** [module.qkv.bias.data = b], on module [i] of the model *)
Definition set_bias (i : nat) (b : tensor) (model : list vit_module)
  : list vit_module :=
  match nth_error model i with
  | Some (AttentionModule a) =>
      set_nth i (AttentionModule {| num_heads := num_heads a;
                                    qkv_weight := qkv_weight a;
                                    qkv_bias := Some b |}) model
  | _ => model
  end.

(** The body of the loop of [prune_attention_heads], on module [i] of
    [model.modules()].  The state is the list of the modules, which the
    function mutates in place. *)
Definition prune_module (norm2 : list Q -> Q) (prune_ratio : pynum) (i : nat)
  : prog (list vit_module) unit :=
  model <- Get ;;
  match nth_error model i with
  | Some (AttentionModule module) =>
      let num_heads := num_heads module in
      let num_prune := py_int (py_mul (PInt num_heads) prune_ratio) in
      v <- lift (view_3 (qkv_weight module) 3 num_heads) ;;
      head_importance <- lift (norm_dim2 norm2 v) ;;
      head_importance <- lift (mean_dim0 head_importance) ;;
      ' (_, indices) <- lift (topk_smallest head_importance num_prune) ;;
      (* Create a mask to zero out pruned heads *)
      mask <- lift (ones num_heads) ;;
      mask <- lift (index_fill mask indices 0%Q) ;;
      mask <- lift (repeat_1d mask 3) ;;
      mask <- lift (unsqueeze_1 mask) ;;
      mask <- lift (unsqueeze_1 mask) ;;
      (* Apply mask to weights and bias *)
      w <- lift (imul (qkv_weight module) mask) ;;
      model <- Get ;;
      Put (set_weight i w model) ;;
      match qkv_bias module with
      | Some bias =>
          b <- lift (imul bias (squeeze mask)) ;;
          model <- Get ;;
          Put (set_bias i b model)
      | None => Ret tt
      end
  | _ => Ret tt
  end.

(** [prune_attention_heads(model, prune_ratio=0.3)] *)
Definition prune_attention_heads (norm2 : list Q -> Q) (prune_ratio : pynum)
  : prog (list vit_module) unit :=
  model <- Get ;;
  for_each (seq 0 (length model)) (prune_module norm2 prune_ratio).

(** *** Layer fusion *)

(** [torch.nn.Identity()] *)
Definition Identity : nn_module := NNModule "Identity" false [] [].

(** [d[name] = v] on the ordered dict of children: the entry keeps its
    place, a new name goes last. *)
Fixpoint set_child (name : string) (v : nn_module)
  (ch : list (string * nn_module)) : list (string * nn_module) :=
  match ch with
  | [] => [(name, v)]
  | (n, m) :: rest =>
      if String.eqb n name then (n, v) :: rest
      else (n, m) :: set_child name v rest
  end.

(** [setattr(model, name, v)] for a module [v] *)
Definition setattr (model : nn_module) (name : string) (v : nn_module) : nn_module :=
  match model with
  | NNModule c b s ch => NNModule c b s (set_child name v ch)
  end.

(** [fuse_bn_recursively(model)].  The function mutates [model] in
    place and returns nothing; here it returns the tree as mutated.  The
    loop runs over the children as they were on entry; the recursive
    call mutates the child it is given, which [model] then holds. *)
Fixpoint fuse_bn_recursively (model : nn_module) : nn_module :=
  match model with
  | NNModule _ _ _ children =>
      fold_left
        (fun model (item : string * nn_module) =>
           let (module_name, module) := item in
           let module :=
             match named_children module with
             | [] => module
             | _ :: _ => fuse_bn_recursively module
             end in
           let model := setattr model module_name module in
           if is_BatchNorm2d module
           then setattr model module_name Identity
           else model)
        children model
  end.

(** The body of the fine-tuning loop of the notebook: one epoch of
    training, one of validation, and the report on the console. *)
Definition fine_tuning_epoch {St} (model : handle)
  (train_loader val_loader : list (tensor * tensor))
  (optimizer scaler criterion : handle) (epochs epoch : Z) : prog St unit :=
  ' (train_loss, train_acc) <-
    train_epoch model train_loader optimizer scaler criterion ;;
  ' (val_loss, val_acc) <- validate model val_loader criterion ;;
  print "Epoch {epoch+1}/{epochs}:" [PInt (epoch + 1); PInt epochs] ;;
  print "Train Loss: {train_loss:.4f}, Train Acc: {train_acc:.2f}%"
        [train_loss; train_acc] ;;
  print "Val Loss: {val_loss:.4f}, Val Acc: {val_acc:.2f}%"
        [val_loss; val_acc].

(** *** Quantization-aware fine-tuning *)

(** [class QuantizedViT(nn.Module)] *)
Record QuantizedViT := { quant : handle; model : handle; dequant : handle }.

(** [QuantizedViT.__init__(self, model)] *)
Definition QuantizedViT__init__ {St} (model : handle) : prog St QuantizedViT :=
  nn_Module__init__ ;;
  quant <- fw_obj "torch.quantization.QuantStub" [] ;;
  dequant <- fw_obj "torch.quantization.DeQuantStub" [] ;;
  Ret {| quant := quant; model := model; dequant := dequant |}.

(** [QuantizedViT.forward(self, x)] *)
Definition QuantizedViT_forward (x : tensor) : prog QuantizedViT tensor :=
  self <- Get ;;
  x <- call_module (quant self) x ;;
  self <- Get ;;
  x <- call_module (model self) x ;;
  self <- Get ;;
  call_module (dequant self) x.

(** One epoch of [apply_qaf]'s loop. *)
Definition qat_epoch {St} (criterion model_qat : handle)
  (train_loader val_loader : list (tensor * tensor))
  (optimizer scaler : handle) (epochs epoch : Z) : prog St unit :=
  fw_obj "model_qat.apply" [AObj model_qat; AStr "torch.quantization.disable_observer"] ;;
  fw_obj "model_qat.apply" [AObj model_qat; AStr "torch.quantization.enable_fake_quant"] ;;
  (if (0 <? epoch)%Z then
     fw_obj "model_qat.apply"
       [AObj model_qat; AStr "torch.quantization.enable_observer"] ;;
     Ret tt
   else Ret tt) ;;
  ' (train_loss, train_acc) <-
    train_epoch model_qat train_loader optimizer scaler criterion ;;
  ' (val_loss, val_acc) <- validate model_qat val_loader criterion ;;
  print "QAT Epoch {epoch+1}/{epochs}:" [PInt (epoch + 1); PInt epochs] ;;
  print "Train Loss: {train_loss:.4f}, Train Acc: {train_acc:.2f}%"
        [train_loss; train_acc] ;;
  print "Val Loss: {val_loss:.4f}, Val Acc: {val_acc:.2f}%"
        [val_loss; val_acc].

(** [apply_qaf(model, train_loader, val_loader, epochs=3)]; [criterion]
    is the global of the notebook. *)
Definition apply_qaf {St} (criterion model : handle)
  (train_loader val_loader : list (tensor * tensor)) (epochs : Z)
  : prog St handle :=
  qconfig <- fw_obj "torch.quantization.get_default_qat_qconfig" [AStr "fbgemm"] ;;
  set_attr model "qconfig" qconfig ;;
  model_qat <- fw_obj "torch.quantization.prepare_qat" [AObj model] ;;
  patch_embed <- getattr model "patch_embed" ;;
  set_attr model_qat "patch_embed" patch_embed ;;
  head <- getattr model "head" ;;
  set_attr model_qat "head" head ;;
  parameters <- fw_obj "model_qat.parameters" [AObj model_qat] ;;
  optimizer <- fw_obj "optim.AdamW"
                 [AObj parameters; AKw "lr" (ANum (PFloat (1 # 100000)));
                  AKw "weight_decay" (ANum (PFloat (1 # 100)))] ;;
  scaler <- GradScaler ;;
  for_each (range epochs)
    (qat_epoch criterion model_qat train_loader val_loader optimizer scaler epochs) ;;
  evaluated <- fw_obj "model_qat.eval" [AObj model_qat] ;;
  fw_obj "torch.quantization.convert" [AObj evaluated; AKw "inplace" (ABool false)].

(** *** The other functions of the notebook *)

(** [verify_quantized_attention(model)]; each f-string field is
    evaluated before its line is printed. *)
Definition verify_module {St} (module : handle) : prog St unit :=
  is_attention <- fw_bool "isinstance"
                    [AObj module; AStr "timm.models.vision_transformer.Attention"] ;;
  if is_attention : bool then
    print "Attention module: {module}" [] ;;
    qkv <- getattr module "qkv" ;;
    weight <- getattr qkv "weight" ;;
    Quantized <- fw_obj "torch.quantization.Quantized" [] ;;
    b <- fw_bool "isinstance" [AObj weight; AObj Quantized] ;;
    print "QKV weight quantized: {}" [PInt (Z.b2z b)] ;;
    proj <- getattr module "proj" ;;
    weight <- getattr proj "weight" ;;
    Quantized <- fw_obj "torch.quantization.Quantized" [] ;;
    b <- fw_bool "isinstance" [AObj weight; AObj Quantized] ;;
    print "Projection weight quantized: {}" [PInt (Z.b2z b)]
  else Ret tt.

Definition verify_quantized_attention {St} (model : handle) : prog St unit :=
  ms <- fw_objs "model.modules" [AObj model] ;;
  for_each ms verify_module.

(** [optimize_for_mobile(model)] *)
Definition optimize_for_mobile {St} (model : handle) : prog St handle :=
  model_eval model ;;
  example_input <- fw_tensor "torch.rand"
                     [ATuple [PInt 1; PInt 3; PInt 224; PInt 224]] ;;
  example_input <- to_device example_input ;;
  traced_model <- fw_obj "torch.jit.trace" [AObj model; ATensor example_input] ;;
  fw_obj "torch.jit.optimize_for_mobile" [AObj traced_model].

(** [benchmark(model, input_shape, num_runs=100)] *)
Definition benchmark {St} (model : handle) (input_shape : list pynum)
  (num_runs : Z) : prog St pynum :=
  model_eval model ;;
  input_tensor <- fw_tensor "torch.rand" [ATuple input_shape] ;;
  input_tensor <- to_device input_tensor ;;
  start_time <- fw_obj "torch.cuda.Event" [AKw "enable_timing" (ABool true)] ;;
  end_time <- fw_obj "torch.cuda.Event" [AKw "enable_timing" (ABool true)] ;;
  With NoGrad
    (for_each (range 10) (fun _ => call_module model input_tensor ;; Ret tt) ;;
     fw_unit "record" [AObj start_time] ;;
     for_each (range num_runs) (fun _ => call_module model input_tensor ;; Ret tt) ;;
     fw_unit "record" [AObj end_time]) ;;
  fw_unit "torch.cuda.synchronize" [] ;;
  elapsed <- fw_num "elapsed_time" [AObj start_time; AObj end_time] ;;
  truediv elapsed (PInt num_runs).

(** *** The cells of the notebook, in order

    [norm2] is the floating-point square root behind [torch.norm], as in
    [prune_attention_heads]. *)

Section Cells.
Context {St : Type} (norm2 : list Q -> Q).

(** Cell 1 only imports. *)
Definition cell_setup : prog St unit := Ret tt.

Definition cell_load : prog St (handle * handle) :=
  model <- fw_obj "timm.create_model"
             [AStr "vit_base_patch16_224"; AKw "pretrained" (ABool true)] ;;
  print "Loaded {model_name}" [] ;;
  cuda <- fw_bool "torch.cuda.is_available" [] ;;
  device <- fw_obj "torch.device" [AStr (if cuda then "cuda" else "cpu")] ;;
  model <- fw_obj "to" [AObj model; AObj device] ;;
  config <- fw_obj "resolve_data_config" [AKw "model" (AObj model)] ;;
  transform <- fw_obj "create_transform" [AObj config] ;;
  Ret (model, transform).

Definition cell_dataset (transform : handle)
  : prog St (list (tensor * tensor) * list (tensor * tensor)) :=
  train_dataset <- fw_obj "datasets.CIFAR10"
                     [AKw "root" (AStr "./data"); AKw "train" (ABool true);
                      AKw "download" (ABool true); AKw "transform" (AObj transform)] ;;
  val_dataset <- fw_obj "datasets.CIFAR10"
                   [AKw "root" (AStr "./data"); AKw "train" (ABool false);
                    AKw "download" (ABool true); AKw "transform" (AObj transform)] ;;
  train_subset <- fw_obj "torch.utils.data.Subset"
                    [AObj train_dataset; ANum (PInt 10000)] ;;
  val_subset <- fw_obj "torch.utils.data.Subset"
                  [AObj val_dataset; ANum (PInt 1000)] ;;
  train_loader <- fw_pairs "DataLoader"
                    [AObj train_subset; AKw "batch_size" (ANum (PInt 64));
                     AKw "shuffle" (ABool true)] ;;
  val_loader <- fw_pairs "DataLoader"
                  [AObj val_subset; AKw "batch_size" (ANum (PInt 64));
                   AKw "shuffle" (ABool false)] ;;
  Ret (train_loader, val_loader).

Definition cell_fine_tune (model : handle)
  (train_loader val_loader : list (tensor * tensor)) : prog St handle :=
  criterion <- fw_obj "nn.CrossEntropyLoss" [] ;;
  parameters <- fw_obj "model.parameters" [AObj model] ;;
  optimizer <- fw_obj "optim.AdamW"
                 [AObj parameters; AKw "lr" (ANum (PFloat (1 # 10000)));
                  AKw "weight_decay" (ANum (PFloat (1 # 100)))] ;;
  scaler <- GradScaler ;;
  for_each (range 5)
    (fine_tuning_epoch model train_loader val_loader optimizer scaler criterion 5) ;;
  print "Mixed precision fine-tuning completed" [] ;;
  Ret criterion.

Definition cell_qaf (criterion model : handle)
  (train_loader val_loader : list (tensor * tensor)) : prog St handle :=
  model_quantized <- apply_qaf criterion model train_loader val_loader 3 ;;
  print "Quantization-Aware Fine-tuning completed" [] ;;
  Ret model_quantized.

(** [prune_attention_heads] works on the modules of the model in place
    and calls nothing that the framework answers here: its changes are
    written back whether it returns or raises. *)
Definition cell_pruning (model_quantized : handle) : prog St unit :=
  ms <- modules model_quantized ;;
  let (r, ms') :=
    run no_fw (prune_attention_heads norm2 (PFloat (3 # 10))) ms in
  set_modules model_quantized ms' ;;
  lift r ;;
  print "Attention head pruning completed" [].

Definition cell_fusion (model_quantized : handle) : prog St unit :=
  t <- module_tree model_quantized ;;
  set_module_tree model_quantized (fuse_bn_recursively t) ;;
  print "Layer fusion completed" [].

Definition cell_verify (model_quantized : handle) : prog St unit :=
  verify_quantized_attention model_quantized.

Definition cell_optimize (model_quantized : handle) : prog St handle :=
  optimized_model <- optimize_for_mobile model_quantized ;;
  fw_unit "optimized_model.save" [AObj optimized_model; AStr "optimized_vit_edge.pt"] ;;
  print "Model optimized and saved for mobile deployment" [] ;;
  Ret optimized_model.

Definition cell_benchmark (model model_quantized optimized_model : handle)
  : prog St unit :=
  let input_shape := [PInt 1; PInt 3; PInt 224; PInt 224] in
  original_time <- benchmark model input_shape 100 ;;
  quantized_time <- benchmark model_quantized input_shape 100 ;;
  optimized_time <- benchmark optimized_model input_shape 100 ;;
  print "Original model inference time: {original_time:.2f} ms" [original_time] ;;
  print "Quantized model inference time: {quantized_time:.2f} ms" [quantized_time] ;;
  print "Optimized model inference time: {optimized_time:.2f} ms" [optimized_time] ;;
  speedup <- truediv original_time optimized_time ;;
  print "Speedup: {original_time / optimized_time:.2f}x" [speedup].

(** The notebook is run from the first cell to the last, each cell begun
    under the heading that introduces it.  [upto_c] is the notebook up to
    the end of cell [c]; it returns the globals that later cells read. *)
Definition loaders : Type := (list (tensor * tensor) * list (tensor * tensor))%type.

Definition upto_setup : prog St unit :=
  Cell "1. Setup and Imports" ;;
  cell_setup.

Definition upto_load : prog St (handle * handle) :=
  upto_setup ;;
  Cell "2. Load Pre-trained ViT Model" ;;
  cell_load.

Definition upto_dataset : prog St (handle * loaders) :=
  ' (model, transform) <- upto_load ;;
  Cell "3. Prepare Dataset" ;;
  data <- cell_dataset transform ;;
  Ret (model, data).

Definition upto_fine_tune : prog St (handle * loaders * handle) :=
  ' (model, (train_loader, val_loader)) <- upto_dataset ;;
  Cell "4. Mixed Precision Fine-tuning" ;;
  criterion <- cell_fine_tune model train_loader val_loader ;;
  Ret (model, (train_loader, val_loader), criterion).

Definition upto_qaf : prog St (handle * handle) :=
  ' (model, (train_loader, val_loader), criterion) <- upto_fine_tune ;;
  Cell "5. Quantization-Aware Fine-tuning (QAF)" ;;
  model_quantized <- cell_qaf criterion model train_loader val_loader ;;
  Ret (model, model_quantized).

Definition upto_pruning : prog St (handle * handle) :=
  ' (model, model_quantized) <- upto_qaf ;;
  Cell "6. Pruning for Model Size Reduction" ;;
  cell_pruning model_quantized ;;
  Ret (model, model_quantized).

Definition upto_fusion : prog St (handle * handle) :=
  ' (model, model_quantized) <- upto_pruning ;;
  Cell "7. Layer Fusion" ;;
  cell_fusion model_quantized ;;
  Ret (model, model_quantized).

Definition upto_verify : prog St (handle * handle) :=
  ' (model, model_quantized) <- upto_fusion ;;
  Cell "8. Efficient Quantized Attention Mechanisms" ;;
  cell_verify model_quantized ;;
  Ret (model, model_quantized).

Definition upto_optimize : prog St (handle * handle * handle) :=
  ' (model, model_quantized) <- upto_verify ;;
  Cell "9. Optimization for Target Hardware" ;;
  optimized_model <- cell_optimize model_quantized ;;
  Ret (model, model_quantized, optimized_model).

Definition upto_benchmark : prog St unit :=
  ' (model, model_quantized, optimized_model) <- upto_optimize ;;
  Cell "10. Performance Benchmarking" ;;
  cell_benchmark model model_quantized optimized_model.

Definition notebook : prog St unit := upto_benchmark.

(** The notebook up to the end of its [k]-th cell, what it returns left
    aside. *)
Definition prefix (k : nat) : prog St unit :=
  match k with
  | 0 => Ret tt
  | 1 => upto_setup ;; Ret tt
  | 2 => upto_load ;; Ret tt
  | 3 => upto_dataset ;; Ret tt
  | 4 => upto_fine_tune ;; Ret tt
  | 5 => upto_qaf ;; Ret tt
  | 6 => upto_pruning ;; Ret tt
  | 7 => upto_fusion ;; Ret tt
  | 8 => upto_verify ;; Ret tt
  | 9 => upto_optimize ;; Ret tt
  | _ => upto_benchmark ;; Ret tt
  end%nat.

End Cells.

End ViT.

(** ** The framework as the attention wrappers see it

    The three projections are layers of the wrapped attention module:
    what they compute is not fixed by the notebook, so it is a parameter
    [mf] (a module and its input to the output, or to the exception the
    layer raises).  A layer call does not touch the wrapper's attributes. *)
Definition attn_fw (mf : handle -> tensor -> result tensor)
  : handler LLM.CachedQuantizedAttention :=
  {| fw_call := fun e st =>
       match e as e0 return result (resp e0) * LLM.CachedQuantizedAttention with
       | CallModule m x => (mf m x, st)
       | _ => (Raise unmodelled, st)
       end;
     fw_enter := fun _ st => st;
     fw_exit := fun _ st => st |}.

(** The states of one [CachedQuantizedAttention] instance: as [__init__]
    leaves it, then after each call of [forward], whether the call
    returned or raised.  The index counts the calls that returned. *)
Inductive lifetime (mf : handle -> tensor -> result tensor)
  : nat -> LLM.CachedQuantizedAttention -> Prop :=
| life_new b :
    lifetime mf 0 {| LLM.base := b; LLM.cached_key := None; LLM.cached_value := None |}
| life_call n self h r self' :
    lifetime mf n self ->
    run (attn_fw mf) (LLM.forward h) self = (r, self') ->
    lifetime mf (if is_ok r then S n else n) self'.

(** A layer that, like [nn.Linear], maps an input of shape [.., H_in] to
    an output of shape [.., H_out]: the number of dimensions and every
    extent but the last are kept. *)
Definition linear_like (mf : handle -> tensor -> result tensor) : Prop :=
  forall m x y, mf m x = Ok y ->
    ndim y = ndim x /\ forall d, (S d < ndim x)%nat -> size y d = size x d.

(** The cached sequence length: the extent of dimension 1. *)
Definition seq_len (c : option tensor) : option nat :=
  option_map (fun t => size t 1) c.

(** Successive calls of [forward] on one instance, one per input. *)
Fixpoint calls (mf : handle -> tensor -> result tensor) (hs : list tensor)
  (self : LLM.CachedQuantizedAttention) : LLM.CachedQuantizedAttention :=
  match hs with
  | [] => self
  | h :: hs' => calls mf hs' (snd (run (attn_fw mf) (LLM.forward h) self))
  end.

(** Every one of these calls returns, on an input that has at least one
    sequence position. *)
Fixpoint all_return (mf : handle -> tensor -> result tensor) (hs : list tensor)
  (self : LLM.CachedQuantizedAttention) : Prop :=
  match hs with
  | [] => True
  | h :: hs' =>
      is_ok (fst (run (attn_fw mf) (LLM.forward h) self)) = true /\
      (1 <= size h 1)%nat /\
      all_return mf hs' (snd (run (attn_fw mf) (LLM.forward h) self))
  end.

(** ** A store of framework objects

    The modules of a model are Python objects: a variable or an attribute
    holds a reference, and two references may name one object.  The store
    maps the identifier of a handle to the object. *)

Inductive precision : Type := FP32 | FP16 | INT8.

Record pyobj : Type := {
  attrs : list (string * handle);  (* the attributes that hold objects *)
  precision_of : precision;        (* of the parameters of the object itself *)
  params : list Q;                 (* the parameters of the object itself *)
  seen : nat;                      (* batches its observers have seen *)
  prepared : bool;                 (* observers attached by [prepare] *)
  quantized : bool }.              (* swapped by [convert] *)

Definition store : Type := list pyobj.

Definition id_of (h : handle) : nat := match h with Obj i => i end.

Definition lookup (s : store) (o : handle) : option pyobj := nth_error s (id_of o).

Fixpoint assoc {A} (name : string) (l : list (string * A)) : option A :=
  match l with
  | [] => None
  | (n, v) :: l' => if String.eqb n name then Some v else assoc name l'
  end.

Fixpoint set_assoc {A} (name : string) (v : A) (l : list (string * A))
  : list (string * A) :=
  match l with
  | [] => [(name, v)]
  | (n, x) :: l' =>
      if String.eqb n name then (n, v) :: l' else (n, x) :: set_assoc name v l'
  end.

(** [o.name], when [o] is in the store and has the attribute. *)
Definition store_getattr (s : store) (o : handle) (name : string) : option handle :=
  match lookup s o with
  | Some obj => assoc name (attrs obj)
  | None => None
  end.

Definition precision_at (s : store) (o : handle) : option precision :=
  option_map precision_of (lookup s o).

Definition params_at (s : store) (o : handle) : option (list Q) :=
  option_map params (lookup s o).

(** [f] applied to the objects whose identifier satisfies [P]. *)
Fixpoint map_at (P : nat -> bool) (f : pyobj -> pyobj) (i : nat) (s : store) : store :=
  match s with
  | [] => []
  | o :: s' => (if P i then f o else o) :: map_at P f (S i) s'
  end.

(** The objects an object reaches through attributes, itself first;
    [fuel] bounds the length of the paths. *)
Fixpoint reach (fuel : nat) (s : store) (i : nat) : list nat :=
  i :: match fuel with
       | O => []
       | S fuel' =>
           match nth_error s i with
           | Some o => flat_map (fun a => reach fuel' s (id_of (snd a))) (attrs o)
           | None => []
           end
       end.

Definition reaches (s : store) (root : handle) (j : nat) : bool :=
  existsb (Nat.eqb j) (reach (length s) s (id_of root)).

Definition with_attrs (a : list (string * handle)) (o : pyobj) : pyobj :=
  {| attrs := a; precision_of := precision_of o; params := params o;
     seen := seen o; prepared := prepared o; quantized := quantized o |}.

Definition with_precision (p : precision) (o : pyobj) : pyobj :=
  {| attrs := attrs o; precision_of := p; params := params o;
     seen := seen o; prepared := prepared o; quantized := quantized o |}.

Definition mark_prepared (o : pyobj) : pyobj :=
  {| attrs := attrs o; precision_of := precision_of o; params := params o;
     seen := seen o; prepared := true; quantized := quantized o |}.

Definition mark_quantized (o : pyobj) : pyobj :=
  {| attrs := attrs o; precision_of := INT8; params := params o;
     seen := seen o; prepared := prepared o; quantized := true |}.

Definition observe (o : pyobj) : pyobj :=
  {| attrs := attrs o; precision_of := precision_of o; params := params o;
     seen := if prepared o then S (seen o) else seen o;
     prepared := prepared o; quantized := quantized o |}.

Definition plain_object : pyobj :=
  {| attrs := []; precision_of := FP32; params := []; seen := 0;
     prepared := false; quantized := false |}.

Definition shift (n : nat) (h : handle) : handle := Obj (id_of h + n).

Definition shift_obj (n : nat) (o : pyobj) : pyobj :=
  with_attrs (map (fun a => (fst a, shift n (snd a))) (attrs o)) o.

(** [copy.deepcopy]: the copy of object [i] is object [i + length s],
    and refers to copies only, so that sharing is kept.  Every object of
    the store is copied; the copies that the copy of the argument does
    not reach are garbage. *)
Definition deepcopy (s : store) : store := s ++ map (shift_obj (length s)) s.

Definition in_copy (s : store) (root : handle) (j : nat) : bool :=
  Nat.leb (length s) j && reaches (deepcopy s) (shift (length s) root) j.

Definition no_object : exn := Exn "AttributeError" "no such object or attribute".

(** The calls of [apply_ptq] on the store, as far as references and
    precisions go.  [prepare] and [convert] work on a deep copy of their
    argument ([inplace=False]); a forward pass feeds the observers;
    [half()] casts the parameters of the module and of its submodules in
    place and returns the module itself; [to(device)] keeps the values.
    The store is used to follow which object a reference names: no call
    of it changes [params], and [convert] is taken to return for every
    module, though that of PyTorch refuses some under a given
    configuration.  What is proved on it is stated for the case that
    [apply_ptq] returns. *)
Definition torch_call (e : fwE) (s : store) : result (resp e) * store :=
  match e as e0 return result (resp e0) * store with
  | GetAttr o name =>
      match store_getattr s o name with
      | Some v => (Ok v, s)
      | None => (Raise no_object, s)
      end
  | SetAttr o name v =>
      match lookup s o with
      | Some obj =>
          (Ok tt, map_at (Nat.eqb (id_of o))
                    (with_attrs (set_assoc name v (attrs obj))) 0 s)
      | None => (Raise no_object, s)
      end
  | GetDefaultQConfig _ => (Ok (Obj (length s)), s ++ [plain_object])
  | Prepare m =>
      match lookup s m with
      | Some _ =>
          (Ok (shift (length s) m),
           map_at (in_copy s m) mark_prepared 0 (deepcopy s))
      | None => (Raise no_object, s)
      end
  | Convert m =>
      match lookup s m with
      | Some _ =>
          (Ok (shift (length s) m),
           map_at (in_copy s m) mark_quantized 0 (deepcopy s))
      | None => (Raise no_object, s)
      end
  | CallModel m x =>
      match lookup s m with
      | Some _ =>
          (Ok (Obj (length s)), map_at (reaches s m) observe 0 s ++ [plain_object])
      | None => (Raise no_object, s)
      end
  | Half m =>
      match lookup s m with
      | Some _ => (Ok m, map_at (reaches s m) (with_precision FP16) 0 s)
      | None => (Raise no_object, s)
      end
  | ToDevice t => (Ok t, s)
  | Clone t => (Ok t, s)
  | _ => (Raise unmodelled, s)
  end.

Definition torch_fw : handler store :=
  {| fw_call := torch_call;
     fw_enter := fun _ s => s;
     fw_exit := fun _ s => s |}.

(** ** Layer fusion, in the words of the specification *)

(** Every child that is a [BatchNorm2d] becomes an [Identity]; every
    other child keeps its class and its own state, and is treated the
    same way below. *)
Fixpoint replace_bn (m : nn_module) : nn_module :=
  match m with
  | NNModule c b s ch =>
      NNModule c b s
        (map (fun item : string * nn_module =>
                let (n, child) := item in
                (n, if is_BatchNorm2d child then ViT.Identity
                    else replace_bn child))
             ch)
  end.

(** The names of the children of a module are the keys of a dict: no
    name occurs twice, at any depth. *)
Fixpoint unique_names (m : nn_module) : Prop :=
  match m with
  | NNModule _ _ _ ch =>
      NoDup (map fst ch) /\
      (fix all (l : list (string * nn_module)) : Prop :=
         match l with
         | [] => True
         | (_, child) :: l' => unique_names child /\ all l'
         end) ch
  end.

(** [m.get_submodule(path)]: the submodule reached by a path of names. *)
Fixpoint get_child (name : string) (ch : list (string * nn_module))
  : option nn_module :=
  match ch with
  | [] => None
  | (n, m) :: rest => if String.eqb n name then Some m else get_child name rest
  end.

Fixpoint get_submodule (m : nn_module) (path : list string)
  : option nn_module :=
  match path with
  | [] => Some m
  | name :: path' =>
      match get_child name (named_children m) with
      | Some child => get_submodule child path'
      | None => None
      end
  end.

(** No module strictly between the root and the end of the path is a
    [BatchNorm2d]. *)
Fixpoint no_bn_above (m : nn_module) (path : list string) : Prop :=
  match path with
  | [] | [_] => True
  | name :: path' =>
      match get_child name (named_children m) with
      | Some child => is_BatchNorm2d child = false /\ no_bn_above child path'
      | None => True
      end
  end.

(** ** What an epoch reports, in the words of the specification *)

(** The quotient that [total_loss / len(loader)] computes when the
    division returns. *)
Definition quotient_by_len {A} (total_loss : pynum) (loader : list A) : pynum :=
  PFloat (to_Q total_loss / inject_Z (Z.of_nat (length loader))).

(** The arithmetic mean of the per-batch loss values. *)
Definition arithmetic_mean (xs : list Q) : Q :=
  (fold_right Qplus 0 xs / inject_Z (Z.of_nat (length xs)))%Q.

(** [correct] out of [total], as a percentage. *)
Definition percentage (correct total : Z) : Q :=
  (100 * inject_Z correct / inject_Z total)%Q.

(** The rows of a two-dimensional tensor: one row of scores per example. *)
Definition rows (t : tensor) : list (list Q) :=
  match shape t with
  | [n; c] => chunks c n (data t)
  | _ => []
  end.

(** Is the class of greatest score the target class? *)
Definition hit (row : list Q) (target : Q) : bool :=
  Qeq_bool (inject_Z (Z.of_nat (argmax row))) target.

(** The number of examples of a batch whose argmax prediction equals the
    target. *)
Fixpoint count_hits (rs : list (list Q)) (targets : list Q) : Z :=
  match rs, targets with
  | r :: rs', y :: targets' =>
      ((if hit r y then 1 else 0) + count_hits rs' targets')%Z
  | _, _ => 0%Z
  end.

Definition hits (outputs targets : tensor) : Z :=
  count_hits (rows outputs) (data targets).

(** A framework in which no call raises: [ans] is the answer to a call
    in a state, [eff] the state the call leaves. *)
Definition total_fw {St} (ans : forall e : fwE, St -> resp e)
  (eff : fwE -> St -> St) (enter exit : ctx -> St -> St) : handler St :=
  {| fw_call := fun e st => (Ok (ans e st), eff e st);
     fw_enter := enter;
     fw_exit := exit |}.

(** What the framework computed on the batches of one epoch: for each
    batch, the output of the model on the inputs of the batch and the
    value of the criterion on this output and the targets of the batch,
    each in the state the framework had reached by then. *)
Inductive observed {St} (ans : forall e : fwE, St -> resp e)
  (model criterion : handle)
  : list (tensor * tensor) -> list (tensor * Q) -> Prop :=
| observed_nil : observed ans model criterion [] []
| observed_cons inputs targets loader st_m st_c l rest :
    item (ans (CallCriterion criterion
                 (ans (CallModule model inputs) st_m) targets) st_c)
      = Ok (PFloat l) ->
    observed ans model criterion loader rest ->
    observed ans model criterion ((inputs, targets) :: loader)
      ((ans (CallModule model inputs) st_m, l) :: rest).

(** Over a whole epoch: the hits and the examples. *)
Fixpoint epoch_hits (loader : list (tensor * tensor)) (obs : list (tensor * Q)) : Z :=
  match loader, obs with
  | (_, targets) :: loader', (outputs, _) :: obs' =>
      (hits outputs targets + epoch_hits loader' obs')%Z
  | _, _ => 0%Z
  end.

Definition epoch_examples (loader : list (tensor * tensor)) : Z :=
  fold_right (fun b n => (Z.of_nat (size (snd b) 0) + n)%Z) 0%Z loader.

(** The loader yields aligned batches and the model one row of at least
    one score per example: the outputs have shape [n, c] with [c >= 1]
    and the targets shape [n]; the criterion returns a scalar; moving a
    tensor to the device keeps it. *)
Definition well_shaped {St} (ans : forall e : fwE, St -> resp e)
  (model : handle) (loader : list (tensor * tensor)) : Prop :=
  (forall t st, ans (ToDevice t) st = t) /\
  (forall c o t st, exists q, data (ans (CallCriterion c o t) st) = [q]) /\
  (forall inputs targets st, In (inputs, targets) loader ->
     exists n c,
       (1 <= c)%nat /\
       shape (ans (CallModule model inputs) st) = [n; c] /\
       length (data (ans (CallModule model inputs) st)) = (n * c)%nat /\
       shape targets = [n] /\ length (data targets) = n).

(** What the framework computed on the batches of one epoch of
    [fine_tune]: for each batch, the loss of the model on the
    [input_ids] of the batch, labels being the inputs. *)
Inductive observed_lm {St} (ans : forall e : fwE, St -> resp e) (model : handle)
  : list batch -> list Q -> Prop :=
| observed_lm_nil : observed_lm ans model [] []
| observed_lm_cons b x loader st_m st_l l rest :
    getitem b "input_ids" = Ok x ->
    item (ans (GetAttrTensor (ans (CallModelLabels model x x) st_m) "loss") st_l)
      = Ok (PFloat l) ->
    observed_lm ans model loader rest ->
    observed_lm ans model (b :: loader) (l :: rest).

(** Every batch has its [input_ids], the loss of the model is a scalar,
    and moving or cloning a tensor keeps it. *)
Definition well_formed_lm {St} (ans : forall e : fwE, St -> resp e)
  (loader : list batch) : Prop :=
  (forall t st, ans (ToDevice t) st = t) /\
  (forall t st, ans (Clone t) st = t) /\
  (forall o st, exists q, data (ans (GetAttrTensor o "loss") st) = [q]) /\
  (forall b, In b loader -> exists x, getitem b "input_ids" = Ok x).

(** What a run printed: the text and the numbers of each [print]. *)
Fixpoint printed (t : list event) : list (string * list pynum) :=
  match t with
  | [] => []
  | EvCall (Print text args) :: t' => (text, args) :: printed t'
  | _ :: t' => printed t'
  end.

(** ** Post-training quantization, in the words of the specification *)

(** The [input_ids] of the batches of a loader. *)
Definition inputs_of (loader : list batch) : list tensor :=
  flat_map (fun b => match getitem b "input_ids" with
                     | Ok x => [x]
                     | Raise _ => []
                     end) loader.

(** The four steps: the default configuration is assigned to the model,
    the model is prepared, every batch goes once through the prepared
    model with gradient tracking disabled, the prepared model is
    converted.  [ans] is what the framework answers to a call. *)
Definition ptq_steps (ans : forall e : fwE, resp e) (model : handle)
  (loader : list batch) : list event :=
  let model_prepared := ans (Prepare model) in
  [EvCall (GetDefaultQConfig "fbgemm");
   EvCall (SetAttr model "qconfig" (ans (GetDefaultQConfig "fbgemm")));
   EvCall (Prepare model);
   EvEnter NoGrad]
  ++ flat_map (fun x => [EvCall (ToDevice x);
                         EvCall (CallModel model_prepared (ans (ToDevice x)))])
              (inputs_of loader)
  ++ [EvExit NoGrad; EvCall (Convert model_prepared)].

(** What follows the four steps: the embeddings and the head of the
    original model are cast to half precision and put into the
    quantized model. *)
Definition keep_fp16_steps (ans : forall e : fwE, resp e) (model : handle)
  : list event :=
  let model_quantized := ans (Convert (ans (Prepare model))) in
  let t := ans (GetAttr model "transformer") in
  let tq := ans (GetAttr model_quantized "transformer") in
  [EvCall (GetAttr model "transformer");
   EvCall (GetAttr t "wte");
   EvCall (Half (ans (GetAttr t "wte")));
   EvCall (GetAttr model_quantized "transformer");
   EvCall (SetAttr tq "wte" (ans (Half (ans (GetAttr t "wte")))));
   EvCall (GetAttr model "transformer");
   EvCall (GetAttr t "wpe");
   EvCall (Half (ans (GetAttr t "wpe")));
   EvCall (GetAttr model_quantized "transformer");
   EvCall (SetAttr tq "wpe" (ans (Half (ans (GetAttr t "wpe")))));
   EvCall (GetAttr model "lm_head");
   EvCall (Half (ans (GetAttr model "lm_head")));
   EvCall (SetAttr model_quantized "lm_head"
             (ans (Half (ans (GetAttr model "lm_head")))))].

(** ** A framework in which every call succeeds

    Tensors are handed back as they are, every object is [Obj 0]; the
    framework has no state. *)
Definition echo_answer (e : fwE) : resp e :=
  match e with
  | GetAttr _ _ => Obj 0
  | SetAttr _ _ _ => tt
  | GetAttrTensor _ _ => Tensor [] [0%Q]
  | NNModuleInit => tt
  | CallModule _ x => x
  | CallModel _ _ => Obj 0
  | CallModelLabels _ _ _ => Obj 0
  | CallCriterion _ _ _ => Tensor [] [0%Q]
  | ToDevice t => t
  | Clone t => t
  | Print _ _ => tt
  | ModelTrain _ => tt
  | ModelEval _ => tt
  | GradScalerNew => Obj 0
  | ZeroGrad _ => tt
  | Scale _ l => l
  | Backward _ => tt
  | ScalerStep _ _ => tt
  | ScalerUpdate _ => tt
  | QuantizeDynamic m => m
  | GetDefaultQConfig _ => Obj 0
  | Prepare m => m
  | Convert m => m
  | Half m => m
  | Modules _ => []
  | SetModules _ _ => tt
  | ModuleTree _ => NNModule "Module" false [] []
  | SetModuleTree _ _ => tt
  | FwObj _ _ => Obj 0
  | FwUnit _ _ => tt
  | FwNum _ _ => PFloat 1
  | FwBool _ _ => true
  | FwTensor _ _ => Tensor [1;1] [0%Q]
  | FwObjs _ _ => []
  | FwBatches _ _ => []
  | FwPairs _ _ => []
  end.

Definition quiet_fw {St} : handler St :=
  total_fw (fun e _ => echo_answer e) (fun _ st => st)
           (fun _ st => st) (fun _ st => st).

Definition echo_fw : handler unit := quiet_fw.

(** An attention module of two heads of one feature each: [qkv.weight]
    has shape [6, 2]; rows 0 and 1 are the queries of heads 0 and 1, rows
    2 and 3 their keys, rows 4 and 5 their values.  Head 0 has the
    smaller weights. *)
Definition two_heads : Attention :=
  {| num_heads := 2;
     qkv_weight := Tensor [6;2] [1%Q; 0%Q;  3%Q; 4%Q;
                                      0%Q; 1%Q;  4%Q; 3%Q;
                                      1%Q; 1%Q;  5%Q; 0%Q];
     qkv_bias := Some (Tensor [6] [1%Q; 1%Q; 1%Q; 1%Q; 1%Q; 1%Q]) |}.

Definition two_head_model : list vit_module :=
  [OtherModule "VisionTransformer"; AttentionModule two_heads].

(** The sum of the squares of the entries: a rational stand-in for
    [norm2] in the instances below.  It is not the Euclidean norm, and
    the mean of the squares need not order the heads as the mean of the
    norms does; the theorems on pruning are stated for every [norm2]. *)
Definition square_norm (l : list Q) : Q :=
  fold_right (fun x s => (x * x + s)%Q) 0%Q l.

(** A GPT-2 shaped model in the store: the model (object 0) has a
    [transformer] (object 1) with the embeddings [wte] and [wpe]
    (objects 2 and 3), and the head [lm_head] (object 4). *)
Definition fp32_layer (p : list Q) : pyobj :=
  {| attrs := []; precision_of := FP32; params := p; seen := 0;
     prepared := false; quantized := false |}.

Definition gpt2_store : store :=
  [ with_attrs [("transformer", Obj 1); ("lm_head", Obj 4)] plain_object;
    with_attrs [("wte", Obj 2); ("wpe", Obj 3)] plain_object;
    fp32_layer [1%Q]; fp32_layer [2%Q]; fp32_layer [3%Q] ].

(** Two examples with scores for two classes, targets 1 and 0: both are
    classified right by a model that hands its input back. *)
Definition two_examples : list (tensor * tensor) :=
  [(Tensor [2;2] [1%Q; 3%Q; 4%Q; 2%Q], Tensor [2] [1%Q; 0%Q])].

(** A loader that yields one batch of no example. *)
Definition one_empty_batch : list (tensor * tensor) :=
  [(Tensor [0;1] [], Tensor [0] [])].

(** A loader of the language model: one batch of one sequence. *)
Definition one_lm_batch : list batch :=
  [[("input_ids", Tensor [1;2] [3%Q; 4%Q])]].

(** ** The pipelines

    The steps of the pipeline of section 2 of the specification. *)
Inductive stage : Type :=
| Load | FineTune | Quantize | Prune | Fuse | Export | Benchmark.

Definition stage_eqb (a b : stage) : bool :=
  match a, b with
  | Load, Load | FineTune, FineTune | Quantize, Quantize | Prune, Prune
  | Fuse, Fuse | Export, Export | Benchmark, Benchmark => true
  | _, _ => false
  end.

(** The cells of notebook 01 by their headings, each with the steps of
    the pipeline it goes through.  Cell 3 also prepares the data; cells
    5 and 6 wrap the attention layers of the quantized model in
    dynamically quantized projections, without and with a key-value
    cache; cell 7 defines a function and calls nothing. *)
Definition llm_cells : list (string * list stage) :=
  [("1. Setup and Imports", []);
   ("2. Load Pre-trained Model", [Load]);
   ("3. Mixed Precision Fine-tuning", [FineTune]);
   ("4. Post-Training Quantization (PTQ)", [Quantize]);
   ("5. Implement efficient INT8 GEMM operations for attention mechanisms", [Quantize]);
   ("6. Apply quantized key-value caching for faster autoregressive inference",
    [Quantize]);
   ("7. Use dynamic quantization for activations to handle varying sequence lengths",
    []);
   ("8. Deploy using an inference-optimized runtime like ONNX Runtime", [Export]);
   ("9. Performance Benchmarking", [Benchmark])].

(** The cells of notebook 02 by their headings, each with the steps of
    the pipeline it goes through.  Quantization-aware fine-tuning
    prepares the model, trains it again, and converts it. *)
Definition vit_cells : list (string * list stage) :=
  [("1. Setup and Imports", []);
   ("2. Load Pre-trained ViT Model", [Load]);
   ("3. Prepare Dataset", []);
   ("4. Mixed Precision Fine-tuning", [FineTune]);
   ("5. Quantization-Aware Fine-tuning (QAF)", [Quantize; FineTune; Quantize]);
   ("6. Pruning for Model Size Reduction", [Prune]);
   ("7. Layer Fusion", [Fuse]);
   ("8. Efficient Quantized Attention Mechanisms", []);
   ("9. Optimization for Target Hardware", [Export]);
   ("10. Performance Benchmarking", [Benchmark])].

(** The cells begun in an execution, in order. *)
Definition cells (t : list event) : list string :=
  flat_map (fun ev => match ev with EvCell title => [title] | _ => [] end) t.

(** A program that begins no cell. *)
Fixpoint no_cell {St R} (p : prog St R) : Prop :=
  match p with
  | Bind m k => no_cell m /\ forall x, no_cell (k x)
  | With _ body => no_cell body
  | TryExcept body h => no_cell body /\ forall e, no_cell (h e)
  | Cell _ => False
  | _ => True
  end.

(** A program that makes none of the framework calls [bad]. *)
Fixpoint no_call (bad : fwE -> bool) {St R} (p : prog St R) : Prop :=
  match p with
  | Bind m k => no_call bad m /\ forall x, no_call bad (k x)
  | Call e => bad e = false
  | With _ body => no_call bad body
  | TryExcept body h => no_call bad body /\ forall e, no_call bad (h e)
  | _ => True
  end.

(** The calls by which a notebook reaches the modules of a model to prune
    attention heads or to fuse layers. *)
Definition prunes_or_fuses (e : fwE) : bool :=
  match e with
  | Modules _ | SetModules _ _ | ModuleTree _ | SetModuleTree _ _ => true
  | _ => false
  end.

(** [in_order titles prefix fw st notebook]: run on the framework [fw]
    from the state [st], the notebook begins its cells in the order of
    [titles], the first [n] of them; a cell is begun only once the
    notebook up to the cell before it has returned, and after all that
    these cells did; and when the whole notebook returns every cell has
    been begun. *)
Definition in_order {St} (titles : list string) (prefix : nat -> prog St unit)
  (fw : handler St) (st : St) (notebook : prog St unit) : Prop :=
  exists n,
    n <= length titles /\
    cells (trace fw notebook st) = firstn n titles /\
    (forall k, k < n ->
       fst (run fw (prefix k) st) = Ok tt /\
       exists rest,
         trace fw notebook st
         = trace fw (prefix k) st ++ EvCell (nth k titles "") :: rest) /\
    (fst (run fw notebook st) = Ok tt -> n = length titles).

(** ** The code of the notebooks

    Every function and method defined in the two notebooks, on any
    arguments, and the two notebooks themselves.  [benchmark] of notebook
    01 calls the [model] it is given; [fuse_bn_recursively] is a function
    of the module tree and calls nothing that can raise. *)
Inductive authored : forall {St R : Type}, prog St R -> Prop :=
| au_fine_tune St model train_dataloader optimizer epochs :
    authored (@LLM.fine_tune St model train_dataloader optimizer epochs)
| au_tokenize_function St tokenizer examples :
    authored (@LLM.tokenize_function St tokenizer examples)
| au_apply_ptq St train_dataloader model :
    authored (@LLM.apply_ptq St train_dataloader model)
| au_QuantizedAttention__init__ St attention :
    authored (@LLM.QuantizedAttention__init__ St attention)
| au_QuantizedAttention_forward St self hidden_states :
    authored (@LLM.QuantizedAttention_forward St self hidden_states)
| au_CachedQuantizedAttention__init__ St attention :
    authored (@LLM.CachedQuantizedAttention__init__ St attention)
| au_forward hidden_states :
    authored (LLM.forward hidden_states)
| au_dynamic_quantized_inference St model input_ids :
    authored (@LLM.dynamic_quantized_inference St model input_ids)
| au_export_to_onnx St model input_shape :
    authored (@LLM.export_to_onnx St model input_shape)
| au_onnx_inference St onnx_path input_ids :
    authored (@LLM.onnx_inference St onnx_path input_ids)
| au_llm_benchmark St model input_ids runs :
    (forall x, handler_free (model x)) ->
    authored (@LLM.benchmark St model input_ids runs)
| au_llm_notebook St :
    authored (@LLM.notebook St)
| au_train_epoch St model loader optimizer scaler criterion :
    authored (@ViT.train_epoch St model loader optimizer scaler criterion)
| au_validate St model loader criterion :
    authored (@ViT.validate St model loader criterion)
| au_QuantizedViT__init__ St model :
    authored (@ViT.QuantizedViT__init__ St model)
| au_QuantizedViT_forward x :
    authored (ViT.QuantizedViT_forward x)
| au_apply_qaf St criterion model train_loader val_loader epochs :
    authored (@ViT.apply_qaf St criterion model train_loader val_loader epochs)
| au_prune_attention_heads norm2 prune_ratio :
    authored (ViT.prune_attention_heads norm2 prune_ratio)
| au_fuse_bn_recursively St model :
    authored (@Ret St _ (ViT.fuse_bn_recursively model))
| au_verify_quantized_attention St model :
    authored (@ViT.verify_quantized_attention St model)
| au_optimize_for_mobile St model :
    authored (@ViT.optimize_for_mobile St model)
| au_vit_benchmark St model input_shape num_runs :
    authored (@ViT.benchmark St model input_shape num_runs)
| au_vit_notebook St norm2 :
    authored (@ViT.notebook St norm2).

(** ** A framework on which both notebooks run to their end

    The loaders hold one batch; the clock of [time.time] advances by one
    second at each reading; a model has no attention module to prune; every
    other call is answered as by [echo_answer]. *)
Definition demo_answer (e : fwE) : resp e :=
  match e as e0 return resp e0 with
  | FwBatches _ _ => one_lm_batch
  | FwPairs _ _ => two_examples
  | e0 => echo_answer e0
  end.

Definition demo_fw : handler Z :=
  {| fw_call := fun e clock =>
       match e as e0 return result (resp e0) * Z with
       | FwNum f _ =>
           if String.eqb f "time.time"
           then (Ok (PFloat (inject_Z clock)), (clock + 1)%Z)
           else (Ok (PFloat 1), clock)
       | e0 => (Ok (demo_answer e0), clock)
       end;
     fw_enter := fun _ clock => clock;
     fw_exit := fun _ clock => clock |}.

(** A framework on which the forward pass of a model with labels fails;
    every other call is answered as by [echo_answer]. *)
Definition shape_mismatch : exn := Exn "RuntimeError" "shape mismatch".

Definition failing_fw : handler unit :=
  {| fw_call := fun e st =>
       match e as e0 return result (resp e0) * unit with
       | CallModelLabels _ _ _ => (Raise shape_mismatch, st)
       | e0 => (Ok (echo_answer e0), st)
       end;
     fw_enter := fun _ st => st;
     fw_exit := fun _ st => st |}.

(** ** Instances and auxiliary notions of the proofs *)

(** A concrete instance: the three projections are the identity layer;
    the instance has served one call on a batch of one sequence of one
    position. *)
Definition id_layer : handle -> tensor -> result tensor := fun _ x => Ok x.

Definition attn0 : LLM.QuantizedAttention :=
  {| LLM.query := Obj 0; LLM.key := Obj 1; LLM.value := Obj 2 |}.

Definition h_one : tensor := Tensor [1;1;1] [5%Q].
Definition h_two : tensor := Tensor [1;2;1] [5%Q; 7%Q].
Definition h_empty : tensor := Tensor [1;0;1] [].

Definition served_once : LLM.CachedQuantizedAttention :=
  {| LLM.base := attn0; LLM.cached_key := Some h_one; LLM.cached_value := Some h_one |}.

(** A block with a convolution and its batch norm, inside a model that
    has a batch norm of its own and a head. *)
Definition conv_bn_model : nn_module :=
  NNModule "Net" false []
    [("stem", NNModule "Sequential" false []
                [("conv", NNModule "Conv2d" false
                            [("weight", Tensor [1;1;1;1] [2%Q])] []);
                 ("bn", NNModule "BatchNorm2d" true
                          [("weight", Tensor [1] [1%Q])] [])]);
     ("norm", NNModule "BatchNorm2d" true [("weight", Tensor [1] [1%Q])] []);
     ("head", NNModule "Linear" false [("weight", Tensor [1;1] [3%Q])] [])].

(** A framework whose state counts the blocks [with torch.no_grad()]
    entered and not yet left, and the steps the optimizer has taken:
    every step updates the parameters. *)
Definition counting_fw : handler (nat * nat) :=
  {| fw_call := fun e s =>
       (Ok (echo_answer e),
        match e with
        | ScalerStep _ _ => (fst s, S (snd s))
        | _ => s
        end);
     fw_enter := fun c s =>
       match c with NoGrad => (S (fst s), snd s) | Autocast => s end;
     fw_exit := fun c s =>
       match c with NoGrad => (Nat.pred (fst s), snd s) | Autocast => s end |}.

(** A batch norm with an activation of its own below it, as timm's
    [BatchNormAct2d], a subclass of [BatchNorm2d], has. *)
Definition bn_act_model : nn_module :=
  NNModule "Net" false []
    [("conv1", NNModule "Conv2d" false [("weight", Tensor [1;1;1;1] [2%Q])] []);
     ("bn1", NNModule "BatchNormAct2d" true [("weight", Tensor [1] [1%Q])]
               [("drop", NNModule "Identity" false [] []);
                ("act", NNModule "ReLU" false [] [])])].

(** The numbers one batch adds to the loop-carried variables, as the two
    loop bodies compute them from the outputs, the loss and the targets. *)
Definition metrics (outputs loss targets : tensor) (acc : pynum * pynum * pynum)
  : result (pynum * pynum * pynum) :=
  let '(total_loss, correct, total) := acc in
  rbind (item loss) (fun l =>
  rbind (max_dim1 outputs) (fun vp =>
  rbind (size_dim targets 0) (fun n =>
  rbind (tensor_eq (snd vp) targets) (fun h =>
  rbind (item_int (tensor_sum h)) (fun c =>
  Ok (py_add total_loss l, py_add correct c, py_add total n)))))).

(** A loop body that computes the metrics of the batch from what the
    model and the criterion answer on it. *)
Definition computes_metrics {St} (fw : handler St)
  (ans : forall e : fwE, St -> resp e) (model criterion : handle)
  (body : pynum * pynum * pynum -> tensor * tensor -> prog St (pynum * pynum * pynum))
  : Prop :=
  forall acc inputs targets st, exists st_m st_c st',
    run fw (body acc (inputs, targets)) st
    = (metrics (ans (CallModule model inputs) st_m)
               (ans (CallCriterion criterion
                       (ans (CallModule model inputs) st_m) targets) st_c)
               targets acc, st').

(** The line [fine_tune] prints for an epoch of average loss [a]. *)
Definition epoch_line (epochs epoch : Z) (a : Q) : string * list pynum :=
  ("Epoch {epoch+1}/{epochs}, Average Loss: {avg_loss:.4f}",
   [PInt (epoch + 1); PInt epochs; PFloat a]).

(** [P] holds of every child of a list of named children. *)
Definition all_children (P : nn_module -> Prop) :=
  fix all (l : list (string * nn_module)) : Prop :=
    match l with
    | [] => True
    | (_, child) :: l' => P child /\ all l'
    end.

(** A named child after the fusion. *)
Definition fused_child (item : string * nn_module) : string * nn_module :=
  let (n, child) := item in
  (n, if is_BatchNorm2d child then ViT.Identity else replace_bn child).

(** One iteration of the loop of [fuse_bn_recursively]. *)
Definition fuse_step (model : nn_module) (item : string * nn_module) : nn_module :=
  let (module_name, module) := item in
  let module :=
    match named_children module with
    | [] => module
    | _ :: _ => ViT.fuse_bn_recursively module
    end in
  let model := ViT.setattr model module_name module in
  if is_BatchNorm2d module
  then ViT.setattr model module_name ViT.Identity
  else model.

(** [keeps s s']: every object of [s] is in [s'] with the attributes,
    the precision and the parameters it had. *)
Definition keeps (s s' : store) : Prop :=
  forall i o, nth_error s i = Some o ->
    exists o', nth_error s' i = Some o' /\
      attrs o' = attrs o /\ precision_of o' = precision_of o /\
      params o' = params o.

(** ** Further notions

    What the further properties of Part III are stated with. *)

(** A tensor that holds as many elements as its shape says. *)
Definition well_formed (t : tensor) : Prop := length (data t) = numel (shape t).

(** The scalar product of a row of the input and a row of the weight. *)
Definition dot (row w : list Q) : Q :=
  fold_right Qplus 0%Q (map2 Qmult row w).

(** [nn.Linear(in_features, out_features)] with the weight [weight] (one
    row per output feature) and the bias [bias]: the last dimension of
    the input must have [in_features] entries; every row of
    [in_features] entries along the last dimension is mapped to
    [x W^T + b]. *)
Definition linear (in_features : nat) (weight : list (list Q)) (bias : list Q)
  (x : tensor) : result tensor :=
  match shape x with
  | [] => Raise (Exn "RuntimeError"
                     "both arguments to linear need to be at least 1D")
  | _ :: _ =>
      if Nat.eqb (last (shape x) 0%nat) in_features then
        let lead := removelast (shape x) in
        Ok (Tensor (lead ++ [Nat.min (length weight) (length bias)])
              (flat_map (fun row => map2 (fun w b => (dot row w + b)%Q) weight bias)
                        (chunks in_features (numel lead) (data x))))
      else Raise (Exn "RuntimeError" "mat1 and mat2 shapes cannot be multiplied")
  end.

(** A layer that works on each sequence position on its own, as
    [nn.Linear] does: when the layer accepts an input of three or more
    dimensions and the same input with more positions joined to it
    along dimension 1, it accepts the positions joined, and its output
    on the whole is its outputs on the two, joined. *)
Definition position_wise (mf : handle -> tensor -> result tensor) (m : handle)
  : Prop :=
  forall h x c kh kc d0 d1 d1' d2 rest,
    shape h = d0 :: d1 :: d2 :: rest -> shape x = d0 :: d1' :: d2 :: rest ->
    well_formed h -> well_formed x ->
    cat_dim1 h x = Ok c ->
    mf m h = Ok kh -> mf m c = Ok kc ->
    exists kx, mf m x = Ok kx /\ cat_dim1 kh kx = Ok kc.

(** The cache of [self] holds the key and the value of the input [h]. *)
Definition in_sync (mf : handle -> tensor -> result tensor)
  (self : LLM.CachedQuantizedAttention) (h : tensor) : Prop :=
  exists k v,
    LLM.cached_key self = Some k /\ LLM.cached_value self = Some v /\
    mf (LLM.key (LLM.base self)) h = Ok k /\
    mf (LLM.value (LLM.base self)) h = Ok v.

(** Layers whose key projection has one feature whatever the input, the
    query and value projections handing their input back. *)
Definition narrow_key_layer (m : handle) (x : tensor) : result tensor :=
  match m with
  | Obj 1 => Ok (Tensor [1;1;1] [0%Q])
  | _ => Ok x
  end.

(** An attention module whose three projections are linear layers of
    two input features: the query keeps two features, the key has one,
    the value three. *)
Definition projections (m : handle) : tensor -> result tensor :=
  match m with
  | Obj 0 => linear 2 [[1%Q; 0%Q]; [0%Q; 1%Q]] [0%Q; 0%Q]
  | Obj 1 => linear 2 [[1%Q; 1%Q]] [0%Q]
  | _ => linear 2 [[2%Q; 0%Q]; [0%Q; 2%Q]; [1%Q; 1%Q]] [1%Q; 1%Q; 1%Q]
  end.

(** An input of one position, one more position, and the two joined;
    the instance has been called once, on the input of one position. *)
Definition one_position : tensor := Tensor [1;1;2] [5%Q; 7%Q].
Definition next_position : tensor := Tensor [1;1;2] [1%Q; 2%Q].
Definition two_positions : tensor := Tensor [1;2;2] [5%Q; 7%Q; 1%Q; 2%Q].

Definition served_one_position : LLM.CachedQuantizedAttention :=
  {| LLM.base := attn0;
     LLM.cached_key := Some (Tensor [1;1;1] [12%Q]);
     LLM.cached_value := Some (Tensor [1;1;3] [11%Q; 15%Q; 13%Q]) |}.

(** Some module below [m] is a [BatchNorm2d]. *)
Fixpoint has_bn_below (m : nn_module) : bool :=
  match m with
  | NNModule _ _ _ ch =>
      existsb (fun item : string * nn_module =>
                 is_BatchNorm2d (snd item) || has_bn_below (snd item)) ch
  end.

(** The framework [demo_fw], on a model with the attention module
    [two_heads]. *)
Definition attention_fw : handler Z :=
  {| fw_call := fun e clock =>
       match e as e0 return result (resp e0) * Z with
       | Modules _ => (Ok two_head_model, clock)
       | e0 => fw_call demo_fw e0 clock
       end;
     fw_enter := fun _ clock => clock;
     fw_exit := fun _ clock => clock |}.

Definition ctx_eqb (a b : ctx) : bool :=
  match a, b with
  | NoGrad, NoGrad | Autocast, Autocast => true
  | _, _ => false
  end.

(** [placed c ok d t]: in the events [t], read from [d] nested blocks
    [with c] on, every framework call [e] is allowed by [ok e inside],
    where [inside] tells whether the call is made inside a block
    [with c]. *)
Fixpoint placed (c : ctx) (ok : fwE -> bool -> bool) (d : nat) (t : list event)
  : bool :=
  match t with
  | [] => true
  | EvCall e :: t' => ok e (0 <? d)%nat && placed c ok d t'
  | EvEnter c' :: t' => placed c ok (if ctx_eqb c c' then S d else d) t'
  | EvExit c' :: t' => placed c ok (if ctx_eqb c c' then pred d else d) t'
  | EvCell _ :: t' => placed c ok d t'
  end.

(** The same of a program, by its structure. *)
Fixpoint placed_in (c : ctx) (ok : fwE -> bool -> bool) (inside : bool)
  {St R} (p : prog St R) : Prop :=
  match p with
  | Bind m k => placed_in c ok inside m /\ forall x, placed_in c ok inside (k x)
  | Call e => ok e inside = true
  | With c' body => placed_in c ok (inside || ctx_eqb c c') body
  | TryExcept body h =>
      placed_in c ok inside body /\ forall e, placed_in c ok inside (h e)
  | _ => True
  end.

(** Mixed precision: the forward pass and the loss are computed inside
    [autocast]; the gradients are scaled and computed, and the optimizer
    stepped, outside. *)
Definition mixed_precision (e : fwE) (inside : bool) : bool :=
  match e with
  | CallModule _ _ | CallModel _ _ | CallModelLabels _ _ _
  | CallCriterion _ _ _ => inside
  | ZeroGrad _ | Scale _ _ | Backward _ | ScalerStep _ _ | ScalerUpdate _ =>
      negb inside
  | _ => true
  end.

(** Inference: every forward pass and loss is computed inside
    [no_grad]; nothing is trained. *)
Definition inference_only (e : fwE) (inside : bool) : bool :=
  match e with
  | CallModule _ _ | CallModel _ _ | CallModelLabels _ _ _
  | CallCriterion _ _ _ => inside
  | ZeroGrad _ | Scale _ _ | Backward _ | ScalerStep _ _ | ScalerUpdate _
  | ModelTrain _ | GradScalerNew => false
  | _ => true
  end.

(** A program that raises nothing of its own: every Python operation in
    it returns. *)
Fixpoint no_throw {St R} (p : prog St R) : Prop :=
  match p with
  | Bind m k => no_throw m /\ forall x, no_throw (k x)
  | Throw _ => False
  | With _ body => no_throw body
  | TryExcept body h => no_throw body /\ forall e, no_throw (h e)
  | _ => True
  end.

(** The events of one timed run of [benchmark] of notebook 01. *)
Definition timed_run (body : list event) : list event :=
  EvEnter NoGrad :: body ++ [EvExit NoGrad].

(** The call that opens an ONNX Runtime session on a file. *)
Definition opens_session (onnx_path : string) : event :=
  EvCall (FwObj "ort.InferenceSession" [AStr onnx_path]).

(** A framework without state, in which a call may raise: [ans] is the
    answer, or the exception, to each call. *)
Definition stateless_fw (ans : forall e : fwE, result (resp e)) : handler unit :=
  {| fw_call := fun e st => (ans e, st);
     fw_enter := fun _ st => st;
     fw_exit := fun _ st => st |}.

(** [isinstance(module, timm.models.vision_transformer.Attention)] *)
Definition isinstance_Attention (module : handle) : fwE :=
  FwBool "isinstance" [AObj module; AStr "timm.models.vision_transformer.Attention"].

(** The creation of the stubs of [QuantizedViT]. *)
Definition creates_stub (e : fwE) : bool :=
  match e with
  | FwObj f _ =>
      String.eqb f "torch.quantization.QuantStub"
      || String.eqb f "torch.quantization.DeQuantStub"
  | _ => false
  end.

(** PyTorch as far as [verify_quantized_attention] goes, on a model of
    two modules of which the second is an attention module: the name
    [torch.quantization.Quantized] does not exist. *)
Definition no_Quantized : exn :=
  Exn "AttributeError" "module 'torch.quantization' has no attribute 'Quantized'".

Definition verify_answer (e : fwE) : result (resp e) :=
  match e as e0 return result (resp e0) with
  | FwObjs _ _ => Ok [Obj 1; Obj 2]
  | FwBool _ [AObj (Obj 2); _] => Ok true
  | FwBool _ _ => Ok false
  | FwObj "torch.quantization.Quantized" _ => Raise no_Quantized
  | e0 => Ok (echo_answer e0)
  end.

(** [project f t]: what [f] keeps of the framework calls of [t], in
    order. *)
Definition project {A} (f : fwE -> option A) (t : list event) : list A :=
  flat_map (fun ev => match ev with
                      | EvCall e => match f e with Some a => [a] | None => [] end
                      | _ => []
                      end) t.

Definition keeps_none {A} (f : fwE -> option A) (e : fwE) : bool :=
  match f e with Some _ => true | None => false end.

(** The switches of quantization-aware training and the mode of the
    model: the function that [model_qat.apply] is given, [train] for
    [model.train()], [eval] for [model.eval()]. *)
Definition schedule_mark (e : fwE) : option string :=
  match e with
  | FwObj "model_qat.apply" [AObj _; AStr f] => Some f
  | ModelTrain _ => Some "train"
  | ModelEval _ => Some "eval"
  | _ => None
  end.

(** What one epoch of [apply_qaf] switches, as the code has it. *)
Definition qat_epoch_schedule (epoch : Z) : list string :=
  ["torch.quantization.disable_observer"; "torch.quantization.enable_fake_quant"]
  ++ (if (0 <? epoch)%Z then ["torch.quantization.enable_observer"] else [])
  ++ ["train"; "eval"].

(** A step of the optimizer: [scaler.step(optimizer)]. *)
Definition optimizer_step (e : fwE) : option (handle * handle) :=
  match e with
  | ScalerStep scaler optimizer => Some (scaler, optimizer)
  | _ => None
  end.

(** The framework [demo_fw], on a model of one layer whose attention
    module has no attribute [query], as the attention modules of GPT-2
    have none. *)
Definition no_query : exn :=
  Exn "AttributeError" "'GPT2Attention' object has no attribute 'query'".

Definition gpt2_fw : handler Z :=
  {| fw_call := fun e clock =>
       match e as e0 return result (resp e0) * Z with
       | GetAttr _ "query" => (Raise no_query, clock)
       | FwObjs _ _ => (Ok [Obj 5], clock)
       | e0 => fw_call demo_fw e0 clock
       end;
     fw_enter := fun _ clock => clock;
     fw_exit := fun _ clock => clock |}.

(** A call that quantizes a layer, or one that assigns the attention
    module of a layer. *)
Definition wraps_attention (e : fwE) : bool :=
  match e with
  | QuantizeDynamic _ => true
  | SetAttr _ "attn" _ => true
  | _ => false
  end.

(** ** The steps of the pipeline

    What the calls of a notebook do for the pipeline. *)

(** The step of the pipeline that a framework call belongs to, if any:
    loading the pretrained model; training with the gradient scaler of
    mixed precision; preparing, converting or dynamically quantizing a
    model; reading and writing the modules of a model to prune them, or
    its tree of modules to fuse layers; exporting to ONNX, tracing,
    optimizing for mobile and saving; timing. *)
Definition stage_of (e : fwE) : option stage :=
  match e with
  | GradScalerNew | ModelTrain _ | ZeroGrad _ | Scale _ _ | Backward _
  | ScalerStep _ _ | ScalerUpdate _ => Some FineTune
  | GetDefaultQConfig _ | Prepare _ | Convert _ | QuantizeDynamic _ => Some Quantize
  | Modules _ | SetModules _ _ => Some Prune
  | ModuleTree _ | SetModuleTree _ _ => Some Fuse
  | FwObj f _ =>
      if existsb (String.eqb f)
           ["AutoModelForCausalLM.from_pretrained"; "timm.create_model"]
      then Some Load
      else if existsb (String.eqb f)
           ["torch.quantization.get_default_qat_qconfig";
            "torch.quantization.prepare_qat"; "torch.quantization.convert"]
      then Some Quantize
      else if existsb (String.eqb f)
           ["torch.jit.trace"; "torch.jit.optimize_for_mobile"]
      then Some Export
      else if String.eqb f "torch.cuda.Event" then Some Benchmark
      else None
  | FwUnit f _ =>
      if existsb (String.eqb f) ["torch.onnx.export"; "optimized_model.save"]
      then Some Export
      else if existsb (String.eqb f) ["record"; "torch.cuda.synchronize"]
      then Some Benchmark
      else None
  | FwNum f _ =>
      if existsb (String.eqb f) ["time.time"; "elapsed_time"]
      then Some Benchmark
      else None
  | _ => None
  end.

(** A list of steps with every step that repeats the one before it
    dropped. *)
Fixpoint squash_from (prev : option stage) (l : list stage) : list stage :=
  match l with
  | [] => []
  | s :: l' =>
      if match prev with Some p => stage_eqb p s | None => false end
      then squash_from prev l'
      else s :: squash_from (Some s) l'
  end.

Definition squash (l : list stage) : list stage := squash_from None l.

(** The steps an execution goes through, in order: the steps of its
    framework calls, a run of calls of one step counted once. *)
Definition steps (t : list event) : list stage := squash (project stage_of t).

(** The steps of the first [k] cells of a table. *)
Definition steps_of_cells (table : list (string * list stage)) (k : nat)
  : list stage :=
  squash (concat (map snd (firstn k table))).

(** [follows_table table prefix fw st]: run on the framework [fw] from
    the state [st], the notebook up to the end of its [k]-th cell goes
    through the steps of the first [k] cells of [table], in this order:
    through all of them when it returns, through the first [n] of them
    when it raises. *)
Definition follows_table {St} (table : list (string * list stage))
  (prefix : nat -> prog St unit) (fw : handler St) (st : St) : Prop :=
  forall k, exists n,
    steps (trace fw (prefix k) st) = firstn n (steps_of_cells table k) /\
    (fst (run fw (prefix k) st) = Ok tt -> n = length (steps_of_cells table k)).

(** [pipeline wanted l]: the steps [wanted] are met in this order among
    [l]. *)
Fixpoint pipeline (wanted l : list stage) : bool :=
  match wanted, l with
  | [], _ => true
  | _ :: _, [] => false
  | s :: wanted', s' :: l' =>
      if stage_eqb s s' then pipeline wanted' l' else pipeline wanted l'
  end.

(** The order of section 2 of the specification: load, fine-tune,
    quantize, then prune and/or fuse, then export, benchmark last. *)
Definition specified_pipeline (l : list stage) : bool :=
  (pipeline [Load; FineTune; Quantize; Prune; Export; Benchmark] l
   || pipeline [Load; FineTune; Quantize; Fuse; Export; Benchmark] l)
  && stage_eqb (last l Load) Benchmark.

(** *** The position of an execution in a pipeline

    [advance pipe s i]: from position [i] of [pipe] (the first [i] steps
    entered), a call of step [s] stays in step [i] or enters step
    [i + 1]; no other call is in order. *)
Definition at_step (pipe : list stage) (i : nat) : option stage :=
  match i with
  | O => None
  | S j => nth_error pipe j
  end.

Definition is_step (o : option stage) (s : stage) : bool :=
  match o with Some p => stage_eqb p s | None => false end.

Definition advance (pipe : list stage) (s : stage) (i : nat) : option nat :=
  if is_step (at_step pipe i) s then Some i
  else if is_step (nth_error pipe i) s then Some (S i)
  else None.

Fixpoint follow (pipe : list stage) (i : nat) (l : list stage) : option nat :=
  match l with
  | [] => Some i
  | s :: l' =>
      match advance pipe s i with
      | Some i' => follow pipe i' l'
      | None => None
      end
  end.

(** [staged pipe p i j]: by its structure, the program [p], begun at
    position [i] of [pipe], makes its calls in the order of [pipe] and
    is at position [j] when it returns. *)
Fixpoint staged (pipe : list stage) {St R} (p : prog St R) (i j : nat) : Prop :=
  match p with
  | Bind m k =>
      exists l, staged pipe m i l /\ (forall x, staged pipe (k x) l j) /\ l <= j
  | Call e =>
      match stage_of e with
      | Some s => advance pipe s i = Some j
      | None => i = j
      end
  | With _ body => staged pipe body i j
  | TryExcept _ _ => False
  | _ => i = j
  end.

(** The pipelines of the two notebooks, as their cells have them. *)
Definition llm_pipeline : list stage := [Load; FineTune; Quantize; Export; Benchmark].

Definition vit_pipeline : list stage :=
  [Load; FineTune; Quantize; FineTune; Quantize; Prune; Fuse; Export; Benchmark].

(* further notions end *)

(* ================================================================== *)
(** * Part II: lemmas and theorems *)
(* ================================================================== *)

(** ** Running programs *)

Section RunFacts.
Context {St : Type} (fw : handler St).

Lemma run_bind {X R} (m : prog St X) (k : X -> prog St R) st :
  run fw (Bind m k) st =
  match run fw m st with
  | (Ok x, st1) => run fw (k x) st1
  | (Raise e, st1) => (Raise e, st1)
  end.
Proof. reflexivity. Qed.

Lemma run_lift {A} (r : result A) st : run fw (lift r) st = (r, st).
Proof. destruct r; reflexivity. Qed.

Lemma run_for_each_cons {A} (x : A) xs (body : A -> prog St unit) st :
  run fw (for_each (x :: xs) body) st =
  match run fw (body x) st with
  | (Ok _, st1) => run fw (for_each xs body) st1
  | (Raise e, st1) => (Raise e, st1)
  end.
Proof. reflexivity. Qed.

Lemma trace_for_each_cons {A} (x : A) xs (body : A -> prog St unit) st :
  trace fw (for_each (x :: xs) body) st =
  trace fw (body x) st ++
  match run fw (body x) st with
  | (Ok _, st1) => trace fw (for_each xs body) st1
  | (Raise _, _) => []
  end.
Proof. reflexivity. Qed.

End RunFacts.

Create Rewrite HintDb run.
#[global] Hint Rewrite @run_lift : run.

(** One step of a program: unfold [run] on the constructors, and [lift]
    on a primitive whose result is not known yet. *)
Ltac run_simp :=
  repeat first [ progress cbn [run] | progress autorewrite with run ].

Ltac run_simp_in H :=
  repeat first [ progress cbn [run] in H | progress autorewrite with run in H ].

Ltac case_result H :=
  match type of H with
  | context [match ?r with Ok _ => _ | Raise _ => _ end] =>
      let E := fresh "E" in destruct r eqn:E
  end.

Ltac run_cases H :=
  repeat first [ progress autorewrite with run in H
               | progress cbn in H
               | case_result H ].

(** ** Shapes under slicing and concatenation *)

Lemma slice_last_dim1_shape h l :
  slice_last_dim1 h = Ok l ->
  (3 <= ndim l)%nat /\ ndim l = ndim h /\ size l 1 = Nat.min 1 (size h 1).
Proof.
  unfold slice_last_dim1, ndim, size.
  destruct (shape h) as [|d0 [|d1 [|d2 rest]]]; try discriminate.
  intros H. inversion H; subst; cbn. repeat split; lia.
Qed.

Lemma cat_dim1_size_ge a b c :
  cat_dim1 a b = Ok c -> (size a 1 <= size c 1)%nat.
Proof.
  unfold cat_dim1, size.
  destruct (shape a) as [|a0 [|a1 ra]] eqn:Ea;
    destruct (shape b) as [|b0 [|b1 rb]] eqn:Eb; try discriminate;
    try destruct a0; try destruct b0; try discriminate;
    intros H; try (inversion H; subst; cbn; rewrite ?Ea, ?Eb; cbn; lia).
  all: match type of H with
       | (if ?c then _ else _) = _ => destruct c; [|discriminate]
       end; inversion H; subst; cbn; lia.
Qed.

Lemma cat_dim1_size_add a b c :
  cat_dim1 a b = Ok c -> (2 <= ndim b)%nat ->
  size c 1 = (size a 1 + size b 1)%nat.
Proof.
  unfold cat_dim1, size, ndim.
  destruct (shape a) as [|a0 [|a1 ra]] eqn:Ea;
    destruct (shape b) as [|b0 [|b1 rb]] eqn:Eb; cbn [length]; try discriminate;
    try destruct a0; try destruct b0; try discriminate;
    intros H Hn; try lia;
    try (inversion H; subst; cbn; rewrite ?Ea, ?Eb; cbn; lia).
  all: match type of H with
       | (if ?c then _ else _) = _ => destruct c; [|discriminate]
       end; inversion H; subst; cbn; lia.
Qed.

Section AttentionFacts.
Import LLM.
Variable mf : handle -> tensor -> result tensor.

Lemma init_caches_empty {St} (fw : handler St) attention st self st' :
  run fw (CachedQuantizedAttention__init__ attention) st = (Ok self, st') ->
  cached_key self = None /\ cached_value self = None.
Proof.
  unfold CachedQuantizedAttention__init__. cbn [run].
  destruct (run fw (QuantizedAttention__init__ attention) st) as [[b|e] s1];
    intros H; inversion H; subst; auto.
Qed.

Lemma lifetime_caches n self :
  lifetime mf n self ->
  match n with
  | O => cached_key self = None /\ cached_value self = None
  | S _ => exists ck cv, cached_key self = Some ck /\ cached_value self = Some cv
  end.
Proof.
  induction 1 as [b | n self h r self' Hl IH Hx]; [cbn; auto|].
  unfold forward, call_module in Hx.
  destruct n as [|n].
  - destruct IH as [Hk Hv].
    run_cases Hx; try rewrite Hk in Hx; run_cases Hx;
      inversion Hx; subst; cbn; auto; eauto.
  - destruct IH as (ck & cv & Hk & Hv).
    run_cases Hx; try rewrite Hk in Hx; run_cases Hx;
      try (inversion Hx; subst; cbn; eauto; fail).
Qed.

(** C1. The first call of [forward] that returns projects the whole of
    [hidden_states] to key and value, stores both as the cache and
    returns them with the query of the whole input.  Every later call
    projects only [hidden_states[:, -1:, :]], appends the two projections
    to the cached key and value with [torch.cat(..., dim=1)], and returns
    the query of the whole input with the grown caches. *)
Theorem C1_forward_fills_then_appends n self h :
  lifetime mf n self ->
  (n = 0%nat ->
   forall q k v,
     mf (query (base self)) h = Ok q ->
     mf (key (base self)) h = Ok k ->
     mf (value (base self)) h = Ok v ->
     run (attn_fw mf) (forward h) self =
       (Ok (q, Some k, Some v),
        {| base := base self; cached_key := Some k; cached_value := Some v |})) /\
  ((0 < n)%nat ->
   exists ck cv,
     cached_key self = Some ck /\ cached_value self = Some cv /\
     forall q last k v ck' cv',
       mf (query (base self)) h = Ok q ->
       slice_last_dim1 h = Ok last ->
       mf (key (base self)) last = Ok k ->
       mf (value (base self)) last = Ok v ->
       cat_dim1 ck k = Ok ck' ->
       cat_dim1 cv v = Ok cv' ->
       run (attn_fw mf) (forward h) self =
         (Ok (q, Some ck', Some cv'),
          {| base := base self; cached_key := Some ck'; cached_value := Some cv' |})).
Proof.
  intros Hl. pose proof (lifetime_caches _ _ Hl) as Hc. split.
  - intros -> q k v Hq Hk Hv. destruct Hc as [Hck Hcv].
    unfold forward, call_module. autorewrite with run. cbn.
    rewrite Hq. autorewrite with run. rewrite Hck.
    autorewrite with run. cbn. rewrite Hk.
    autorewrite with run. cbn. rewrite Hv.
    autorewrite with run. cbn. reflexivity.
  - intros Hn. destruct n as [|n]; [lia|].
    destruct Hc as (ck & cv & Hck & Hcv). exists ck, cv. repeat split; auto.
    intros q last k v ck' cv' Hq Hs Hk Hv Hck' Hcv'.
    unfold forward, call_module. autorewrite with run. cbn.
    rewrite Hq. autorewrite with run. rewrite Hck.
    autorewrite with run. rewrite Hs.
    autorewrite with run. cbn. rewrite Hk.
    autorewrite with run. cbn. rewrite Hv.
    autorewrite with run. cbn. rewrite Hck. cbn. rewrite Hck'.
    autorewrite with run. cbn. rewrite Hcv. cbn. rewrite Hcv'.
    autorewrite with run. cbn. reflexivity.
Qed.





Lemma forward_later_effect n self h r self' :
  lifetime mf (S n) self ->
  run (attn_fw mf) (forward h) self = (r, self') ->
  exists ck cv ck' cv',
    cached_key self = Some ck /\ cached_value self = Some cv /\
    cached_key self' = Some ck' /\ cached_value self' = Some cv' /\
    (size ck 1 <= size ck' 1)%nat /\ (size cv 1 <= size cv' 1)%nat /\
    (is_ok r = true ->
     exists last k v,
       slice_last_dim1 h = Ok last /\
       mf (key (base self)) last = Ok k /\
       mf (value (base self)) last = Ok v /\
       cat_dim1 ck k = Ok ck' /\ cat_dim1 cv v = Ok cv').
Proof.
  intros Hl Hx. destruct (lifetime_caches _ _ Hl) as (ck & cv & Hk & Hv).
  exists ck, cv. unfold forward, call_module in Hx.
  run_cases Hx; try rewrite Hk in Hx; run_cases Hx;
    try rewrite Hk in *; try rewrite Hv in *; run_cases Hx.
  all: inversion Hx; subst; clear Hx; cbn.
  all: try (exists ck, cv; repeat split; auto; discriminate).
  - exists a3, a4. cbn in E3, E4.
    repeat split; eauto using cat_dim1_size_ge.
    intros _. exists a0, a1, a2. auto.
  - exists a3, cv. cbn in E3. repeat split; eauto using cat_dim1_size_ge.
    discriminate.
Qed.


Lemma forward_later_grows n self h r self' :
  linear_like mf ->
  lifetime mf (S n) self ->
  run (attn_fw mf) (forward h) self = (r, self') ->
  is_ok r = true ->
  exists l lv,
    seq_len (cached_key self) = Some l /\
    seq_len (cached_value self) = Some lv /\
    seq_len (cached_key self') = Some (l + Nat.min 1 (size h 1))%nat /\
    seq_len (cached_value self') = Some (lv + Nat.min 1 (size h 1))%nat.
Proof.
  intros Hlin Hl Hx Hr.
  destruct (forward_later_effect _ _ _ _ _ Hl Hx)
    as (ck & cv & ck' & cv' & Hk & Hv & Hk' & Hv' & _ & _ & Hok).
  destruct (Hok Hr) as (last & k & v & Hs & Ek & Ev & Ck & Cv).
  destruct (slice_last_dim1_shape _ _ Hs) as (H3 & Hnd & Hsz).
  destruct (Hlin _ _ _ Ek) as [Hkn Hkd]. destruct (Hlin _ _ _ Ev) as [Hvn Hvd].
  exists (size ck 1), (size cv 1).
  rewrite Hk, Hv, Hk', Hv'. cbn.
  rewrite (cat_dim1_size_add _ _ _ Ck) by lia.
  rewrite (cat_dim1_size_add _ _ _ Cv) by lia.
  rewrite Hkd, Hvd by lia. rewrite Hsz. auto.
Qed.

Lemma calls_grow hs : forall n self,
  linear_like mf ->
  lifetime mf (S n) self ->
  all_return mf hs self ->
  exists l lv,
    seq_len (cached_key self) = Some l /\
    seq_len (cached_value self) = Some lv /\
    seq_len (cached_key (calls mf hs self)) = Some (l + length hs)%nat /\
    seq_len (cached_value (calls mf hs self)) = Some (lv + length hs)%nat.
Proof.
  induction hs as [|h hs IH]; intros n self Hlin Hl Hall.
  - destruct (lifetime_caches _ _ Hl) as (ck & cv & Hk & Hv).
    exists (size ck 1), (size cv 1). cbn. rewrite Hk, Hv. cbn.
    rewrite !Nat.add_0_r. auto.
  - cbn [all_return] in Hall. destruct Hall as (Hok & Hpos & Hrest).
    destruct (run (attn_fw mf) (forward h) self) as [r self'] eqn:Hx.
    cbn [fst snd] in Hok, Hrest.
    destruct (forward_later_grows _ _ _ _ _ Hlin Hl Hx Hok)
      as (l & lv & Hk & Hv & Hk' & Hv').
    replace (Nat.min 1 (size h 1)) with 1%nat in Hk', Hv' by lia.
    pose proof (life_call _ _ _ _ _ _ Hl Hx) as Hl'. rewrite Hok in Hl'.
    destruct (IH _ _ Hlin Hl' Hrest) as (l1 & lv1 & Hk1 & Hv1 & Hk2 & Hv2).
    exists l, lv. cbn [calls]. rewrite Hx. cbn [snd].
    rewrite Hk2, Hv2. rewrite Hk' in Hk1. rewrite Hv' in Hv1.
    injection Hk1 as <-. injection Hv1 as <-.
    cbn [length]. repeat split; auto; f_equal; lia.
Qed.

(** C8, as the code has it.  Once a call of [forward] has returned, the
    cached key and value are tensors, not [None], in every later state,
    whether the later calls return or raise; no call clears the cache or
    shortens it.  A later call that returns on an input with at least
    one sequence position lengthens both caches by exactly one (the
    projections keeping every extent but the last, as [nn.Linear] does),
    so the cache grows without bound over such calls; on an input whose
    sequence dimension is empty the cached length stays as it is. *)
Theorem C8_cache_never_shrinks n self :
  lifetime mf (S n) self ->
  (exists ck cv, cached_key self = Some ck /\ cached_value self = Some cv) /\
  (forall h r self',
     run (attn_fw mf) (forward h) self = (r, self') ->
     exists l lv l' lv',
       seq_len (cached_key self) = Some l /\
       seq_len (cached_value self) = Some lv /\
       seq_len (cached_key self') = Some l' /\
       seq_len (cached_value self') = Some lv' /\
       (l <= l')%nat /\ (lv <= lv')%nat /\
       (linear_like mf -> is_ok r = true ->
        l' = (l + Nat.min 1 (size h 1))%nat /\
        lv' = (lv + Nat.min 1 (size h 1))%nat)) /\
  (linear_like mf ->
   forall hs, all_return mf hs self ->
   exists l lv,
     seq_len (cached_key self) = Some l /\
     seq_len (cached_value self) = Some lv /\
     seq_len (cached_key (calls mf hs self)) = Some (l + length hs)%nat /\
     seq_len (cached_value (calls mf hs self)) = Some (lv + length hs)%nat).
Proof.
  intros Hl. split; [exact (lifetime_caches _ _ Hl)|]. split.
  - intros h r self' Hx.
    destruct (forward_later_effect _ _ _ _ _ Hl Hx)
      as (ck & cv & ck' & cv' & Hk & Hv & Hk' & Hv' & Hle & Hlev & _).
    exists (size ck 1), (size cv 1), (size ck' 1), (size cv' 1).
    rewrite Hk, Hv, Hk', Hv'. cbn [seq_len option_map].
    do 6 (split; [auto|]).
    intros Hlin Hok.
    destruct (forward_later_grows _ _ _ _ _ Hlin Hl Hx Hok)
      as (l & lv & Ek & Ev & Ek' & Ev').
    rewrite Hk in Ek; rewrite Hv in Ev; rewrite Hk' in Ek'; rewrite Hv' in Ev'.
    cbn [seq_len option_map] in *. split; congruence.
  - intros Hlin hs Hall. eapply calls_grow; eauto.
Qed.

End AttentionFacts.

Lemma id_layer_linear_like : linear_like id_layer.
Proof. intros m x y H. inversion H; subst. auto. Qed.

Lemma served_once_lifetime : lifetime id_layer 1 served_once.
Proof.
  exact (life_call id_layer 0 _ h_one (Ok (h_one, Some h_one, Some h_one))
           served_once (life_new _ attn0) eq_refl).
Qed.

Lemma C1_witness :
  run (attn_fw id_layer) (LLM.forward h_one)
      {| LLM.base := attn0; LLM.cached_key := None; LLM.cached_value := None |}
    = (Ok (h_one, Some h_one, Some h_one), served_once) /\
  run (attn_fw id_layer) (LLM.forward h_two) served_once
    = (Ok (h_two, Some h_two, Some h_two),
       {| LLM.base := attn0; LLM.cached_key := Some h_two;
          LLM.cached_value := Some h_two |}).
Proof.
  split.
  - exact (proj1 (C1_forward_fills_then_appends id_layer 0 _ h_one
                    (life_new _ attn0))
                 eq_refl _ _ _ eq_refl eq_refl eq_refl).
  - destruct (proj2 (C1_forward_fills_then_appends id_layer 1 _ h_two
                       served_once_lifetime) (le_n 1))
      as (ck & cv & Hk & Hv & H).
    injection Hk as <-. injection Hv as <-.
    exact (H h_two (Tensor [1;1;1] [7%Q]) (Tensor [1;1;1] [7%Q])
             (Tensor [1;1;1] [7%Q]) h_two h_two
             eq_refl eq_refl eq_refl eq_refl eq_refl eq_refl).
Defined.

(** C8 as stated fails on an input whose sequence dimension is empty:
    the call returns and the cached key and value keep their length. *)
Lemma C8_counterexample_empty_sequence :
  linear_like id_layer /\
  lifetime id_layer 1 served_once /\
  run (attn_fw id_layer) (LLM.forward h_empty) served_once
    = (Ok (h_empty, Some h_one, Some h_one), served_once) /\
  ~ (forall mf n self h r self',
       linear_like mf -> lifetime mf (S n) self ->
       run (attn_fw mf) (LLM.forward h) self = (r, self') ->
       exists l, seq_len (LLM.cached_key self) = Some l /\
                 seq_len (LLM.cached_key self') = Some (S l)).
Proof.
  split; [exact id_layer_linear_like|].
  split; [exact served_once_lifetime|].
  split; [reflexivity|].
  intros H.
  destruct (H id_layer 0%nat served_once h_empty _ served_once
              id_layer_linear_like served_once_lifetime eq_refl)
    as (l & H1 & H2).
  cbn in H1, H2. congruence.
Qed.

Lemma C8_witness :
  seq_len (LLM.cached_key (calls id_layer [h_two] served_once)) = Some 2%nat /\
  seq_len (LLM.cached_value (calls id_layer [h_two] served_once)) = Some 2%nat.
Proof.
  destruct (proj2 (proj2 (C8_cache_never_shrinks id_layer 0 served_once
                            served_once_lifetime))
              id_layer_linear_like [h_two]) as (l & lv & Hk & Hv & Hk' & Hv').
  - cbn. repeat split; lia.
  - cbn in Hk, Hv. injection Hk as <-. injection Hv as <-.
    split; [exact Hk' | exact Hv'].
Defined.

(** ** Averages over an empty loader *)

Section EmptyLoader.
Context {St : Type} (fw : handler St).

Lemma range_pos n : (1 <= n)%Z -> exists rest, range n = 0%Z :: rest.
Proof.
  intros H. unfold range. destruct (Z.to_nat n) as [|k] eqn:E; [lia|].
  cbn. eauto.
Qed.

Lemma range_nonpos n : (n <= 0)%Z -> range n = [].
Proof.
  intros H. unfold range. replace (Z.to_nat n) with 0%nat by lia. reflexivity.
Qed.

Lemma truediv_len_safe {A} (loader : list A) (total_loss : pynum) :
  loader <> [] ->
  py_truediv total_loss (len loader)
  = Ok (PFloat (to_Q total_loss / inject_Z (Z.of_nat (length loader)))).
Proof.
  intros H. unfold py_truediv, len. cbn.
  destruct loader; [congruence|]. cbn [length].
  replace (Z.of_nat (S (length loader)) =? 0)%Z with false; [reflexivity|].
  symmetry. apply Z.eqb_neq. lia.
Qed.

(** With at least one batch, the division by [len(loader)] returns the
    quotient, in each of the three functions. *)
Lemma truediv_len {A} (loader : list A) (total_loss : pynum) :
  loader <> [] ->
  py_truediv total_loss (len loader) = Ok (quotient_by_len total_loss loader).
Proof.
  intros H. unfold py_truediv, len, quotient_by_len. cbn.
  destruct loader; [congruence|]. cbn [length].
  replace (Z.of_nat (S (length loader)) =? 0)%Z with false; [reflexivity|].
  symmetry. apply Z.eqb_neq. lia.
Qed.

Lemma run_for_each_ext {A} (xs : list A) (f g : A -> prog St unit) :
  (forall x st, run fw (f x) st = run fw (g x) st) ->
  forall st, run fw (for_each xs f) st = run fw (for_each xs g) st.
Proof.
  intros H. induction xs as [|x xs IH]; intros st; [reflexivity|].
  rewrite !run_for_each_cons, H.
  destruct (run fw (g x) st) as [[[]|e] st1]; [apply IH|reflexivity].
Qed.

Lemma fine_tune_divides_safely model (loader : list batch) optimizer epochs st :
  loader <> [] ->
  run fw (LLM.fine_tune model loader optimizer epochs) st
  = run fw (scaler <- GradScaler ;;
            model_train model ;;
            for_each (range epochs) (fun epoch =>
              total_loss <- for_fold loader (PInt 0)
                              (LLM.fine_tune_body model optimizer scaler) ;;
              print "Epoch {epoch+1}/{epochs}, Average Loss: {avg_loss:.4f}"
                    [PInt (epoch + 1); PInt epochs;
                     quotient_by_len total_loss loader])) st.
Proof.
  intros Hne. unfold LLM.fine_tune. cbn [run].
  destruct (run fw GradScaler st) as [[scaler|e] s1]; [|reflexivity].
  destruct (run fw (model_train model) s1) as [[[]|e] s2]; [|reflexivity].
  apply run_for_each_ext. intros epoch s. unfold LLM.fine_tune_epoch, truediv.
  cbn [run].
  destruct (run fw (for_fold loader (PInt 0)
                      (LLM.fine_tune_body model optimizer scaler)) s)
    as [[total_loss|e] s3]; [|reflexivity].
  rewrite (truediv_len loader total_loss Hne). reflexivity.
Qed.

Lemma train_epoch_divides_safely model (loader : list (tensor * tensor))
  optimizer scaler criterion st :
  loader <> [] ->
  run fw (ViT.train_epoch model loader optimizer scaler criterion) st
  = match run fw (model_train model ;;
                  for_fold loader (PInt 0, PInt 0, PInt 0)
                    (ViT.train_epoch_body model optimizer scaler criterion)) st with
    | (Ok (total_loss, correct, total), st1) =>
        (rbind (py_truediv (py_mul (PFloat 100) correct) total)
               (fun acc => Ok (quotient_by_len total_loss loader, acc)), st1)
    | (Raise e, st1) => (Raise e, st1)
    end.
Proof.
  intros Hne. unfold ViT.train_epoch, truediv. cbn [run].
  destruct (run fw (model_train model) st) as [[[]|e] s1]; [|reflexivity].
  destruct (run fw (for_fold loader (PInt 0, PInt 0, PInt 0)
                      (ViT.train_epoch_body model optimizer scaler criterion)) s1)
    as [[[[total_loss correct] total]|e] s2]; [|reflexivity].
  rewrite (truediv_len loader total_loss Hne). cbn [lift run].
  destruct (py_truediv (py_mul (PFloat 100) correct) total); reflexivity.
Qed.

Lemma validate_divides_safely model (loader : list (tensor * tensor)) criterion st :
  loader <> [] ->
  run fw (ViT.validate model loader criterion) st
  = match run fw (model_eval model ;;
                  With NoGrad (for_fold loader (PInt 0, PInt 0, PInt 0)
                                 (ViT.validate_body model criterion))) st with
    | (Ok (total_loss, correct, total), st1) =>
        (rbind (py_truediv (py_mul (PFloat 100) correct) total)
               (fun acc => Ok (quotient_by_len total_loss loader, acc)), st1)
    | (Raise e, st1) => (Raise e, st1)
    end.
Proof.
  intros Hne. unfold ViT.validate, truediv. cbn [run].
  destruct (run fw (model_eval model) st) as [[[]|e] s1]; [|reflexivity].
  destruct (run fw (for_fold loader (PInt 0, PInt 0, PInt 0)
                      (ViT.validate_body model criterion)) (fw_enter fw NoGrad s1))
    as [[[[total_loss correct] total]|e] s2]; [|reflexivity].
  rewrite (truediv_len loader total_loss Hne). cbn [lift run].
  destruct (py_truediv (py_mul (PFloat 100) correct) total); reflexivity.
Qed.

(** C9, as the code has it.  With a loader that yields no batch,
    [train_epoch] and [validate] divide by [len(loader) = 0] and raise
    [ZeroDivisionError], and so does [fine_tune] when [epochs] is at
    least 1 (the framework calls that come first succeeding); with
    [epochs] at most 0, [fine_tune] computes no average and returns.
    With at least one batch the division by [len(loader)] is safe in
    the three functions: [fine_tune] does what it would do with the
    quotient written in place of the division, and [train_epoch] and
    [validate], once their loop has returned, end as the division for
    the accuracy ends, the average being the quotient. *)
Theorem C9_zero_batches_divide_by_zero :
  (forall model optimizer epochs st s st1 st2,
     fw_call fw GradScalerNew st = (Ok s, st1) ->
     fw_call fw (ModelTrain model) st1 = (Ok tt, st2) ->
     ((1 <= epochs)%Z ->
      run fw (LLM.fine_tune model [] optimizer epochs) st
      = (Raise (Exn "ZeroDivisionError" "division by zero"), st2)) /\
     ((epochs <= 0)%Z ->
      run fw (LLM.fine_tune model [] optimizer epochs) st = (Ok tt, st2))) /\
  (forall model optimizer scaler criterion st st1,
     fw_call fw (ModelTrain model) st = (Ok tt, st1) ->
     run fw (ViT.train_epoch model [] optimizer scaler criterion) st
     = (Raise (Exn "ZeroDivisionError" "division by zero"), st1)) /\
  (forall model criterion st st1,
     fw_call fw (ModelEval model) st = (Ok tt, st1) ->
     run fw (ViT.validate model [] criterion) st
     = (Raise (Exn "ZeroDivisionError" "division by zero"),
        fw_exit fw NoGrad (fw_enter fw NoGrad st1))) /\
  (forall model (loader : list batch) optimizer epochs st,
     loader <> [] ->
     run fw (LLM.fine_tune model loader optimizer epochs) st
     = run fw (scaler <- GradScaler ;;
               model_train model ;;
               for_each (range epochs) (fun epoch =>
                 total_loss <- for_fold loader (PInt 0)
                                 (LLM.fine_tune_body model optimizer scaler) ;;
                 print "Epoch {epoch+1}/{epochs}, Average Loss: {avg_loss:.4f}"
                       [PInt (epoch + 1); PInt epochs;
                        quotient_by_len total_loss loader])) st) /\
  (forall model (loader : list (tensor * tensor)) optimizer scaler criterion st,
     loader <> [] ->
     run fw (ViT.train_epoch model loader optimizer scaler criterion) st
     = match run fw (model_train model ;;
                     for_fold loader (PInt 0, PInt 0, PInt 0)
                       (ViT.train_epoch_body model optimizer scaler criterion)) st with
       | (Ok (total_loss, correct, total), st1) =>
           (rbind (py_truediv (py_mul (PFloat 100) correct) total)
                  (fun acc => Ok (quotient_by_len total_loss loader, acc)), st1)
       | (Raise e, st1) => (Raise e, st1)
       end) /\
  (forall model (loader : list (tensor * tensor)) criterion st,
     loader <> [] ->
     run fw (ViT.validate model loader criterion) st
     = match run fw (model_eval model ;;
                     With NoGrad (for_fold loader (PInt 0, PInt 0, PInt 0)
                                    (ViT.validate_body model criterion))) st with
       | (Ok (total_loss, correct, total), st1) =>
           (rbind (py_truediv (py_mul (PFloat 100) correct) total)
                  (fun acc => Ok (quotient_by_len total_loss loader, acc)), st1)
       | (Raise e, st1) => (Raise e, st1)
       end).
Proof.
  repeat apply conj.
  - intros model optimizer epochs st s st1 st2 Hs Ht. split; intros He.
    + destruct (range_pos _ He) as [rest Hr].
      unfold LLM.fine_tune, LLM.fine_tune_epoch, GradScaler, model_train, truediv.
      run_simp. rewrite Hs. run_simp. rewrite Ht.
      rewrite Hr. cbn [for_each for_fold]. run_simp. reflexivity.
    + unfold LLM.fine_tune, GradScaler, model_train.
      run_simp. rewrite Hs. run_simp. rewrite Ht.
      rewrite (range_nonpos _ He). reflexivity.
  - intros model optimizer scaler criterion st st1 Ht.
    unfold ViT.train_epoch, model_train, truediv.
    run_simp. rewrite Ht. cbn [for_fold].
    run_simp. reflexivity.
  - intros model criterion st st1 Ht.
    unfold ViT.validate, model_eval, truediv.
    run_simp. rewrite Ht. cbn [for_fold].
    run_simp. reflexivity.
  - intros. apply fine_tune_divides_safely. assumption.
  - intros. apply train_epoch_divides_safely. assumption.
  - intros. apply validate_divides_safely. assumption.
Qed.

End EmptyLoader.

Lemma C9_witness :
  run echo_fw (LLM.fine_tune (Obj 1) [] (Obj 2) 3) tt
    = (Raise (Exn "ZeroDivisionError" "division by zero"), tt) /\
  run echo_fw (ViT.train_epoch (Obj 1) [] (Obj 2) (Obj 3) (Obj 4)) tt
    = (Raise (Exn "ZeroDivisionError" "division by zero"), tt) /\
  run echo_fw (ViT.validate (Obj 1) [] (Obj 4)) tt
    = (Raise (Exn "ZeroDivisionError" "division by zero"), tt) /\
  run echo_fw (LLM.fine_tune (Obj 1) one_lm_batch (Obj 2) 1) tt
    = run echo_fw
        (scaler <- GradScaler ;;
         model_train (Obj 1) ;;
         for_each (range 1) (fun epoch =>
           total_loss <- for_fold one_lm_batch (PInt 0)
                           (LLM.fine_tune_body (Obj 1) (Obj 2) scaler) ;;
           print "Epoch {epoch+1}/{epochs}, Average Loss: {avg_loss:.4f}"
                 [PInt (epoch + 1); PInt 1;
                  quotient_by_len total_loss one_lm_batch])) tt /\
  run echo_fw (ViT.train_epoch (Obj 1) two_examples (Obj 2) (Obj 3) (Obj 4)) tt
    = match run echo_fw
              (model_train (Obj 1) ;;
               for_fold two_examples (PInt 0, PInt 0, PInt 0)
                 (ViT.train_epoch_body (Obj 1) (Obj 2) (Obj 3) (Obj 4))) tt with
      | (Ok (total_loss, correct, total), st1) =>
          (rbind (py_truediv (py_mul (PFloat 100) correct) total)
                 (fun acc => Ok (quotient_by_len total_loss two_examples, acc)), st1)
      | (Raise e, st1) => (Raise e, st1)
      end /\
  run echo_fw (ViT.validate (Obj 1) two_examples (Obj 4)) tt
    = match run echo_fw
              (model_eval (Obj 1) ;;
               With NoGrad (for_fold two_examples (PInt 0, PInt 0, PInt 0)
                              (ViT.validate_body (Obj 1) (Obj 4)))) tt with
      | (Ok (total_loss, correct, total), st1) =>
          (rbind (py_truediv (py_mul (PFloat 100) correct) total)
                 (fun acc => Ok (quotient_by_len total_loss two_examples, acc)), st1)
      | (Raise e, st1) => (Raise e, st1)
      end.
Proof.
  destruct (C9_zero_batches_divide_by_zero echo_fw) as (Hf & Ht & Hv & Hdf & Hdt & Hdv).
  split; [|split; [|split; [|split; [|split]]]].
  - apply (proj1 (Hf (Obj 1) (Obj 2) 3%Z tt (Obj 0) tt tt eq_refl eq_refl)). lia.
  - exact (Ht (Obj 1) (Obj 2) (Obj 3) (Obj 4) tt tt eq_refl).
  - exact (Hv (Obj 1) (Obj 4) tt tt eq_refl).
  - apply Hdf. discriminate.
  - apply Hdt. discriminate.
  - apply Hdv. discriminate.
Defined.

(** C9 as stated fails for [fine_tune] called with [epochs=0]: the
    loader yields no batch, no average is computed and the call returns. *)
Lemma C9_counterexample_no_epoch :
  run echo_fw (LLM.fine_tune (Obj 1) [] (Obj 2) 0) tt = (Ok tt, tt).
Proof. reflexivity. Qed.

(** ** The metrics of a batch *)

Lemma map_nth_seq {A} (l : list A) d :
  map (fun i => nth i l d) (seq 0 (length l)) = l.
Proof.
  induction l as [|a l IH]; [reflexivity|].
  cbn [length seq map nth]. f_equal.
  rewrite <- seq_shift, map_map. exact IH.
Qed.

Lemma chunks_length {A} n c : forall (l : list A),
  (n * c <= length l)%nat -> Forall (fun b => length b = n) (chunks n c l).
Proof.
  induction c as [|c IH]; intros l H; cbn; constructor.
  - rewrite length_firstn. lia.
  - apply IH. rewrite length_skipn. lia.
Qed.

Lemma chunks_count {A} n c (l : list A) : length (chunks n c l) = c.
Proof. revert l. induction c; intros; cbn; auto. Qed.

Lemma columns_one c block :
  length block = c -> columns 1 c block = [block].
Proof.
  intros <-. unfold columns. cbn [seq map]. f_equal.
  etransitivity; [|apply (map_nth_seq block 0%Q)].
  apply map_ext. intros i. f_equal. lia.
Qed.

Lemma flat_map_columns_one c (bs : list (list Q)) :
  Forall (fun b => length b = c) bs -> flat_map (columns 1 c) bs = bs.
Proof.
  induction 1 as [|b bs Hb _ IH]; [reflexivity|].
  cbn [flat_map]. rewrite (columns_one _ _ Hb), IH. reflexivity.
Qed.

Lemma max_dim1_rows outputs n c :
  shape outputs = [n; c] -> (1 <= c)%nat ->
  length (data outputs) = (n * c)%nat ->
  exists values,
    max_dim1 outputs
    = Ok (values,
          Tensor [n] (map (fun r => inject_Z (Z.of_nat (argmax r))) (rows outputs))).
Proof.
  intros Hs Hc Hl. unfold max_dim1, rows. rewrite Hs.
  destruct (Nat.eqb_spec c 0); [lia|]. cbn [numel fold_right].
  rewrite Nat.mul_1_r.
  rewrite flat_map_columns_one by (apply chunks_length; lia).
  eexists. reflexivity.
Qed.

Lemma indices_1d n : indices [n] = map (fun i => [i]) (seq 0 n).
Proof.
  cbn [indices]. induction (seq 0 n) as [|i l IH]; cbn in *; [reflexivity|].
  now rewrite IH.
Qed.

Lemma expand_1d t n :
  shape t = [n] -> length (data t) = n -> expand t [n] = data t.
Proof.
  intros Hs Hl. unfold expand, ndim. rewrite Hs. cbn [length Nat.sub repeat app].
  rewrite indices_1d, map_map.
  etransitivity; [|apply (map_nth_seq (data t) 0%Q)]. rewrite Hl.
  apply map_ext_in. intros i Hi. apply in_seq in Hi. f_equal.
  cbn [offset numel fold_right]. destruct (Nat.eqb_spec n 1); lia.
Qed.

Lemma broadcast_same_1d n : broadcast_shapes [n] [n] = Some [n].
Proof. unfold broadcast_shapes. cbn. rewrite Nat.eqb_refl. reflexivity. Qed.

Lemma sum_hits_count (rs : list (list Q)) : forall (ys : list Q),
  length rs = length ys ->
  (fold_right Qplus 0
     (map2 (fun x y => if Qeq_bool x y then 1 else 0)
           (map (fun r => inject_Z (Z.of_nat (argmax r))) rs) ys)
   == inject_Z (count_hits rs ys))%Q.
Proof.
  induction rs as [|r rs IH]; intros [|y ys] Hl; try discriminate; cbn.
  - reflexivity.
  - injection Hl as Hl. rewrite (IH _ Hl). unfold hit.
    destruct (Qeq_bool _ y); rewrite inject_Z_plus; reflexivity.
Qed.

Lemma metrics_ok outputs loss targets n c q total_loss correct total :
  shape outputs = [n; c] -> (1 <= c)%nat ->
  length (data outputs) = (n * c)%nat ->
  shape targets = [n] -> length (data targets) = n ->
  data loss = [q] ->
  metrics outputs loss targets (total_loss, PInt correct, PInt total)
  = Ok (py_add total_loss (PFloat q),
        PInt (correct + hits outputs targets),
        PInt (total + Z.of_nat (size targets 0))).
Proof.
  intros Hs Hc Hl Ht Htl Hq. unfold metrics, item. rewrite Hq. cbn [rbind].
  destruct (max_dim1_rows _ _ _ Hs Hc Hl) as [values ->]. cbn [rbind snd].
  unfold size_dim, size. rewrite Ht. cbn [nth_error nth rbind].
  unfold tensor_eq, binop. cbn [shape]. rewrite Ht, broadcast_same_1d.
  cbn [rbind]. unfold item_int, tensor_sum. cbn [data rbind].
  rewrite (expand_1d targets n Ht Htl).
  rewrite expand_1d; cbn [shape data]; auto.
  2:{ rewrite length_map. unfold rows. rewrite Hs. apply chunks_count. }
  assert (Hlen : length (rows outputs) = length (data targets)).
  { unfold rows. rewrite Hs, chunks_count. auto. }
  rewrite (Qfloor_comp _ _ (sum_hits_count _ _ Hlen)).
  rewrite Qfloor_Z. cbn [py_add]. reflexivity.
Qed.

(** ** One epoch under a framework that does not raise *)

Section EpochFacts.
Context {St : Type}.
Variable ans : forall e : fwE, St -> resp e.
Variable eff : fwE -> St -> St.
Variables enter exit : ctx -> St -> St.
Variables model optimizer scaler criterion : handle.

Let fw := total_fw ans eff enter exit.

Lemma run_metrics outputs loss targets total_loss correct total st :
  run fw
    (l <- lift (item loss) ;;
     ' (_, predicted) <- lift (max_dim1 outputs) ;;
     n <- lift (size_dim targets 0) ;;
     hits <- lift (tensor_eq predicted targets) ;;
     c <- lift (item_int (tensor_sum hits)) ;;
     Ret (py_add total_loss l, py_add correct c, py_add total n)) st
  = (metrics outputs loss targets (total_loss, correct, total), st).
Proof.
  unfold metrics. run_simp.
  destruct (item loss); cbn [rbind]; [|reflexivity]. run_simp.
  destruct (max_dim1 outputs) as [[v p]|]; cbn [rbind snd]; [|reflexivity]. run_simp.
  destruct (size_dim targets 0); cbn [rbind]; [|reflexivity]. run_simp.
  destruct (tensor_eq p targets); cbn [rbind]; [|reflexivity]. run_simp.
  destruct (item_int (tensor_sum a1)); reflexivity.
Qed.

Lemma train_body_computes :
  (forall t st, ans (ToDevice t) st = t) ->
  computes_metrics fw ans model criterion
    (ViT.train_epoch_body model optimizer scaler criterion).
Proof.
  intros Hdev [[total_loss correct] total] inputs targets st.
  unfold ViT.train_epoch_body, to_device, zero_grad, call_module,
    call_criterion, scale, backward, scaler_step, scaler_update.
  cbn [run fw total_fw fw_call fw_enter fw_exit]. rewrite !Hdev.
  do 3 eexists. apply run_metrics.
Qed.

Lemma validate_body_computes :
  (forall t st, ans (ToDevice t) st = t) ->
  computes_metrics fw ans model criterion (ViT.validate_body model criterion).
Proof.
  intros Hdev [[total_loss correct] total] inputs targets st.
  unfold ViT.validate_body, to_device, call_module, call_criterion.
  cbn [run fw total_fw fw_call fw_enter fw_exit]. rewrite !Hdev.
  do 3 eexists. apply run_metrics.
Qed.

Lemma fold_epoch body loader :
  computes_metrics fw ans model criterion body ->
  well_shaped ans model loader ->
  forall total_loss correct total st,
  exists obs total_loss' st',
    observed ans model criterion loader obs /\
    run fw (for_fold loader (total_loss, PInt correct, PInt total) body) st
    = (Ok (total_loss', PInt (correct + epoch_hits loader obs),
           PInt (total + epoch_examples loader)), st') /\
    (to_Q total_loss' == to_Q total_loss + fold_right Qplus 0 (map snd obs))%Q /\
    (loader <> [] -> exists q, total_loss' = PFloat q).
Proof.
  intros Hbody. induction loader as [|[inputs targets] loader IH];
    intros Hws total_loss correct total st.
  - exists [], total_loss, st. cbn. rewrite !Z.add_0_r.
    repeat split; [constructor| ring | congruence].
  - destruct Hws as (Hdev & Hcrit & Hout).
    destruct (Hbody (total_loss, PInt correct, PInt total) inputs targets st)
      as (st_m & st_c & st1 & Hrun).
    destruct (Hout inputs targets st_m (or_introl eq_refl))
      as (n & c & Hc & Hs & Hl & Ht & Htl).
    destruct (Hcrit criterion (ans (CallModule model inputs) st_m) targets st_c)
      as [q Hq].
    rewrite (metrics_ok _ _ _ n c q _ _ _ Hs Hc Hl Ht Htl Hq) in Hrun.
    destruct (IH (conj Hdev (conj Hcrit (fun i t s H => Hout i t s (or_intror H))))
                 (py_add total_loss (PFloat q))
                 (correct + hits (ans (CallModule model inputs) st_m) targets)%Z
                 (total + Z.of_nat (size targets 0))%Z st1)
      as (obs & tl' & st' & Hobs & Hfold & Hsum & Hfloat).
    exists ((ans (CallModule model inputs) st_m, q) :: obs), tl', st'.
    split; [|split; [|split]].
    + apply (observed_cons ans model criterion inputs targets loader st_m st_c);
        auto. unfold item. rewrite Hq. reflexivity.
    + cbn [for_fold run]. rewrite Hrun, Hfold.
      unfold epoch_examples. cbn [epoch_hits fold_right snd].
      rewrite !Z.add_assoc. reflexivity.
    + rewrite Hsum. cbn [map fold_right snd].
      destruct total_loss; cbn [py_add to_Q]; ring.
    + intros _. destruct loader as [|b loader'].
      * cbn [for_fold run] in Hfold. injection Hfold as <- _.
        destruct total_loss; cbn; eauto.
      * apply Hfloat. discriminate.
Qed.

Lemma observed_length loader obs :
  observed ans model criterion loader obs -> length obs = length loader.
Proof. induction 1; cbn; auto. Qed.

Lemma epoch_result (loader : list (tensor * tensor)) total_loss' q
  (obs : list (tensor * Q)) correct total :
  loader <> [] -> (0 < total)%Z ->
  total_loss' = PFloat q ->
  length obs = length loader ->
  (q == 0 + fold_right Qplus 0 (map snd obs))%Q ->
  forall st : St,
  exists a b,
    run fw (avg <- truediv total_loss' (len loader) ;;
            acc <- truediv (py_mul (PFloat 100) (PInt correct)) (PInt total) ;;
            Ret (avg, acc)) st
    = (Ok (PFloat a, PFloat b), st) /\
    (a == arithmetic_mean (map snd obs))%Q /\
    (b == percentage correct total)%Q.
Proof.
  intros Hne Htot -> Hlen Hsum st. unfold truediv.
  rewrite (truediv_len_safe loader (PFloat q) Hne).
  unfold py_truediv. cbn [is_zero py_mul to_Q].
  destruct (Z.eqb_spec total 0); [lia|]. cbn [lift run].
  do 2 eexists. split; [reflexivity|]. split.
  - unfold arithmetic_mean. rewrite length_map, Hlen, Hsum.
    rewrite Qplus_0_l. reflexivity.
  - reflexivity.
Qed.

Lemma train_epoch_returns loader st :
  well_shaped ans model loader ->
  loader <> [] -> (0 < epoch_examples loader)%Z ->
  exists obs a b st',
    observed ans model criterion loader obs /\
    run fw (ViT.train_epoch model loader optimizer scaler criterion) st
    = (Ok (PFloat a, PFloat b), st') /\
    (a == arithmetic_mean (map snd obs))%Q /\
    (b == percentage (epoch_hits loader obs) (epoch_examples loader))%Q.
Proof.
  intros Hws Hne Htot.
  destruct (fold_epoch _ loader (train_body_computes (proj1 Hws)) Hws
              (PInt 0) 0%Z 0%Z (eff (ModelTrain model) st))
    as (obs & tl' & st' & Hobs & Hfold & Hsum & Hfloat).
  destruct (Hfloat Hne) as [q Hq].
  destruct (epoch_result loader tl' q obs
              (0 + epoch_hits loader obs) (0 + epoch_examples loader)
              Hne ltac:(lia) Hq (observed_length _ _ Hobs)
              ltac:(rewrite Hq in Hsum; exact Hsum) st')
    as (a & b & Hrun & Ha & Hb).
  exists obs, a, b, st'. split; [exact Hobs|]. split; [|split; auto].
  unfold ViT.train_epoch, model_train.
    cbn [run fw total_fw fw_call]. fold fw. rewrite Hfold. exact Hrun.
Qed.

Lemma validate_returns loader st :
  well_shaped ans model loader ->
  loader <> [] -> (0 < epoch_examples loader)%Z ->
  exists obs a b st',
    observed ans model criterion loader obs /\
    run fw (ViT.validate model loader criterion) st
    = (Ok (PFloat a, PFloat b), st') /\
    (a == arithmetic_mean (map snd obs))%Q /\
    (b == percentage (epoch_hits loader obs) (epoch_examples loader))%Q.
Proof.
  intros Hws Hne Htot.
  destruct (fold_epoch _ loader (validate_body_computes (proj1 Hws)) Hws
              (PInt 0) 0%Z 0%Z (enter NoGrad (eff (ModelEval model) st)))
    as (obs & tl' & st' & Hobs & Hfold & Hsum & Hfloat).
  destruct (Hfloat Hne) as [q Hq].
  destruct (epoch_result loader tl' q obs
              (0 + epoch_hits loader obs) (0 + epoch_examples loader)
              Hne ltac:(lia) Hq (observed_length _ _ Hobs)
              ltac:(rewrite Hq in Hsum; exact Hsum) (exit NoGrad st'))
    as (a & b & Hrun & Ha & Hb).
  exists obs, a, b, (exit NoGrad st'). split; [exact Hobs|]. split; [|split; auto].
  unfold ViT.validate, model_eval.
    cbn [run fw total_fw fw_call fw_enter fw_exit]. fold fw. rewrite Hfold.
    exact Hrun.
Qed.

End EpochFacts.

(** ** What reaches the console *)

Lemma printed_app a b : printed (a ++ b) = printed a ++ printed b.
Proof.
  induction a as [|[[]| | |] a IH]; cbn; rewrite ?IH; reflexivity.
Qed.

Lemma silent_printed {St} (fw : handler St) {R} (p : prog St R) :
  silent p -> forall st, printed (trace fw p st) = [].
Proof.
  induction p; cbn [silent trace]; intros Hs st; try reflexivity.
  - destruct Hs as [Hm Hk]. rewrite printed_app, IHp by assumption.
    destruct (run fw p st) as [[x|e] st1]; [apply H, Hk | reflexivity].
  - destruct e; try reflexivity. contradiction.
  - cbn [printed]. rewrite printed_app, IHp by assumption. reflexivity.
  - destruct Hs as [Hb Hh]. rewrite printed_app, IHp by assumption.
    destruct (run fw p st) as [[x|e] st1]; [reflexivity | apply H, Hh].
Qed.

Lemma for_fold_silent {St A B} (xs : list A) (body : B -> A -> prog St B) :
  (forall acc x, silent (body acc x)) -> forall acc, silent (for_fold xs acc body).
Proof.
  intros Hb. induction xs as [|x xs IH]; intros acc; cbn; auto.
Qed.

Lemma lift_silent {St A} (r : result A) : silent (@lift St A r).
Proof. destruct r; exact I. Qed.

Ltac prove_silent :=
  repeat first
    [ apply lift_silent
    | apply for_fold_silent; intros
    | match goal with
      | |- silent (match ?x with _ => _ end) => destruct x
      | |- silent (let (_, _) := ?x in _) => destruct x
      | |- _ /\ _ => split
      | |- forall _, _ => intros
      | |- True => exact I
      end
    | progress cbn [silent] ].

Lemma train_epoch_silent {St} model loader optimizer scaler criterion :
  silent (@ViT.train_epoch St model loader optimizer scaler criterion).
Proof.
  unfold ViT.train_epoch, model_train, truediv. cbn [silent].
  split; [exact I|]. intros _. split.
  - apply for_fold_silent. intros [[a b] c] [i t].
    unfold ViT.train_epoch_body, to_device, zero_grad, call_module,
      call_criterion, scale, backward, scaler_step, scaler_update.
    prove_silent.
  - prove_silent.
Qed.

Lemma validate_silent {St} model loader criterion :
  silent (@ViT.validate St model loader criterion).
Proof.
  unfold ViT.validate, model_eval, truediv. cbn [silent].
  split; [exact I|]. intros _. split.
  - apply for_fold_silent. intros [[a b] c] [i t].
    unfold ViT.validate_body, to_device, call_module, call_criterion.
    prove_silent.
  - prove_silent.
Qed.

Lemma fine_tuning_epoch_prints {St} (fw : handler St) ans eff enter exit
  model train_loader val_loader optimizer scaler criterion epochs epoch
  st train_loss train_acc st1 val_loss val_acc st2 :
  fw = total_fw ans eff enter exit ->
  run fw (ViT.train_epoch model train_loader optimizer scaler criterion) st
    = (Ok (train_loss, train_acc), st1) ->
  run fw (ViT.validate model val_loader criterion) st1
    = (Ok (val_loss, val_acc), st2) ->
  printed (trace fw (ViT.fine_tuning_epoch model train_loader val_loader
                       optimizer scaler criterion epochs epoch) st)
  = [("Epoch {epoch+1}/{epochs}:", [PInt (epoch + 1); PInt epochs]);
     ("Train Loss: {train_loss:.4f}, Train Acc: {train_acc:.2f}%",
      [train_loss; train_acc]);
     ("Val Loss: {val_loss:.4f}, Val Acc: {val_acc:.2f}%",
      [val_loss; val_acc])].
Proof.
  intros -> Ht Hv. unfold ViT.fine_tuning_epoch. cbn [trace run].
  rewrite printed_app, (silent_printed _ _ (train_epoch_silent _ _ _ _ _)), Ht.
  cbn [app trace run].
  rewrite printed_app, (silent_printed _ _ (validate_silent _ _ _)), Hv.
  reflexivity.
Qed.

(** ** The averages [fine_tune] prints *)

Section FineTuneFacts.
Context {St : Type}.
Variable ans : forall e : fwE, St -> resp e.
Variable eff : fwE -> St -> St.
Variables enter exit : ctx -> St -> St.
Variables model optimizer scaler : handle.

Let fw := total_fw ans eff enter exit.

Lemma fine_tune_body_run loader total_loss b st :
  well_formed_lm ans loader -> In b loader ->
  exists x st_m st_l q st',
    getitem b "input_ids" = Ok x /\
    data (ans (GetAttrTensor (ans (CallModelLabels model x x) st_m) "loss") st_l)
      = [q] /\
    run fw (LLM.fine_tune_body model optimizer scaler total_loss b) st
    = (Ok (py_add total_loss (PFloat q)), st').
Proof.
  intros (Hdev & Hclone & Hloss & Hids) Hin.
  destruct (Hids b Hin) as [x Hx].
  unfold LLM.fine_tune_body, zero_grad, to_device, clone, call_model_labels,
    getattr_tensor, scale, backward, scaler_step, scaler_update.
  cbn [run fw total_fw fw_call fw_enter fw_exit]. rewrite Hx.
  cbn [lift run fw_call]. rewrite Hdev, Hclone.
  match goal with
  | |- context [GetAttrTensor (ans (CallModelLabels model x x) ?sm) "loss"] =>
      match goal with
      | |- context [ans (GetAttrTensor (ans (CallModelLabels model x x) sm) "loss") ?sl] =>
          destruct (Hloss (ans (CallModelLabels model x x) sm) sl) as [q Hq];
          exists x, sm, sl, q
      end
  end.
  eexists. split; [reflexivity|]. split; [exact Hq|].
  unfold item. rewrite Hq. cbn [lift run]. reflexivity.
Qed.

Lemma fine_tune_fold loader :
  well_formed_lm ans loader ->
  forall total_loss st,
  exists losses total_loss' st',
    observed_lm ans model loader losses /\
    run fw (for_fold loader total_loss
              (LLM.fine_tune_body model optimizer scaler)) st
    = (Ok total_loss', st') /\
    (to_Q total_loss' == to_Q total_loss + fold_right Qplus 0 losses)%Q /\
    (loader <> [] -> exists q, total_loss' = PFloat q).
Proof.
  induction loader as [|b loader IH]; intros Hwf total_loss st.
  - exists [], total_loss, st. cbn. repeat split; [constructor | ring | congruence].
  - destruct (fine_tune_body_run _ total_loss b st Hwf (or_introl eq_refl))
      as (x & st_m & st_l & q & st1 & Hx & Hq & Hrun).
    assert (Hwf' : well_formed_lm ans loader).
    { destruct Hwf as (H1 & H2 & H3 & H4). repeat split; auto.
      intros b' Hb'. apply H4. right. exact Hb'. }
    destruct (IH Hwf' (py_add total_loss (PFloat q)) st1)
      as (losses & tl' & st' & Hobs & Hfold & Hsum & Hfloat).
    exists (q :: losses), tl', st'. split; [|split; [|split]].
    + apply (observed_lm_cons ans model b x loader st_m st_l); auto.
      unfold item. rewrite Hq. reflexivity.
    + cbn [for_fold run]. rewrite Hrun. exact Hfold.
    + rewrite Hsum. cbn [fold_right].
      destruct total_loss; cbn [py_add to_Q]; ring.
    + intros _. destruct loader as [|b' loader'].
      * cbn [for_fold run] in Hfold. injection Hfold as <- _.
        destruct total_loss; cbn; eauto.
      * apply Hfloat. discriminate.
Qed.

Lemma observed_lm_length loader losses :
  observed_lm ans model loader losses -> length losses = length loader.
Proof. induction 1; cbn; auto. Qed.

Lemma fine_tune_body_silent total_loss b :
  silent (@LLM.fine_tune_body St model optimizer scaler total_loss b).
Proof.
  unfold LLM.fine_tune_body, zero_grad, to_device, clone, call_model_labels,
    getattr_tensor, scale, backward, scaler_step, scaler_update.
  prove_silent.
Qed.

Lemma fine_tune_epoch_prints loader epochs epoch st :
  well_formed_lm ans loader -> loader <> [] ->
  exists losses a st',
    observed_lm ans model loader losses /\
    (a == arithmetic_mean losses)%Q /\
    run fw (LLM.fine_tune_epoch model loader optimizer scaler epochs epoch) st
    = (Ok tt, st') /\
    printed (trace fw (LLM.fine_tune_epoch model loader optimizer scaler
                         epochs epoch) st)
    = [epoch_line epochs epoch a].
Proof.
  intros Hwf Hne.
  destruct (fine_tune_fold loader Hwf (PInt 0) st)
    as (losses & tl' & st' & Hobs & Hfold & Hsum & Hfloat).
  destruct (Hfloat Hne) as [q ->].
  exists losses, (q / inject_Z (Z.of_nat (length loader)))%Q.
  eexists. split; [exact Hobs|]. split; [|split].
  - unfold arithmetic_mean. rewrite (observed_lm_length _ _ Hobs).
    cbn [to_Q] in Hsum. rewrite Hsum, Qplus_0_l. reflexivity.
  - unfold LLM.fine_tune_epoch, truediv, print. cbn [run]. rewrite Hfold.
    rewrite (truediv_len_safe loader (PFloat q) Hne).
    cbn [lift run fw total_fw fw_call to_Q].
    match goal with |- (Ok ?u, _) = _ => destruct u end. reflexivity.
  - unfold LLM.fine_tune_epoch, truediv, print. cbn [trace run].
    rewrite printed_app.
    rewrite (silent_printed fw _ (for_fold_silent _ _ fine_tune_body_silent _)).
    rewrite Hfold, (truediv_len_safe loader (PFloat q) Hne).
    cbn [lift trace run app printed]. reflexivity.
Qed.

Lemma fine_tune_epochs_print loader epochs es :
  well_formed_lm ans loader -> loader <> [] ->
  forall st,
  exists avgs,
    length avgs = length es /\
    Forall (fun a => exists losses,
              observed_lm ans model loader losses /\
              (a == arithmetic_mean losses)%Q) avgs /\
    printed (trace fw (for_each es
                         (LLM.fine_tune_epoch model loader optimizer scaler epochs))
                   st)
    = map2 (epoch_line epochs) es avgs.
Proof.
  intros Hwf Hne. induction es as [|e es IH]; intros st.
  - exists []. repeat split; auto.
  - destruct (fine_tune_epoch_prints loader epochs e st Hwf Hne)
      as (losses & a & st' & Hobs & Ha & Hrun & Hpr).
    destruct (IH st') as (avgs & Hlen & Hall & Hrest).
    exists (a :: avgs). split; [cbn; auto|]. split.
    + constructor; eauto.
    + cbn [for_each trace]. rewrite printed_app, Hpr, Hrun, Hrest. reflexivity.
Qed.

End FineTuneFacts.

Lemma fine_tune_prints {St} (ans : forall e : fwE, St -> resp e) eff enter exit
  model optimizer loader epochs st :
  well_formed_lm ans loader -> loader <> [] ->
  exists avgs,
    length avgs = length (range epochs) /\
    Forall (fun a => exists losses,
              observed_lm ans model loader losses /\
              (a == arithmetic_mean losses)%Q) avgs /\
    printed (trace (total_fw ans eff enter exit)
               (LLM.fine_tune model loader optimizer epochs) st)
    = map2 (epoch_line epochs) (range epochs) avgs.
Proof.
  intros Hwf Hne. unfold LLM.fine_tune, GradScaler, model_train.
  cbn [trace run total_fw fw_call app printed].
  apply fine_tune_epochs_print; assumption.
Qed.

(** C6, as the code has it.  For a loader that yields at least one batch
    and at least one example in all, in a framework that does not raise
    and whose model and criterion answer with well-shaped tensors,
    [train_epoch] and [validate] return the pair of the arithmetic mean
    of the per-batch loss values and of the percentage of the examples
    whose argmax prediction equals the target.  The fine-tuning loop
    prints exactly the values the two functions returned, and
    [fine_tune] prints, for each epoch, the sum of the batch losses
    divided by the number of batches. *)
Theorem C6_epoch_mean_and_accuracy {St} (ans : forall e : fwE, St -> resp e)
  (eff : fwE -> St -> St) (enter exit : ctx -> St -> St) :
  (forall model optimizer scaler criterion loader st,
     well_shaped ans model loader ->
     loader <> [] -> (0 < epoch_examples loader)%Z ->
     exists obs a b st',
       observed ans model criterion loader obs /\
       run (total_fw ans eff enter exit)
           (ViT.train_epoch model loader optimizer scaler criterion) st
       = (Ok (PFloat a, PFloat b), st') /\
       (a == arithmetic_mean (map snd obs))%Q /\
       (b == percentage (epoch_hits loader obs) (epoch_examples loader))%Q) /\
  (forall model criterion loader st,
     well_shaped ans model loader ->
     loader <> [] -> (0 < epoch_examples loader)%Z ->
     exists obs a b st',
       observed ans model criterion loader obs /\
       run (total_fw ans eff enter exit)
           (ViT.validate model loader criterion) st
       = (Ok (PFloat a, PFloat b), st') /\
       (a == arithmetic_mean (map snd obs))%Q /\
       (b == percentage (epoch_hits loader obs) (epoch_examples loader))%Q) /\
  (forall model train_loader val_loader optimizer scaler criterion epochs epoch
          st train_loss train_acc st1 val_loss val_acc st2,
     run (total_fw ans eff enter exit)
         (ViT.train_epoch model train_loader optimizer scaler criterion) st
       = (Ok (train_loss, train_acc), st1) ->
     run (total_fw ans eff enter exit)
         (ViT.validate model val_loader criterion) st1
       = (Ok (val_loss, val_acc), st2) ->
     printed (trace (total_fw ans eff enter exit)
                (ViT.fine_tuning_epoch model train_loader val_loader
                   optimizer scaler criterion epochs epoch) st)
     = [("Epoch {epoch+1}/{epochs}:", [PInt (epoch + 1); PInt epochs]);
        ("Train Loss: {train_loss:.4f}, Train Acc: {train_acc:.2f}%",
         [train_loss; train_acc]);
        ("Val Loss: {val_loss:.4f}, Val Acc: {val_acc:.2f}%",
         [val_loss; val_acc])]) /\
  (forall model optimizer loader epochs st,
     well_formed_lm ans loader -> loader <> [] ->
     exists avgs,
       length avgs = length (range epochs) /\
       Forall (fun a => exists losses,
                 observed_lm ans model loader losses /\
                 (a == arithmetic_mean losses)%Q) avgs /\
       printed (trace (total_fw ans eff enter exit)
                  (LLM.fine_tune model loader optimizer epochs) st)
       = map2 (epoch_line epochs) (range epochs) avgs).
Proof.
  split; [|split; [|split]].
  - intros. apply train_epoch_returns; assumption.
  - intros. apply validate_returns; assumption.
  - intros. eapply fine_tuning_epoch_prints; eauto.
  - intros. apply fine_tune_prints; assumption.
Qed.

Lemma two_examples_well_shaped :
  well_shaped (fun e (_ : unit) => echo_answer e) (Obj 1) two_examples.
Proof.
  split; [reflexivity|]. split; [intros; eexists; reflexivity|].
  intros inputs targets st [H|[]]. injection H as <- <-.
  exists 2%nat, 2%nat. cbn. repeat split; lia.
Qed.

Lemma C6_witness :
  exists obs a b st',
    observed (fun e (_ : unit) => echo_answer e) (Obj 1) (Obj 4) two_examples obs /\
    run echo_fw (ViT.train_epoch (Obj 1) two_examples (Obj 2) (Obj 3) (Obj 4)) tt
    = (Ok (PFloat a, PFloat b), st') /\
    (a == arithmetic_mean (map snd obs))%Q /\
    (b == percentage (epoch_hits two_examples obs) (epoch_examples two_examples))%Q.
Proof.
  apply (proj1 (C6_epoch_mean_and_accuracy (fun e (_ : unit) => echo_answer e)
                  (fun _ st => st) (fun _ st => st) (fun _ st => st))
               (Obj 1) (Obj 2) (Obj 3) (Obj 4) two_examples tt).
  - exact two_examples_well_shaped.
  - discriminate.
  - reflexivity.
Defined.

(** On these two examples the epoch reports a mean loss of 0 and an
    accuracy of 100. *)
Example train_epoch_two_examples :
  run echo_fw (ViT.train_epoch (Obj 1) two_examples (Obj 2) (Obj 3) (Obj 4)) tt
  = (Ok (PFloat ((0 + 0) / 1), PFloat (100 * inject_Z 2 / inject_Z 2)), tt).
Proof. reflexivity. Qed.

(** C6 as stated fails on a loader that yields one batch of no example:
    every framework call succeeds, [total] stays 0 and the accuracy
    divides by zero. *)
Lemma C6_counterexample_empty_batch :
  one_empty_batch <> [] /\
  well_shaped (fun e (_ : unit) => echo_answer e) (Obj 1) one_empty_batch /\
  run echo_fw (ViT.train_epoch (Obj 1) one_empty_batch (Obj 2) (Obj 3) (Obj 4)) tt
  = (Raise (Exn "ZeroDivisionError" "float division by zero"), tt) /\
  run echo_fw (ViT.validate (Obj 1) one_empty_batch (Obj 4)) tt
  = (Raise (Exn "ZeroDivisionError" "float division by zero"), tt).
Proof.
  split; [discriminate|]. split; [|split; reflexivity].
  split; [reflexivity|]. split; [intros; eexists; reflexivity|].
  intros inputs targets st [H|[]]. injection H as <- <-.
  exists 0%nat, 1%nat. cbn. repeat split; lia.
Qed.

(** ** Layer fusion *)

Section FuseFacts.
Import ViT.

Lemma nn_module_induction (P : nn_module -> Prop) :
  (forall c b s ch, all_children P ch -> P (NNModule c b s ch)) ->
  forall m, P m.
Proof.
  intros H. fix IH 1. intros [c b s ch]. apply H.
  induction ch as [|[n child] ch IHch]; cbn; auto.
Qed.

Lemma set_child_fresh name v pre m post :
  ~ In name (map fst pre) ->
  set_child name v (pre ++ (name, m) :: post) = pre ++ (name, v) :: post.
Proof.
  induction pre as [|[n c] pre IH]; cbn; intros Hn.
  - rewrite String.eqb_refl. reflexivity.
  - destruct (String.eqb_spec n name) as [->|_]; [tauto|].
    rewrite IH by tauto. reflexivity.
Qed.

Lemma replace_bn_children m :
  named_children (replace_bn m) = map fused_child (named_children m).
Proof. destruct m; reflexivity. Qed.

Lemma replace_bn_head m :
  class_name (replace_bn m) = class_name m /\
  is_BatchNorm2d (replace_bn m) = is_BatchNorm2d m /\
  state (replace_bn m) = state m /\
  map fst (named_children (replace_bn m)) = map fst (named_children m).
Proof.
  destruct m as [c b s ch]. cbn. repeat split.
  induction ch as [|[n child] ch IH]; cbn; congruence.
Qed.

Lemma replace_bn_leaf m : named_children m = [] -> replace_bn m = m.
Proof. destruct m as [c b s ch]. cbn. intros ->. reflexivity. Qed.

Lemma map_fst_fused ch : map fst (map fused_child ch) = map fst ch.
Proof. induction ch as [|[n child] ch IH]; cbn; congruence. Qed.

Lemma fuse_unfold c b s ch :
  fuse_bn_recursively (NNModule c b s ch)
  = fold_left fuse_step ch (NNModule c b s ch).
Proof. reflexivity. Qed.

Lemma fuse_step_child c b s pre n child post :
  ~ In n (map fst pre) ->
  fuse_bn_recursively child = replace_bn child ->
  fuse_step (NNModule c b s (pre ++ (n, child) :: post)) (n, child)
  = NNModule c b s (pre ++ fused_child (n, child) :: post).
Proof.
  intros Hfresh Hchild. unfold fuse_step.
  assert (Hm : match named_children child with
               | [] => child
               | _ :: _ => fuse_bn_recursively child
               end = replace_bn child).
  { destruct (named_children child) eqn:E; [|exact Hchild].
    symmetry. apply replace_bn_leaf, E. }
  rewrite Hm. destruct (replace_bn_head child) as (_ & Hbn & _).
  rewrite Hbn. cbn [setattr fused_child].
  rewrite (set_child_fresh _ _ _ _ _ Hfresh).
  destruct (is_BatchNorm2d child); [|reflexivity].
  rewrite (set_child_fresh _ _ _ _ _ Hfresh). reflexivity.
Qed.

(** The loop of [fuse_bn_recursively], from any point on: the children
    already visited are fused, the others are as on entry. *)
Lemma fuse_loop c b s todo : forall pre,
  NoDup (map fst (pre ++ todo)) ->
  all_children (fun child => fuse_bn_recursively child = replace_bn child) todo ->
  fold_left fuse_step todo (NNModule c b s (map fused_child pre ++ todo))
  = NNModule c b s (map fused_child (pre ++ todo)).
Proof.
  induction todo as [|[n child] todo IH]; intros pre Hnd Hall.
  - cbn. rewrite !app_nil_r. reflexivity.
  - cbn [fold_left]. destruct Hall as [Hchild Hall].
    rewrite fuse_step_child; [|
      rewrite map_fst_fused; rewrite map_app in Hnd; cbn in Hnd;
      apply NoDup_remove_2 in Hnd; intros Hin; apply Hnd;
      apply in_or_app; left; exact Hin | exact Hchild].
    replace (map fused_child pre ++ fused_child (n, child) :: todo)
      with (map fused_child (pre ++ [(n, child)]) ++ todo)
      by (rewrite map_app, <- app_assoc; reflexivity).
    rewrite IH; auto.
    + rewrite <- app_assoc. reflexivity.
    + rewrite <- app_assoc. exact Hnd.
Qed.

Lemma unique_names_children c b s ch :
  unique_names (NNModule c b s ch) ->
  NoDup (map fst ch) /\ all_children unique_names ch.
Proof. cbn. intros [H1 H2]. split; [exact H1|]. exact H2. Qed.

(** On a tree of dicts, the loop computes the replacement of the
    specification. *)
Lemma fuse_is_replace_bn m :
  unique_names m -> fuse_bn_recursively m = replace_bn m.
Proof.
  induction m as [c b s ch IH] using nn_module_induction. intros Hu.
  destruct (unique_names_children _ _ _ _ Hu) as [Hnd Hall].
  rewrite fuse_unfold. cbn [replace_bn].
  change (map (fun item : string * nn_module =>
                 let (n, child) := item in
                 (n, if is_BatchNorm2d child then Identity else replace_bn child)) ch)
    with (map fused_child ch).
  apply (fuse_loop c b s ch []); [exact Hnd|].
  clear Hnd Hu. induction ch as [|[n child] ch IHch]; cbn; auto.
  destruct IH as [Hc Hrest]. destruct Hall as [Huc Hurest]. split; auto.
Qed.

Lemma get_child_fused name ch :
  get_child name (map fused_child ch)
  = option_map (fun c => if is_BatchNorm2d c then Identity else replace_bn c)
               (get_child name ch).
Proof.
  induction ch as [|[n c] ch IH]; [reflexivity|]. cbn.
  destruct (String.eqb n name); [reflexivity | exact IH].
Qed.

Lemma replace_bn_path path : forall m c,
  path <> [] ->
  get_submodule m path = Some c ->
  no_bn_above m path ->
  get_submodule (replace_bn m) path
  = Some (if is_BatchNorm2d c then Identity else replace_bn c).
Proof.
  induction path as [|name path IH]; intros m c Hne Hget Habove; [congruence|].
  cbn [get_submodule] in *. rewrite replace_bn_children, get_child_fused.
  destruct (get_child name (named_children m)) as [child|] eqn:E; [|discriminate].
  cbn [option_map]. destruct path as [|name' path'].
  - cbn in Hget. injection Hget as ->. reflexivity.
  - cbn [no_bn_above] in Habove. rewrite E in Habove.
    destruct Habove as [Hbn Habove]. rewrite Hbn.
    apply IH; [discriminate | exact Hget | exact Habove].
Qed.

Lemma replace_bn_no_bn path : forall m c',
  path <> [] ->
  get_submodule (replace_bn m) path = Some c' ->
  is_BatchNorm2d c' = false.
Proof.
  induction path as [|name path IH]; intros m c' Hne Hget; [congruence|].
  cbn [get_submodule] in Hget. rewrite replace_bn_children, get_child_fused in Hget.
  destruct (get_child name (named_children m)) as [child|]; [|discriminate].
  cbn [option_map] in Hget. destruct path as [|name' path'].
  - cbn in Hget. injection Hget as <-.
    destruct (is_BatchNorm2d child) eqn:Hb; [reflexivity|].
    destruct (replace_bn_head child) as (_ & H & _). congruence.
  - destruct (is_BatchNorm2d child).
    + cbn in Hget. discriminate.
    + apply (IH child); [discriminate | exact Hget].
Qed.

(** What lay below a [BatchNorm2d] is not in the tree any more: the
    [Identity] that stands in its place has no children. *)
Lemma replace_bn_below_bn path : forall m c,
  get_submodule m path = Some c ->
  ~ no_bn_above m path ->
  get_submodule (replace_bn m) path = None.
Proof.
  induction path as [|name path IH]; intros m c Hget Habove.
  - exfalso. apply Habove. exact I.
  - cbn [get_submodule] in *. rewrite replace_bn_children, get_child_fused.
    destruct (get_child name (named_children m)) as [child|] eqn:E; [|discriminate].
    cbn [option_map]. destruct path as [|name' path'].
    + exfalso. apply Habove. exact I.
    + cbn [no_bn_above] in Habove. rewrite E in Habove.
      destruct (is_BatchNorm2d child) eqn:Hbn.
      * reflexivity.
      * apply (IH child c Hget). intros H. apply Habove. split; [reflexivity|exact H].
Qed.

(** C4, as the code has it.  After [fuse_bn_recursively(model)] every
    submodule that was a [BatchNorm2d] and lay below no other one is an
    [Identity], and no [BatchNorm2d] is left below the root; every other
    submodule that lay below no [BatchNorm2d] is where it was, with its
    class, its own parameters and buffers and the names of its children,
    and is itself fused below; a submodule that lay below a
    [BatchNorm2d] is gone with it. *)
Theorem C4_fuse_replaces_every_batchnorm m :
  unique_names m ->
  fuse_bn_recursively m = replace_bn m /\
  (forall path c,
     path <> [] -> get_submodule m path = Some c -> no_bn_above m path ->
     (is_BatchNorm2d c = true ->
      get_submodule (fuse_bn_recursively m) path = Some Identity) /\
     (is_BatchNorm2d c = false ->
      exists c',
        get_submodule (fuse_bn_recursively m) path = Some c' /\
        class_name c' = class_name c /\
        is_BatchNorm2d c' = false /\
        state c' = state c /\
        map fst (named_children c') = map fst (named_children c) /\
        c' = replace_bn c)) /\
  (forall path c',
     path <> [] -> get_submodule (fuse_bn_recursively m) path = Some c' ->
     is_BatchNorm2d c' = false) /\
  (forall path c,
     get_submodule m path = Some c -> ~ no_bn_above m path ->
     get_submodule (fuse_bn_recursively m) path = None).
Proof.
  intros Hu. pose proof (fuse_is_replace_bn m Hu) as Hf. rewrite Hf.
  split; [reflexivity|]. split; [|split].
  - intros path c Hne Hget Habove.
    pose proof (replace_bn_path path m c Hne Hget Habove) as Hp. split; intros Hb.
    + rewrite Hp, Hb. reflexivity.
    + rewrite Hb in Hp. exists (replace_bn c).
      destruct (replace_bn_head c) as (H1 & H2 & H3 & H4).
      repeat split; auto. congruence.
  - intros path c' Hne Hget. exact (replace_bn_no_bn path m c' Hne Hget).
  - intros path c Hget Habove. exact (replace_bn_below_bn path m c Hget Habove).
Qed.

End FuseFacts.

Lemma conv_bn_model_unique_names : unique_names conv_bn_model.
Proof.
  cbn. repeat split; repeat constructor; cbn; intuition discriminate.
Qed.

Lemma C4_witness :
  get_submodule (ViT.fuse_bn_recursively conv_bn_model) ["stem"; "bn"]
    = Some ViT.Identity /\
  get_submodule (ViT.fuse_bn_recursively conv_bn_model) ["norm"]
    = Some ViT.Identity /\
  get_submodule (ViT.fuse_bn_recursively conv_bn_model) ["stem"; "conv"]
    = get_submodule conv_bn_model ["stem"; "conv"].
Proof.
  destruct (C4_fuse_replaces_every_batchnorm conv_bn_model
              conv_bn_model_unique_names) as (_ & Hpath & _).
  split; [|split].
  - apply (Hpath ["stem"; "bn"] (NNModule "BatchNorm2d" true
                                    [("weight", Tensor [1] [1%Q])] []));
      [discriminate | reflexivity | cbn; auto | reflexivity].
  - apply (Hpath ["norm"] (NNModule "BatchNorm2d" true
                             [("weight", Tensor [1] [1%Q])] []));
      [discriminate | reflexivity | cbn; auto | reflexivity].
  - destruct (Hpath ["stem"; "conv"]
                (NNModule "Conv2d" false
                   [("weight", Tensor [1;1;1;1] [2%Q])] []))
      as [_ H]; [discriminate | reflexivity | cbn; auto |].
    destruct (H eq_refl) as (c' & Hget & _ & _ & _ & _ & ->). exact Hget.
Defined.

(** C4 as stated fails where a [BatchNorm2d] has children ([isinstance]
    holds for a subclass such as [BatchNormAct2d]): the activation below
    it is not a [BatchNorm2d], and after the call it is no submodule of
    the model any more. *)
Lemma C4_counterexample_module_below_batchnorm :
  unique_names bn_act_model /\
  get_submodule bn_act_model ["bn1"; "act"] = Some (NNModule "ReLU" false [] []) /\
  is_BatchNorm2d (NNModule "ReLU" false [] []) = false /\
  get_submodule (ViT.fuse_bn_recursively bn_act_model) ["bn1"] = Some ViT.Identity /\
  get_submodule (ViT.fuse_bn_recursively bn_act_model) ["bn1"; "act"] = None.
Proof.
  split; [|repeat split].
  cbn. repeat split; repeat constructor; cbn; intuition discriminate.
Qed.


(** ** Pruning *)

Section PruneFacts.
Import ViT.

Lemma broadcast_rev_length a : forall b s,
  broadcast_rev a b = Some s -> length s = Nat.max (length a) (length b).
Proof.
  induction a as [|x a IH]; intros [|y b] s H; cbn in H.
  - injection H as <-. reflexivity.
  - injection H as <-. reflexivity.
  - injection H as <-. cbn. lia.
  - destruct (Nat.eqb x y); [|destruct (Nat.eqb x 1); [|destruct (Nat.eqb y 1)]];
      try discriminate;
      destruct (broadcast_rev a b) as [s'|] eqn:E; try discriminate;
      injection H as <-; cbn; rewrite (IH _ _ E); reflexivity.
Qed.

Lemma broadcast_shapes_length a b s :
  broadcast_shapes a b = Some s -> length s = Nat.max (length a) (length b).
Proof.
  unfold broadcast_shapes.
  destruct (broadcast_rev (rev a) (rev b)) as [s'|] eqn:E; [|discriminate].
  intros H. injection H as <-.
  rewrite length_rev, (broadcast_rev_length _ _ _ E), !length_rev. reflexivity.
Qed.

(** An in-place product cannot gain a dimension. *)
Lemma imul_more_dims_raises a b :
  (ndim a < ndim b)%nat -> exists e, imul a b = Raise e.
Proof.
  unfold imul, binop_, ndim. intros Hlt.
  destruct (broadcast_shapes (shape a) (shape b)) as [s|] eqn:E; [|eauto].
  pose proof (broadcast_shapes_length _ _ _ E) as Hlen.
  unfold shape_eqb. destruct (list_eq_dec Nat.eq_dec s (shape a)) as [->|_].
  - lia.
  - eauto.
Qed.

Lemma unsqueeze_1_ndim t u : unsqueeze_1 t = Ok u -> ndim u = S (ndim t).
Proof.
  unfold unsqueeze_1, ndim. destruct (shape t); [discriminate|].
  intros H. injection H as <-. reflexivity.
Qed.

Lemma repeat_1d_ndim t k u : repeat_1d t k = Ok u -> ndim u = 1%nat.
Proof.
  unfold repeat_1d, ndim. destruct (shape t) as [|n [|]]; try discriminate.
  intros H. injection H as <-. reflexivity.
Qed.

Lemma prune_module_raises {fw : handler (list vit_module)} norm2 prune_ratio
  model i a :
  nth_error model i = Some (AttentionModule a) ->
  ndim (qkv_weight a) = 2%nat ->
  exists e, run fw (prune_module norm2 prune_ratio i) model = (Raise e, model).
Proof.
  intros Hi Hw. unfold prune_module. cbn [run]. rewrite Hi.
  cbn [run]. rewrite run_lift.
  destruct (view_3 _ _ _) as [v|e]; [|eauto]. cbn [run]. rewrite run_lift.
  destruct (norm_dim2 _ _) as [hi|e]; [|eauto]. cbn [run]. rewrite run_lift.
  destruct (mean_dim0 _) as [hi'|e]; [|eauto]. cbn [run]. rewrite run_lift.
  destruct (topk_smallest _ _) as [[vals idx]|e]; [|eauto]. cbn [run]. rewrite run_lift.
  destruct (ones _) as [m0|e]; [|eauto]. cbn [run]. rewrite run_lift.
  destruct (index_fill _ _ _) as [m1|e]; [|eauto]. cbn [run]. rewrite run_lift.
  destruct (repeat_1d _ _) as [m2|e] eqn:E2; [|eauto]. cbn [run]. rewrite run_lift.
  destruct (unsqueeze_1 m2) as [m3|e] eqn:E3; [|eauto]. cbn [run]. rewrite run_lift.
  destruct (unsqueeze_1 m3) as [m4|e] eqn:E4; [|eauto]. cbn [run]. rewrite run_lift.
  destruct (imul_more_dims_raises (qkv_weight a) m4) as [e He].
  { rewrite Hw, (unsqueeze_1_ndim _ _ E4), (unsqueeze_1_ndim _ _ E3),
      (repeat_1d_ndim _ _ _ E2). lia. }
  rewrite He. eauto.
Qed.

Lemma prune_loop_raises {fw : handler (list vit_module)} norm2 prune_ratio model :
  (forall a, In (AttentionModule a) model -> ndim (qkv_weight a) = 2%nat) ->
  forall idx,
    (exists i a, In i idx /\ nth_error model i = Some (AttentionModule a)) ->
    exists e, run fw (for_each idx (prune_module norm2 prune_ratio)) model
              = (Raise e, model).
Proof.
  intros H2d. induction idx as [|i idx IH]; intros (j & a & Hin & Hj).
  - destruct Hin.
  - cbn [for_each run].
    destruct (nth_error model i) as [[b|c]|] eqn:Ei.
    + destruct (@prune_module_raises fw norm2 prune_ratio model i b Ei) as [e He].
      { apply H2d. eapply nth_error_In, Ei. }
      rewrite He. eauto.
    + assert (Hnot : j <> i) by congruence.
      unfold prune_module at 1. cbn [run]. rewrite Ei. cbn [run].
      apply IH. exists j, a. destruct Hin; [congruence|auto].
    + assert (Hnot : j <> i) by congruence.
      unfold prune_module at 1. cbn [run]. rewrite Ei. cbn [run].
      apply IH. exists j, a. destruct Hin; [congruence|auto].
Qed.

(** C2, on the code.  On a model that has an attention module, the
    weight of every [qkv] layer being a matrix, [prune_attention_heads]
    raises and leaves the model as it was: the mask has the three
    dimensions [3 * num_heads, 1, 1], and the in-place product
    [module.qkv.weight.data *= mask] would have to give the matrix a
    third dimension.  No head is zeroed. *)
Theorem C2_prune_attention_heads_raises (fw : handler (list vit_module))
  norm2 prune_ratio model :
  (forall a, In (AttentionModule a) model -> ndim (qkv_weight a) = 2%nat) ->
  (exists a, In (AttentionModule a) model) ->
  exists e, run fw (prune_attention_heads norm2 prune_ratio) model
            = (Raise e, model).
Proof.
  intros H2d [a Ha]. unfold prune_attention_heads. cbn [run].
  apply prune_loop_raises; [exact H2d|].
  destruct (In_nth_error _ _ Ha) as [i Hi]. exists i, a. split; [|exact Hi].
  apply in_seq. split; [lia|]. cbn. apply nth_error_Some. congruence.
Qed.

End PruneFacts.

(** ** The store under the framework calls of [apply_ptq] *)

Lemma nth_error_map_at P f s : forall i0 i,
  nth_error (map_at P f i0 s) i
  = option_map (fun o => if P (i0 + i)%nat then f o else o) (nth_error s i).
Proof.
  induction s as [|o s IH]; intros i0 [|i]; cbn; try reflexivity.
  - rewrite Nat.add_0_r. reflexivity.
  - rewrite IH. replace (S i0 + i)%nat with (i0 + S i)%nat by lia. reflexivity.
Qed.

Lemma length_map_at P f s : forall i0, length (map_at P f i0 s) = length s.
Proof. induction s; intros; cbn; auto. Qed.

Lemma assoc_set_same {A} name (v : A) l : assoc name (set_assoc name v l) = Some v.
Proof.
  induction l as [|[n x] l IH]; cbn.
  - rewrite String.eqb_refl. reflexivity.
  - destruct (String.eqb n name) eqn:E; cbn; rewrite E; auto.
Qed.

Lemma assoc_set_other {A} name name' (v : A) l :
  name' <> name -> assoc name' (set_assoc name v l) = assoc name' l.
Proof.
  intros Hne. induction l as [|[n x] l IH]; cbn.
  - destruct (String.eqb_spec name name'); congruence.
  - destruct (String.eqb_spec n name) as [->|Hn]; cbn.
    + destruct (String.eqb_spec name name'); congruence.
    + destruct (String.eqb n name'); auto.
Qed.

Lemma assoc_shift n name l :
  assoc name (map (fun a : string * handle => (fst a, shift n (snd a))) l)
  = option_map (shift n) (assoc name l).
Proof.
  induction l as [|[k v] l IH]; cbn; [reflexivity|].
  destruct (String.eqb k name); auto.
Qed.

Lemma keeps_refl s : keeps s s.
Proof. intros i o H. eauto. Qed.

Lemma keeps_trans s1 s2 s3 : keeps s1 s2 -> keeps s2 s3 -> keeps s1 s3.
Proof.
  intros H12 H23 i o H. destruct (H12 i o H) as (o2 & H2 & A2 & P2 & Q2).
  destruct (H23 i o2 H2) as (o3 & H3 & A3 & P3 & Q3).
  exists o3. repeat split; congruence.
Qed.

Lemma keeps_app s s' : keeps s (s ++ s').
Proof.
  intros i o H. exists o. rewrite nth_error_app1; auto.
  apply nth_error_Some. congruence.
Qed.

Lemma keeps_map_at P f s :
  (forall i o, nth_error s i = Some o -> P i = true ->
     attrs (f o) = attrs o /\ precision_of (f o) = precision_of o /\
     params (f o) = params o) ->
  keeps s (map_at P f 0 s).
Proof.
  intros Hf i o H. rewrite nth_error_map_at, H. cbn.
  destruct (P i) eqn:E; [|eauto]. exists (f o). split; [reflexivity|].
  apply (Hf i o H E).
Qed.

Lemma keeps_getattr s s' o name v :
  keeps s s' -> store_getattr s o name = Some v -> store_getattr s' o name = Some v.
Proof.
  unfold store_getattr, lookup. intros Hk H.
  destruct (nth_error s (id_of o)) as [obj|] eqn:E; [|discriminate].
  destruct (Hk _ _ E) as (o' & -> & -> & _). exact H.
Qed.

Lemma keeps_precision s s' o p :
  keeps s s' -> precision_at s o = Some p -> precision_at s' o = Some p.
Proof.
  unfold precision_at, lookup. intros Hk H.
  destruct (nth_error s (id_of o)) as [obj|] eqn:E; [|discriminate].
  destruct (Hk _ _ E) as (o' & E' & _ & Hp & _). rewrite E'. cbn in *. congruence.
Qed.

Lemma keeps_params s s' o p :
  keeps s s' -> params_at s o = Some p -> params_at s' o = Some p.
Proof.
  unfold params_at, lookup. intros Hk H.
  destruct (nth_error s (id_of o)) as [obj|] eqn:E; [|discriminate].
  destruct (Hk _ _ E) as (o' & E' & _ & _ & Hp). rewrite E'. cbn in *. congruence.
Qed.

Lemma keeps_lookup s s' o :
  keeps s s' -> lookup s o <> None -> lookup s' o <> None.
Proof.
  unfold lookup. intros Hk H.
  destruct (nth_error s (id_of o)) as [obj|] eqn:E; [|congruence].
  destruct (Hk _ _ E) as (o' & -> & _). discriminate.
Qed.

Lemma getattr_lookup s o name v :
  store_getattr s o name = Some v -> lookup s o <> None.
Proof. unfold store_getattr. destruct (lookup s o); congruence. Qed.

(** The copy of an object refers to the copies of what the object
    referred to. *)
Lemma deepcopy_getattr s o name v :
  store_getattr s o name = Some v ->
  store_getattr (deepcopy s) (shift (length s) o) name = Some (shift (length s) v).
Proof.
  unfold store_getattr, lookup, deepcopy, shift. cbn [id_of]. intros H.
  destruct (nth_error s (id_of o)) as [obj|] eqn:E; [|discriminate].
  rewrite nth_error_app2 by lia.
  replace (id_of o + length s - length s)%nat with (id_of o) by lia.
  rewrite nth_error_map, E. cbn. rewrite assoc_shift, H. reflexivity.
Qed.

Lemma in_copy_old s m i o : nth_error s i = Some o -> in_copy s m i = false.
Proof.
  intros H. unfold in_copy.
  assert (i < length s)%nat by (apply nth_error_Some; congruence).
  destruct (Nat.leb_spec (length s) i); [lia | reflexivity].
Qed.

Lemma keeps_copy_marked s m f : keeps s (map_at (in_copy s m) f 0 (deepcopy s)).
Proof.
  intros i o H. rewrite nth_error_map_at. unfold deepcopy.
  rewrite nth_error_app1 by (apply nth_error_Some; congruence).
  rewrite H. cbn. rewrite (in_copy_old _ _ _ _ H). eauto.
Qed.

Lemma map_at_getattr P f s o name :
  (forall x, attrs (f x) = attrs x) ->
  store_getattr (map_at P f 0 s) o name = store_getattr s o name.
Proof.
  intros Hf. unfold store_getattr, lookup. rewrite nth_error_map_at.
  destruct (nth_error s (id_of o)) as [obj|]; [|reflexivity]. cbn.
  destruct (P (id_of o)); [rewrite Hf|]; reflexivity.
Qed.

Section TorchSteps.
Import LLM.

Lemma run_getattr s o name v :
  store_getattr s o name = Some v ->
  run torch_fw (getattr o name) s = (Ok v, s).
Proof. intros H. unfold getattr. cbn. rewrite H. reflexivity. Qed.

Lemma run_get_default_qconfig backend s :
  run torch_fw (get_default_qconfig backend) s
  = (Ok (Obj (length s)), s ++ [plain_object]).
Proof. reflexivity. Qed.

Lemma lookup_some s o : lookup s o <> None -> exists obj, lookup s o = Some obj.
Proof. destruct (lookup s o); [eauto | congruence]. Qed.

Lemma run_set_attr s o name v :
  lookup s o <> None ->
  exists s',
    run torch_fw (set_attr o name v) s = (Ok tt, s') /\
    store_getattr s' o name = Some v /\
    (forall o' n' v', n' <> name \/ v' = v ->
       store_getattr s o' n' = Some v' -> store_getattr s' o' n' = Some v') /\
    (forall o' p, precision_at s o' = Some p -> precision_at s' o' = Some p) /\
    (forall o', lookup s o' <> None -> lookup s' o' <> None).
Proof.
  intros Ho. destruct (lookup_some _ _ Ho) as [obj Hobj].
  unfold set_attr. cbn [run torch_fw fw_call torch_call]. rewrite Hobj.
  eexists. split; [reflexivity|].
  unfold store_getattr, precision_at, lookup in *.
  split; [|split; [|split]].
  - rewrite nth_error_map_at, Hobj. cbn. rewrite Nat.eqb_refl. cbn.
    apply assoc_set_same.
  - intros o' n' v' Hor. rewrite nth_error_map_at.
    destruct (nth_error s (id_of o')) as [obj'|] eqn:E'; [|discriminate]. cbn.
    destruct (Nat.eqb_spec (id_of o) (id_of o')) as [Heq|_]; [|auto].
    rewrite Heq, E' in Hobj. injection Hobj as ->. cbn.
    destruct (String.eqb_spec n' name) as [->|Hn].
    + destruct Hor as [?| ->]; [congruence|]. intros _. apply assoc_set_same.
    + rewrite assoc_set_other; auto.
  - intros o' p. rewrite nth_error_map_at.
    destruct (nth_error s (id_of o')) as [obj'|]; [|discriminate]. cbn.
    destruct (Nat.eqb (id_of o) (id_of o')); auto.
  - intros o'. rewrite nth_error_map_at.
    destruct (nth_error s (id_of o')) as [obj'|]; cbn; congruence.
Qed.

Lemma reaches_self s m : reaches s m (id_of m) = true.
Proof.
  unfold reaches. destruct (length s); cbn; rewrite Nat.eqb_refl; reflexivity.
Qed.

Lemma run_half s m :
  lookup s m <> None ->
  exists s',
    run torch_fw (half m) s = (Ok m, s') /\
    precision_at s' m = Some FP16 /\
    (forall o n, store_getattr s' o n = store_getattr s o n) /\
    (forall o, precision_at s o = Some FP16 -> precision_at s' o = Some FP16) /\
    (forall o, lookup s o <> None -> lookup s' o <> None).
Proof.
  intros Hm. destruct (lookup_some _ _ Hm) as [obj Hobj].
  unfold half. cbn [run torch_fw fw_call torch_call]. rewrite Hobj.
  eexists. split; [reflexivity|]. split; [|split; [|split]].
  - unfold precision_at, lookup in *. rewrite nth_error_map_at, Hobj. cbn.
    rewrite reaches_self. reflexivity.
  - intros o n. apply map_at_getattr. reflexivity.
  - intros o. unfold precision_at, lookup. rewrite nth_error_map_at.
    destruct (nth_error s (id_of o)) as [obj'|]; [|discriminate]. cbn.
    destruct (reaches s m (id_of o)); auto.
  - intros o. unfold lookup. rewrite nth_error_map_at.
    destruct (nth_error s (id_of o)); cbn; congruence.
Qed.

Lemma run_prepare s m :
  lookup s m <> None ->
  exists s',
    run torch_fw (prepare m) s = (Ok (shift (length s) m), s') /\
    keeps s s' /\
    (forall o name v, store_getattr s o name = Some v ->
       store_getattr s' (shift (length s) o) name = Some (shift (length s) v)).
Proof.
  intros Hm. destruct (lookup_some _ _ Hm) as [obj Hobj].
  unfold prepare. cbn [run torch_fw fw_call torch_call]. rewrite Hobj.
  eexists. split; [reflexivity|]. split; [apply keeps_copy_marked|].
  intros o name v H. rewrite map_at_getattr by reflexivity.
  apply deepcopy_getattr, H.
Qed.

Lemma run_convert s m :
  lookup s m <> None ->
  exists s',
    run torch_fw (convert m) s = (Ok (shift (length s) m), s') /\
    keeps s s' /\
    (forall o name v, store_getattr s o name = Some v ->
       store_getattr s' (shift (length s) o) name = Some (shift (length s) v)).
Proof.
  intros Hm. destruct (lookup_some _ _ Hm) as [obj Hobj].
  unfold convert. cbn [run torch_fw fw_call torch_call]. rewrite Hobj.
  eexists. split; [reflexivity|]. split; [apply keeps_copy_marked|].
  intros o name v H. rewrite map_at_getattr by reflexivity.
  apply deepcopy_getattr, H.
Qed.

Lemma run_call_model s m x :
  lookup s m <> None ->
  exists out s', run torch_fw (call_model m x) s = (Ok out, s') /\ keeps s s'.
Proof.
  intros Hm. destruct (lookup_some _ _ Hm) as [obj Hobj].
  unfold call_model. cbn [run torch_fw fw_call torch_call]. rewrite Hobj.
  do 2 eexists. split; [reflexivity|].
  eapply keeps_trans; [|apply keeps_app].
  apply keeps_map_at. intros; cbn; auto.
Qed.

(** The calibration pass returns, and leaves every object with the
    attributes, the precision and the parameters it had: it feeds the
    observers only. *)
Lemma run_calibrate loader : forall s mp,
  lookup s mp <> None ->
  (forall b, In b loader -> exists x, getitem b "input_ids" = Ok x) ->
  exists s', run torch_fw (calibrate loader mp) s = (Ok tt, s') /\ keeps s s'.
Proof.
  unfold calibrate. intros s mp Hmp Hids. cbn [run torch_fw fw_enter fw_exit].
  fold torch_fw.
  enough (exists s', run torch_fw
            (for_each loader (fun batch =>
               x <- lift (getitem batch "input_ids") ;;
               inputs <- to_device x ;;
               call_model mp inputs ;;
               Ret tt)) s = (Ok tt, s') /\ keeps s s') as (s' & -> & Hk) by eauto.
  revert s Hmp. induction loader as [|b loader IH]; intros s Hmp.
  - exists s. split; [reflexivity | apply keeps_refl].
  - destruct (Hids b (or_introl eq_refl)) as [x Hx].
    destruct (run_call_model s mp x Hmp) as (out & s1 & Hrun & Hk1).
    destruct (IH (fun b' H => Hids b' (or_intror H)) s1
                 (keeps_lookup _ _ _ Hk1 Hmp)) as (s' & Hrest & Hk2).
    exists s'. split; [|eapply keeps_trans; eauto].
    cbn [for_each run]. rewrite Hx. cbn [lift run].
    unfold to_device at 1. cbn [run torch_fw fw_call torch_call].
    fold torch_fw. rewrite Hrun. cbn [run]. exact Hrest.
Qed.

End TorchSteps.

Lemma lookup_lt s o : lookup s o <> None -> (id_of o < length s)%nat.
Proof. unfold lookup. intros H. apply nth_error_Some, H. Qed.

Ltac push_keeps K s :=
  repeat match goal with
  | H : store_getattr s _ _ = Some _ |- _ => apply (keeps_getattr _ _ _ _ _ K) in H
  | H : precision_at s _ = Some _ |- _ => apply (keeps_precision _ _ _ _ K) in H
  | H : lookup s _ <> None |- _ => apply (keeps_lookup _ _ _ K) in H
  end.

Ltac push_set Hg Hp Hl s :=
  repeat match goal with
  | H : store_getattr s _ _ = Some _ |- _ =>
      apply Hg in H; [| first [left; discriminate | right; reflexivity]]
  | H : precision_at s _ = Some _ |- _ => apply Hp in H
  | H : lookup s _ <> None |- _ => apply Hl in H
  end.

Ltac push_half Hg Hp Hl s :=
  repeat match goal with
  | H : store_getattr s _ _ = Some _ |- _ => rewrite <- Hg in H
  | H : precision_at s _ = Some FP16 |- _ => apply Hp in H
  | H : lookup s _ <> None |- _ => apply Hl in H
  end.

(** C10. [apply_ptq(model)] changes its argument: [half()] casts in
    place and returns the module it was called on, so that once
    [apply_ptq] has returned the embedding layers [wte] and [wpe] and the
    output head [lm_head] of the original model are in half precision,
    and the quantized model that is returned holds these very objects. *)
Theorem C10_apply_ptq_halves_the_original s loader model t wte wpe lm_head :
  (forall b, In b loader -> exists x, getitem b "input_ids" = Ok x) ->
  store_getattr s model "transformer" = Some t ->
  store_getattr s t "wte" = Some wte ->
  store_getattr s t "wpe" = Some wpe ->
  store_getattr s model "lm_head" = Some lm_head ->
  lookup s wte <> None -> lookup s wpe <> None -> lookup s lm_head <> None ->
  exists mq tq s',
    run torch_fw (LLM.apply_ptq loader model) s = (Ok mq, s') /\
    mq <> model /\
    (precision_at s' wte = Some FP16 /\
     precision_at s' wpe = Some FP16 /\
     precision_at s' lm_head = Some FP16) /\
    (store_getattr s' model "transformer" = Some t /\
     store_getattr s' t "wte" = Some wte /\
     store_getattr s' t "wpe" = Some wpe /\
     store_getattr s' model "lm_head" = Some lm_head) /\
    (store_getattr s' mq "transformer" = Some tq /\
     store_getattr s' tq "wte" = Some wte /\
     store_getattr s' tq "wpe" = Some wpe /\
     store_getattr s' mq "lm_head" = Some lm_head).
Proof.
  intros Hids Gmt Gtw Gtp Gml Lw Lp Ll.
  pose proof (getattr_lookup _ _ _ _ Gmt) as Lm.
  unfold LLM.apply_ptq.
  (* qconfig *)
  cbn [run]. rewrite run_get_default_qconfig.
  pose proof (keeps_app s [plain_object]) as K1. push_keeps K1 s. clear K1.
  set (s1 := s ++ [plain_object]) in *.
  destruct (run_set_attr s1 model "qconfig" (Obj (length s)) Lm)
    as (s2 & -> & _ & Hg & Hp & Hl).
  push_set Hg Hp Hl s1. clear Hg Hp Hl.
  (* prepare *)
  pose proof (lookup_lt _ _ Lm) as Hn2.
  destruct (run_prepare s2 model Lm) as (s3 & -> & K3 & C3).
  pose proof (C3 _ _ _ Gmt) as Pmt. pose proof (C3 _ _ _ Gtw) as Ptw.
  pose proof (C3 _ _ _ Gml) as Pml. clear C3.
  push_keeps K3 s2. clear K3.
  (* calibrate *)
  destruct (run_calibrate loader s3 (shift (length s2) model)
              (getattr_lookup _ _ _ _ Pmt) Hids) as (s4 & -> & K4).
  push_keeps K4 s3. clear K4.
  (* convert *)
  destruct (run_convert s4 (shift (length s2) model) (getattr_lookup _ _ _ _ Pmt))
    as (s5 & -> & K5 & C5).
  pose proof (C5 _ _ _ Pmt) as Qmt. pose proof (C5 _ _ _ Ptw) as Qtw.
  pose proof (C5 _ _ _ Pml) as Qml. clear C5 Pmt Ptw Pml.
  push_keeps K5 s4. clear K5.
  set (mq := shift (length s4) (shift (length s2) model)) in *.
  set (tq := shift (length s4) (shift (length s2) t)) in *.
  pose proof (getattr_lookup _ _ _ _ Qtw) as Ltq.
  pose proof (getattr_lookup _ _ _ _ Qmt) as Lmq.
  clear Qtw Qml.
  (* wte *)
  cbn [run]. rewrite (run_getattr _ _ _ _ Gmt). rewrite (run_getattr _ _ _ _ Gtw).
  destruct (run_half s5 wte Lw) as (s6 & -> & Fw & Hg & Hp & Hl).
  push_half Hg Hp Hl s5. clear Hg Hp Hl.
  rewrite (run_getattr _ _ _ _ Qmt).
  destruct (run_set_attr s6 tq "wte" wte Ltq) as (s7 & -> & Qtw & Hg & Hp & Hl).
  push_set Hg Hp Hl s6. clear Hg Hp Hl.
  (* wpe *)
  rewrite (run_getattr _ _ _ _ Gmt). rewrite (run_getattr _ _ _ _ Gtp).
  destruct (run_half s7 wpe Lp) as (s8 & -> & Fp & Hg & Hp & Hl).
  push_half Hg Hp Hl s7. clear Hg Hp Hl.
  rewrite (run_getattr _ _ _ _ Qmt).
  destruct (run_set_attr s8 tq "wpe" wpe Ltq) as (s9 & -> & Qtp & Hg & Hp & Hl).
  push_set Hg Hp Hl s8. clear Hg Hp Hl.
  (* lm_head *)
  rewrite (run_getattr _ _ _ _ Gml).
  destruct (run_half s9 lm_head Ll) as (s10 & -> & Fl & Hg & Hp & Hl).
  push_half Hg Hp Hl s9. clear Hg Hp Hl.
  destruct (run_set_attr s10 mq "lm_head" lm_head Lmq)
    as (s11 & -> & Qml & Hg & Hp & Hl).
  push_set Hg Hp Hl s10. clear Hg Hp Hl.
  exists mq, tq, s11. split; [reflexivity|]. split.
  - unfold mq, shift. cbn [id_of]. destruct model as [i]. cbn [id_of] in *.
    intros E. injection E as E. lia.
  - repeat split; assumption.
Qed.

Lemma C10_witness :
  exists mq tq s',
    run torch_fw (LLM.apply_ptq one_lm_batch (Obj 0)) gpt2_store = (Ok mq, s') /\
    mq <> Obj 0 /\
    (precision_at s' (Obj 2) = Some FP16 /\
     precision_at s' (Obj 3) = Some FP16 /\
     precision_at s' (Obj 4) = Some FP16) /\
    (store_getattr s' (Obj 0) "transformer" = Some (Obj 1) /\
     store_getattr s' (Obj 1) "wte" = Some (Obj 2) /\
     store_getattr s' (Obj 1) "wpe" = Some (Obj 3) /\
     store_getattr s' (Obj 0) "lm_head" = Some (Obj 4)) /\
    (store_getattr s' mq "transformer" = Some tq /\
     store_getattr s' tq "wte" = Some (Obj 2) /\
     store_getattr s' tq "wpe" = Some (Obj 3) /\
     store_getattr s' mq "lm_head" = Some (Obj 4)).
Proof.
  apply (C10_apply_ptq_halves_the_original gpt2_store one_lm_batch
           (Obj 0) (Obj 1) (Obj 2) (Obj 3) (Obj 4)).
  - intros b [<-|[]]. eexists. reflexivity.
  - reflexivity.
  - reflexivity.
  - reflexivity.
  - reflexivity.
  - discriminate.
  - discriminate.
  - discriminate.
Defined.

(** Before the call the three layers are in single precision. *)
Example gpt2_store_fp32 :
  precision_at gpt2_store (Obj 2) = Some FP32 /\
  precision_at gpt2_store (Obj 3) = Some FP32 /\
  precision_at gpt2_store (Obj 4) = Some FP32.
Proof. repeat split. Qed.

(** ** The steps of [apply_ptq] *)

Section PtqSteps.
Context {St : Type}.
Variable ans : forall e : fwE, resp e.
Variable eff : fwE -> St -> St.
Variables enter exit : ctx -> St -> St.

Let fw := total_fw (fun e (_ : St) => ans e) eff enter exit.

Lemma calibration_loop loader mp :
  (forall b, In b loader -> exists x, getitem b "input_ids" = Ok x) ->
  forall st, exists st',
    run fw (for_each loader (fun batch =>
              x <- lift (getitem batch "input_ids") ;;
              inputs <- to_device x ;;
              call_model mp inputs ;;
              Ret tt)) st = (Ok tt, st') /\
    trace fw (for_each loader (fun batch =>
              x <- lift (getitem batch "input_ids") ;;
              inputs <- to_device x ;;
              call_model mp inputs ;;
              Ret tt)) st
    = flat_map (fun x => [EvCall (ToDevice x);
                          EvCall (CallModel mp (ans (ToDevice x)))])
               (inputs_of loader).
Proof.
  induction loader as [|b loader IH]; intros Hids st.
  - exists st. split; reflexivity.
  - destruct (Hids b (or_introl eq_refl)) as [x Hx].
    match goal with
    | |- exists st', run fw (for_each _ ?body) _ = _ /\ _ =>
        assert (Hb : exists st1, run fw (body b) st = (Ok tt, st1) /\
                  trace fw (body b) st
                  = [EvCall (ToDevice x); EvCall (CallModel mp (ans (ToDevice x)))])
    end.
    { cbn beta. rewrite Hx. unfold to_device, call_model.
      cbn [lift run trace fw total_fw fw_call app]. eauto. }
    destruct Hb as (st1 & Hrun & Htr).
    destruct (IH (fun b' H => Hids b' (or_intror H)) st1) as (st' & Hrest & Htrest).
    exists st'. rewrite run_for_each_cons, trace_for_each_cons.
    cbn beta in Hrun, Htr. rewrite Hrun, Htr, Hrest, Htrest.
    split; [reflexivity|].
    unfold inputs_of. cbn [flat_map]. rewrite Hx. reflexivity.
Qed.

Lemma apply_ptq_trace loader model st :
  (forall b, In b loader -> exists x, getitem b "input_ids" = Ok x) ->
  trace fw (LLM.apply_ptq loader model) st
  = ptq_steps ans model loader ++ keep_fp16_steps ans model.
Proof.
  intros Hids. unfold LLM.apply_ptq, LLM.calibrate, get_default_qconfig,
    set_attr, prepare, convert, getattr, half.
  cbn [trace run fw total_fw fw_call fw_enter fw_exit].
  match goal with
  | |- context [run ?h (for_each loader ?body) ?s] =>
      destruct (calibration_loop loader (ans (Prepare model)) Hids s)
        as (st' & Hrun & Htr)
  end.
  fold fw. rewrite Hrun, Htr. unfold ptq_steps, keep_fp16_steps.
  cbn [app]. rewrite <- !app_assoc. reflexivity.
Qed.

Lemma apply_ptq_returns loader model st :
  (forall b, In b loader -> exists x, getitem b "input_ids" = Ok x) ->
  fst (run fw (LLM.apply_ptq loader model) st)
  = Ok (ans (Convert (ans (Prepare model)))).
Proof.
  intros Hids. unfold LLM.apply_ptq, LLM.calibrate, get_default_qconfig,
    set_attr, prepare, convert, getattr, half.
  cbn [trace run fw total_fw fw_call fw_enter fw_exit].
  match goal with
  | |- context [run ?h (for_each loader ?body) ?s] =>
      destruct (calibration_loop loader (ans (Prepare model)) Hids s)
        as (st' & Hrun & Htr)
  end.
  fold fw. rewrite Hrun. reflexivity.
Qed.

End PtqSteps.

(** The calibration pass makes forward passes and transfers to the
    device only, all of them with gradient tracking disabled: it changes
    no parameter in any framework in which these two calls change none
    while gradient tracking is disabled. *)
Section Calibration.
Context {St X : Type} (fw : handler St).
Variable parameters : St -> X.
Variable tracking_off : St -> Prop.
Hypothesis Henter : forall s,
  tracking_off (fw_enter fw NoGrad s) /\
  parameters (fw_enter fw NoGrad s) = parameters s.
Hypothesis Hexit : forall s, parameters (fw_exit fw NoGrad s) = parameters s.
Hypothesis Hto : forall x s, tracking_off s ->
  tracking_off (snd (fw_call fw (ToDevice x) s)) /\
  parameters (snd (fw_call fw (ToDevice x) s)) = parameters s.
Hypothesis Hforward : forall m x s, tracking_off s ->
  tracking_off (snd (fw_call fw (CallModel m x) s)) /\
  parameters (snd (fw_call fw (CallModel m x) s)) = parameters s.

Lemma calibration_loop_keeps (loader : list batch) model_prepared : forall s,
  tracking_off s ->
  parameters (snd (run fw (for_each loader (fun batch =>
                     x <- lift (getitem batch "input_ids") ;;
                     inputs <- to_device x ;;
                     call_model model_prepared inputs ;;
                     Ret tt)) s))
  = parameters s.
Proof.
  induction loader as [|b loader IH]; intros s Hs; [reflexivity|].
  rewrite run_for_each_cons. unfold to_device, call_model. cbn [run].
  destruct (getitem b "input_ids") as [x|e]; cbn [lift run]; [|reflexivity].
  destruct (Hto x s Hs) as [Hs1 Hp1].
  destruct (fw_call fw (ToDevice x) s) as [[inputs|e] s1]; cbn [snd] in *;
    [|exact Hp1].
  destruct (Hforward model_prepared inputs s1 Hs1) as [Hs2 Hp2].
  destruct (fw_call fw (CallModel model_prepared inputs) s1) as [[out|e] s2];
    cbn [snd] in *; [|congruence].
  cbn [run]. fold (@to_device St) (@call_model St).
  rewrite IH by exact Hs2. congruence.
Qed.

Lemma calibrate_keeps_parameters (loader : list batch) model_prepared s :
  parameters (snd (run fw (LLM.calibrate loader model_prepared) s)) = parameters s.
Proof.
  unfold LLM.calibrate. cbn [run].
  destruct (Henter s) as [Hoff Hp].
  pose proof (calibration_loop_keeps loader model_prepared _ Hoff) as H.
  destruct (run fw _ (fw_enter fw NoGrad s)) as [r s1]. cbn [snd] in *.
  rewrite Hexit. congruence.
Qed.

End Calibration.

(** C3, as the code has it.  [apply_ptq] assigns the default
    configuration to the model, prepares the model, runs every batch of
    the loader once through the prepared model with gradient tracking
    disabled, and converts the prepared model; it then casts the
    embeddings and the head of the original model to half precision and
    puts them into the quantized model, which is what it returns: the
    answer of [convert] on the prepared model.  The calibration pass
    changes no parameter, whether it returns or raises, in any framework
    in which a forward pass and a transfer to the device made with
    gradient tracking disabled change none (and keep it disabled), and
    entering and leaving [torch.no_grad()] change none. *)
Theorem C3_apply_ptq_steps :
  (forall (St : Type) (ans : forall e : fwE, resp e) (eff : fwE -> St -> St)
          (enter exit : ctx -> St -> St) loader model st,
     (forall b, In b loader -> exists x, getitem b "input_ids" = Ok x) ->
     trace (total_fw (fun e _ => ans e) eff enter exit)
           (LLM.apply_ptq loader model) st
     = ptq_steps ans model loader ++ keep_fp16_steps ans model /\
     fst (run (total_fw (fun e _ => ans e) eff enter exit)
              (LLM.apply_ptq loader model) st)
     = Ok (ans (Convert (ans (Prepare model))))) /\
  (forall (St X : Type) (fw : handler St) (parameters : St -> X)
          (tracking_off : St -> Prop),
     (forall s, tracking_off (fw_enter fw NoGrad s) /\
                parameters (fw_enter fw NoGrad s) = parameters s) ->
     (forall s, parameters (fw_exit fw NoGrad s) = parameters s) ->
     (forall x s, tracking_off s ->
        tracking_off (snd (fw_call fw (ToDevice x) s)) /\
        parameters (snd (fw_call fw (ToDevice x) s)) = parameters s) ->
     (forall m x s, tracking_off s ->
        tracking_off (snd (fw_call fw (CallModel m x) s)) /\
        parameters (snd (fw_call fw (CallModel m x) s)) = parameters s) ->
     forall loader model_prepared s,
       parameters (snd (run fw (LLM.calibrate loader model_prepared) s))
       = parameters s).
Proof.
  split.
  - intros. split; [apply apply_ptq_trace | apply apply_ptq_returns]; assumption.
  - intros St X fw parameters tracking_off Henter Hexit Hto Hforward
      loader model_prepared s.
    exact (calibrate_keeps_parameters fw parameters tracking_off
             Henter Hexit Hto Hforward loader model_prepared s).
Qed.

Lemma C3_witness :
  (trace echo_fw (LLM.apply_ptq one_lm_batch (Obj 1)) tt
   = ptq_steps echo_answer (Obj 1) one_lm_batch
     ++ keep_fp16_steps echo_answer (Obj 1) /\
   fst (run echo_fw (LLM.apply_ptq one_lm_batch (Obj 1)) tt)
   = Ok (echo_answer (Convert (echo_answer (Prepare (Obj 1)))))) /\
  snd (snd (run counting_fw (LLM.calibrate one_lm_batch (Obj 1)) (0, 7)%nat))
  = 7%nat.
Proof.
  split.
  - apply (proj1 C3_apply_ptq_steps unit echo_answer).
    intros b [<-|[]]. eexists. reflexivity.
  - apply (proj2 C3_apply_ptq_steps (nat * nat)%type nat counting_fw
             snd (fun s => fst s <> 0%nat)).
    + intros s. split; [discriminate | reflexivity].
    + intros s. reflexivity.
    + intros x s H. split; [exact H | reflexivity].
    + intros m x s H. split; [exact H | reflexivity].
Defined.

(** On the framework that counts the steps of the optimizer, fine-tuning
    for three epochs over one batch takes three steps; the calibration
    pass takes none. *)
Example fine_tune_updates_parameters :
  snd (snd (run counting_fw (LLM.fine_tune (Obj 1) one_lm_batch (Obj 2) 3) (0, 0)%nat))
  = 3%nat.
Proof. vm_compute. reflexivity. Qed.

(** C3 as stated fails: the four steps are not all that [apply_ptq]
    does.  On the GPT-2 shaped store, after [convert] the function reads
    the embeddings and the head of the original model, casts them with
    [half()] and assigns them to the quantized model. *)
Lemma C3_counterexample_steps_after_convert :
  let x := Tensor [1;2] [3%Q; 4%Q] in
  trace torch_fw (LLM.apply_ptq one_lm_batch (Obj 0)) gpt2_store
  = [EvCall (GetDefaultQConfig "fbgemm");
     EvCall (SetAttr (Obj 0) "qconfig" (Obj 5));
     EvCall (Prepare (Obj 0));
     EvEnter NoGrad;
     EvCall (ToDevice x);
     EvCall (CallModel (Obj 6) x);
     EvExit NoGrad;
     EvCall (Convert (Obj 6))]
    ++ [EvCall (GetAttr (Obj 0) "transformer");
        EvCall (GetAttr (Obj 1) "wte");
        EvCall (Half (Obj 2));
        EvCall (GetAttr (Obj 19) "transformer");
        EvCall (SetAttr (Obj 20) "wte" (Obj 2));
        EvCall (GetAttr (Obj 0) "transformer");
        EvCall (GetAttr (Obj 1) "wpe");
        EvCall (Half (Obj 3));
        EvCall (GetAttr (Obj 19) "transformer");
        EvCall (SetAttr (Obj 20) "wpe" (Obj 3));
        EvCall (GetAttr (Obj 0) "lm_head");
        EvCall (Half (Obj 4));
        EvCall (SetAttr (Obj 19) "lm_head" (Obj 4))] /\
  forall ans,
    trace torch_fw (LLM.apply_ptq one_lm_batch (Obj 0)) gpt2_store
    <> ptq_steps ans (Obj 0) one_lm_batch.
Proof.
  split; [reflexivity|].
  intros ans H. apply (f_equal (@length event)) in H.
  cbn in H. discriminate.
Qed.

Lemma C2_witness :
  exists e,
    run quiet_fw (ViT.prune_attention_heads square_norm (PFloat (1#2)))
        two_head_model
    = (Raise e, two_head_model).
Proof.
  apply C2_prune_attention_heads_raises.
  - intros a [H|[H|[]]]; [discriminate|]. injection H as <-. reflexivity.
  - exists two_heads. right. left. reflexivity.
Defined.

(** On the model of two heads, with [prune_ratio=0.5]: head 0 is the
    less important one and the mask built for it has shape [6, 1, 1];
    the in-place product with the weight of shape [6, 2] raises, and the
    weight and the bias stay as they were. *)
Example prune_two_heads_mask :
  rbind (view_3 (qkv_weight two_heads) 3 2) (fun v =>
  rbind (norm_dim2 square_norm v) (fun n =>
  rbind (mean_dim0 n) (fun importance =>
  rbind (topk_smallest importance 1) (fun vi =>
  rbind (ones 2) (fun mask =>
  rbind (index_fill mask (snd vi) 0%Q) (fun mask =>
  rbind (repeat_1d mask 3) (fun mask =>
  rbind (unsqueeze_1 mask) (fun mask =>
  rbind (unsqueeze_1 mask) (fun mask => Ok (snd vi, mask))))))))))
  = Ok ([0%nat], Tensor [6;1;1] [0%Q; 1%Q; 0%Q; 1%Q; 0%Q; 1%Q]).
Proof. reflexivity. Qed.

Example prune_two_heads_raises :
  run quiet_fw (ViT.prune_attention_heads square_norm (PFloat (1#2)))
      two_head_model
  = (Raise (Exn "RuntimeError"
                "output with shape doesn't match the broadcast shape"),
     two_head_model).
Proof. reflexivity. Qed.

(** ** Exceptions are not handled *)

Section Propagation.
Context {St : Type}.

(** Without [try]/[except], whatever is raised while a program runs is
    what the program raises. *)
Lemma handler_free_propagates (fw : handler St) {R} (p : prog St R) :
  handler_free p ->
  forall st x, raised_in fw p st x -> fst (run fw p st) = Raise x.
Proof.
  induction p as [R r|X R m IHm k IHk|e|R y| |s|R c body IH|R body IHb h IHh|title];
    cbn [handler_free raised_in run]; intros Hf st x Hr; try contradiction.
  - destruct Hf as [Hm Hk]. destruct Hr as [Hr|(v & st1 & Hv & Hr)].
    + specialize (IHm Hm st x Hr).
      destruct (run fw m st) as [[v|e] st1]; cbn in IHm |- *; congruence.
    + rewrite Hv. apply IHk; [apply Hk|exact Hr].
  - exact Hr.
  - cbn. congruence.
  - specialize (IH Hf _ _ Hr).
    destruct (run fw body (fw_enter fw c st)) as [r st1]. exact IH.
Qed.

Lemma lift_handler_free {A} (r : result A) : handler_free (@lift St A r).
Proof. destruct r; exact I. Qed.

Lemma for_each_handler_free {A} (xs : list A) (body : A -> prog St unit) :
  (forall x, handler_free (body x)) -> handler_free (for_each xs body).
Proof. intros Hb. induction xs as [|x xs IH]; cbn; auto. Qed.

Lemma for_fold_handler_free {A B} (xs : list A) (body : B -> A -> prog St B) :
  (forall acc x, handler_free (body acc x)) ->
  forall acc, handler_free (for_fold xs acc body).
Proof. intros Hb. induction xs as [|x xs IH]; intros acc; cbn; auto. Qed.

Lemma lift_no_cell {A} (r : result A) : no_cell (@lift St A r).
Proof. destruct r; exact I. Qed.

Lemma for_each_no_cell {A} (xs : list A) (body : A -> prog St unit) :
  (forall x, no_cell (body x)) -> no_cell (for_each xs body).
Proof. intros Hb. induction xs as [|x xs IH]; cbn; auto. Qed.

Lemma for_fold_no_cell {A B} (xs : list A) (body : B -> A -> prog St B) :
  (forall acc x, no_cell (body acc x)) ->
  forall acc, no_cell (for_fold xs acc body).
Proof. intros Hb. induction xs as [|x xs IH]; intros acc; cbn; auto. Qed.

Lemma lift_no_call bad {A} (r : result A) : no_call bad (@lift St A r).
Proof. destruct r; exact I. Qed.

Lemma for_each_no_call bad {A} (xs : list A) (body : A -> prog St unit) :
  (forall x, no_call bad (body x)) -> no_call bad (for_each xs body).
Proof. intros Hb. induction xs as [|x xs IH]; cbn; auto. Qed.

Lemma for_fold_no_call bad {A B} (xs : list A) (body : B -> A -> prog St B) :
  (forall acc x, no_call bad (body acc x)) ->
  forall acc, no_call bad (for_fold xs acc body).
Proof. intros Hb. induction xs as [|x xs IH]; intros acc; cbn; auto. Qed.

End Propagation.

Ltac head_of t :=
  lazymatch t with
  | ?f _ => head_of f
  | _ => t
  end.

(** Goals [handler_free p], [no_cell p] and [no_call bad p], by the
    structure of [p]. *)
Ltac prove_static :=
  repeat first
    [ exact I
    | assumption
    | apply lift_handler_free
    | apply lift_no_cell
    | apply lift_no_call
    | apply for_each_handler_free; intros
    | apply for_each_no_cell; intros
    | apply for_each_no_call; intros
    | apply for_fold_handler_free; intros
    | apply for_fold_no_cell; intros
    | apply for_fold_no_call; intros
    | match goal with
      | H : forall x, handler_free (?f x) |- handler_free (?f _) => apply H
      | |- _ /\ _ => split
      | |- forall _, _ => intros
      | |- handler_free (match ?x with _ => _ end) => destruct x
      | |- no_cell (match ?x with _ => _ end) => destruct x
      | |- no_call _ (match ?x with _ => _ end) => destruct x
      | |- _ = false => reflexivity
      end
    | progress cbn [handler_free no_cell no_call]
    | match goal with
      | |- handler_free ?p => let h := head_of p in progress unfold h
      | |- no_cell ?p => let h := head_of p in progress unfold h
      | |- no_call _ ?p => let h := head_of p in progress unfold h
      end ].

Lemma prune_attention_heads_handler_free norm2 prune_ratio :
  handler_free (ViT.prune_attention_heads norm2 prune_ratio).
Proof. prove_static. Qed.

(** [C5] No function of the notebooks, and neither notebook, contains an
    exception handler; so whatever the framework does and from whatever
    state, an exception raised by a framework call (or by a Python
    operation) while the code runs is the exception with which the code
    ends: it reaches the caller, and at the top level the notebook,
    unchanged, and nothing is run in its place. *)
Theorem C5_no_handler_errors_propagate {St R} (p : prog St R) :
  authored p ->
  handler_free p /\
  forall (fw : handler St) st x,
    raised_in fw p st x -> fst (run fw p st) = Raise x.
Proof.
  intros Ha.
  assert (Hf : handler_free p).
  { destruct Ha; try (prove_static; fail).
    all: prove_static. }
  split; [exact Hf|].
  intros fw st x. apply handler_free_propagates. exact Hf.
Qed.

(** The exception with which a program ends was raised while it ran. *)
Lemma final_exception_was_raised {St} (fw : handler St) {R} (p : prog St R) :
  forall st x st', run fw p st = (Raise x, st') -> raised_in fw p st x.
Proof.
  induction p as [R r|X R m IHm k IHk|e|R y| |s|R c body IH|R body IHb h IHh|title];
    cbn [raised_in run]; intros st x st' Hr; try discriminate.
  - destruct (run fw m st) as [[v|e] st1] eqn:Hm.
    + right. exists v, st1. split; [reflexivity|]. eapply IHk. exact Hr.
    + left. injection Hr as -> _. eapply IHm. exact Hm.
  - rewrite Hr. reflexivity.
  - congruence.
  - destruct (run fw body (fw_enter fw c st)) as [r st1] eqn:Hb.
    injection Hr as -> _. eapply IH. exact Hb.
  - destruct (run fw body st) as [[v|e] st1] eqn:Hb; [discriminate|].
    right. exists e, st1. split; [reflexivity|]. eapply IHh. exact Hr.
Qed.

Lemma C5_witness :
  fst (run failing_fw (LLM.fine_tune (Obj 0) one_lm_batch (Obj 1) 3) tt)
  = Raise shape_mismatch.
Proof.
  apply (C5_no_handler_errors_propagate
           (LLM.fine_tune (Obj 0) one_lm_batch (Obj 1) 3)).
  - constructor.
  - apply (final_exception_was_raised _ _ _ _ tt). reflexivity.
Defined.

(** The property is one of the code: around the same call, a handler
    would swallow the exception that the framework raised. *)
Example handled_error_is_swallowed :
  let p := TryExcept (LLM.fine_tune (Obj 0) one_lm_batch (Obj 1) 3)
                     (fun _ => Ret tt) in
  raised_in failing_fw p tt shape_mismatch /\
  fst (run failing_fw p tt) = Ok tt.
Proof.
  split; [|reflexivity].
  cbn [raised_in]. left.
  apply (final_exception_was_raised _ _ _ _ tt). reflexivity.
Qed.

(** ** The order of the cells *)

Lemma cells_app (a b : list event) : cells (a ++ b) = cells a ++ cells b.
Proof. apply flat_map_app. Qed.

Lemma firstn_snoc {A} (d : A) (l : list A) (n : nat) :
  n < length l -> firstn (S n) l = firstn n l ++ [nth n l d].
Proof.
  revert n. induction l as [|a l IH]; intros n Hn; [cbn in Hn; lia|].
  destruct n as [|n]; [reflexivity|].
  cbn [firstn nth app]. cbn in Hn.
  f_equal. apply IH. lia.
Qed.

Lemma is_ok_unit (r : result unit) : is_ok r = true <-> r = Ok tt.
Proof.
  destruct r as [[]|e]; cbn; split; congruence.
Qed.

Section CellOrder.
Context {St : Type} (fw : handler St).

Lemma no_cell_trace {R} (p : prog St R) :
  no_cell p -> forall st, cells (trace fw p st) = [].
Proof.
  induction p as [R r|X R m IHm k IHk|e|R y| |s|R c body IH|R body IHb h IHh|title];
    cbn [no_cell trace]; intros Hn st; try reflexivity; try contradiction.
  - destruct Hn as [Hm Hk]. rewrite cells_app, (IHm Hm).
    destruct (run fw m st) as [[v|e] st1]; [apply IHk, Hk|reflexivity].
  - change (EvEnter c :: trace fw body (fw_enter fw c st) ++ [EvExit c])
      with ([EvEnter c] ++ trace fw body (fw_enter fw c st) ++ [EvExit c]).
    rewrite !cells_app, (IH Hn). reflexivity.
  - destruct Hn as [Hb Hh]. rewrite cells_app, (IHb Hb).
    destruct (run fw body st) as [[v|e] st1]; [reflexivity|apply IHh, Hh].
Qed.

(** A cell: its heading, then its code. *)
Lemma cell_body {R} (title : string) (body : prog St R) st :
  no_cell body ->
  exists rest, cells rest = [] /\
    trace fw (Cell title ;; body) st = EvCell title :: rest.
Proof.
  intros Hb. exists (trace fw body st). split; [apply no_cell_trace, Hb|].
  reflexivity.
Qed.

(** The next cell is begun when, and only when, the notebook so far has
    returned, and after all that the notebook so far did. *)
Lemma begin_cell {A R} (prev : prog St A) (k : A -> prog St R) title st :
  (forall x st', exists rest, cells rest = [] /\
     trace fw (k x) st' = EvCell title :: rest) ->
  exists rest, cells rest = [] /\
    trace fw (Bind prev k) st
    = trace fw prev st
      ++ (if is_ok (fst (run fw prev st)) then EvCell title :: rest else []).
Proof.
  intros Hk. cbn [trace].
  destruct (run fw prev st) as [[v|e] st1]; cbn [fst is_ok].
  - destruct (Hk v st1) as (rest & Hc & ->). eauto.
  - exists []. auto.
Qed.

Lemma first_cell {R} (p : prog St R) title st :
  (exists rest, cells rest = [] /\ trace fw p st = EvCell title :: rest) ->
  exists rest, cells rest = [] /\
    trace fw p st
    = trace fw (Ret tt) st
      ++ (if is_ok (fst (run fw (Ret tt) st)) then EvCell title :: rest else []).
Proof. intros H. exact H. Qed.

Lemma returned_before {A R} (prev : prog St A) (k : A -> prog St R) st :
  is_ok (fst (run fw (Bind prev k) st)) = true ->
  is_ok (fst (run fw prev st)) = true.
Proof.
  cbn [run]. destruct (run fw prev st) as [[v|e] st1]; cbn; auto.
Qed.

Lemma trace_erased {R} (p : prog St R) st :
  trace fw (p ;; Ret tt) st = trace fw p st.
Proof.
  cbn [trace]. destruct (run fw p st) as [[v|e] st1]; cbn; apply app_nil_r.
Qed.

Lemma is_ok_erased {R} (p : prog St R) st :
  is_ok (fst (run fw (p ;; Ret tt) st)) = is_ok (fst (run fw p st)).
Proof.
  cbn [run]. destruct (run fw p st) as [[v|e] st1]; reflexivity.
Qed.

(** A notebook of [N] cells, given as the programs [chain k] that run
    its first [k] cells. *)
Section Chain.
Variables (titles : list string) (chain : nat -> prog St unit) (st : St) (N : nat).
Hypothesis HN : N <= length titles.
Hypothesis H0 : trace fw (chain 0) st = [].
Hypothesis Hstep : forall k, k < N ->
  exists rest, cells rest = [] /\
    trace fw (chain (S k)) st
    = trace fw (chain k) st
      ++ (if is_ok (fst (run fw (chain k) st))
          then EvCell (nth k titles "") :: rest else []).
Hypothesis Hok : forall k, k < N ->
  is_ok (fst (run fw (chain (S k)) st)) = true ->
  is_ok (fst (run fw (chain k) st)) = true.

Lemma chain_extends j m :
  j <= m -> m <= N ->
  exists rest, trace fw (chain m) st = trace fw (chain j) st ++ rest.
Proof.
  intros Hj. induction Hj as [|m Hj IH]; intros Hm.
  - exists []. symmetry. apply app_nil_r.
  - destruct IH as [r Hr]; [lia|].
    destruct (Hstep m) as (rest & _ & Ht); [lia|].
    rewrite Ht, Hr, <- app_assoc. eauto.
Qed.

Lemma cells_in_order m :
  m <= N ->
  exists n, n <= m /\
    cells (trace fw (chain m) st) = firstn n titles /\
    (forall k, k < n ->
       is_ok (fst (run fw (chain k) st)) = true /\
       exists rest,
         trace fw (chain m) st
         = trace fw (chain k) st ++ EvCell (nth k titles "") :: rest) /\
    (is_ok (fst (run fw (chain m) st)) = true -> n = m).
Proof.
  induction m as [|m IH]; intros Hm.
  - exists 0. split; [lia|]. split; [rewrite H0; reflexivity|].
    split; [intros k Hk; lia|auto].
  - destruct IH as (n & Hn & Hc & Hbefore & Hall); [lia|].
    destruct (Hstep m) as (rest & Hrest & Ht); [lia|].
    destruct (is_ok (fst (run fw (chain m) st))) eqn:Em.
    + specialize (Hall eq_refl). subst n.
      exists (S m). split; [lia|]. split.
      * rewrite Ht, cells_app, Hc. cbn [cells flat_map app].
        fold (cells rest). rewrite Hrest.
        symmetry. apply firstn_snoc. lia.
      * split; [|auto]. intros k Hk.
        destruct (Nat.eq_dec k m) as [->|Hne].
        -- split; [exact Em|]. exists rest. exact Ht.
        -- destruct (Hbefore k) as (Hk1 & r & Hr); [lia|].
           split; [exact Hk1|]. rewrite Ht, Hr, <- app_assoc. cbn [app]. eauto.
    + rewrite app_nil_r in Ht. exists n. split; [lia|]. rewrite Ht.
      split; [exact Hc|]. split; [exact Hbefore|].
      intros HS. apply (Hok m) in HS; [congruence|lia].
Qed.

End Chain.

(** From the chain to the notebook. *)
Lemma chain_in_order (titles : list string) (chain : nat -> prog St unit)
  (notebook : prog St unit) (st : St) :
  chain (length titles) = (notebook ;; Ret tt)%prog ->
  trace fw (chain 0) st = [] ->
  (forall k, k < length titles ->
     exists rest, cells rest = [] /\
       trace fw (chain (S k)) st
       = trace fw (chain k) st
         ++ (if is_ok (fst (run fw (chain k) st))
             then EvCell (nth k titles "") :: rest else [])) ->
  (forall k, k < length titles ->
     is_ok (fst (run fw (chain (S k)) st)) = true ->
     is_ok (fst (run fw (chain k) st)) = true) ->
  in_order titles chain fw st notebook.
Proof.
  intros Hlast H0 Hstep Hok.
  destruct (cells_in_order titles chain st (length titles) (le_n _) H0 Hstep Hok
              (length titles) (le_n _)) as (n & Hn & Hc & Hbefore & Hall).
  rewrite Hlast, trace_erased in Hc. rewrite Hlast, is_ok_erased in Hall.
  exists n. split; [exact Hn|]. split; [exact Hc|]. split.
  - intros k Hk. destruct (Hbefore k Hk) as (Hk1 & rest & Hr).
    split; [apply is_ok_unit, Hk1|].
    exists rest. rewrite <- Hr, Hlast, trace_erased. reflexivity.
  - intros Hr. apply Hall. rewrite Hr. reflexivity.
Qed.

End CellOrder.

(** One step of a notebook: the next cell after the notebook so far. *)
Ltac next_cell :=
  rewrite ?trace_erased, ?is_ok_erased;
  match goal with
  | |- exists rest, _ /\ trace _ ?p _ = _ => let h := head_of p in unfold h
  end;
  first
    [ apply begin_cell; intros x st';
      repeat match goal with
             | |- context [match ?v with _ => _ end] => is_var v; destruct v
             end;
      apply cell_body; prove_static
    | apply first_cell, cell_body; prove_static ].

Ltac previous_cell :=
  rewrite ?is_ok_erased;
  first
    [ reflexivity
    | match goal with
      | |- is_ok (fst (run _ ?p _)) = true -> _ =>
          let h := head_of p in unfold h
      end;
      apply returned_before ].

Lemma llm_in_order {St} (fw : handler St) st :
  in_order (map fst llm_cells) LLM.prefix fw st LLM.notebook.
Proof.
  apply chain_in_order.
  - reflexivity.
  - reflexivity.
  - intros k Hk. cbn in Hk.
    do 9 (destruct k as [|k];
          [cbn [LLM.prefix nth map fst llm_cells]; next_cell|]).
    lia.
  - intros k Hk. cbn in Hk.
    do 9 (destruct k as [|k]; [cbn [LLM.prefix]; previous_cell|]).
    lia.
Qed.

Lemma vit_in_order {St} (fw : handler St) norm2 st :
  in_order (map fst vit_cells) (ViT.prefix norm2) fw st (ViT.notebook norm2).
Proof.
  apply chain_in_order.
  - reflexivity.
  - reflexivity.
  - intros k Hk. cbn in Hk.
    do 10 (destruct k as [|k];
           [cbn [ViT.prefix nth map fst vit_cells]; next_cell|]).
    lia.
  - intros k Hk. cbn in Hk.
    do 10 (destruct k as [|k]; [cbn [ViT.prefix]; previous_cell|]).
    lia.
Qed.

Lemma no_call_trace bad {St} (fw : handler St) {R} (p : prog St R) :
  no_call bad p ->
  forall st e, In (EvCall e) (trace fw p st) -> bad e = false.
Proof.
  induction p as [R r|X R m IHm k IHk|e0|R y| |s|R c body IH|R body IHb h IHh|title];
    cbn [no_call trace]; intros Hn st e Hin; try contradiction.
  - destruct Hn as [Hm Hk]. apply in_app_or in Hin. destruct Hin as [Hin|Hin].
    + eapply IHm; eauto.
    + destruct (run fw m st) as [[v|x] st1]; [|contradiction].
      eapply IHk; eauto.
  - destruct Hin as [Hin|[]]. injection Hin as <-. exact Hn.
  - destruct Hin as [Hin|Hin]; [discriminate|].
    apply in_app_or in Hin. destruct Hin as [Hin|[Hin|[]]]; [|discriminate].
    eapply IH; eauto.
  - destruct Hn as [Hb Hh]. apply in_app_or in Hin. destruct Hin as [Hin|Hin].
    + eapply IHb; eauto.
    + destruct (run fw body st) as [[v|x] st1]; [contradiction|].
      eapply IHh; eauto.
  - destruct Hin as [Hin|[]]. discriminate.
Qed.

Lemma llm_never_prunes_or_fuses {St} : no_call prunes_or_fuses (@LLM.notebook St).
Proof. prove_static. Qed.

(** ** The steps of the pipeline *)

Lemma project_app {A} (f : fwE -> option A) a b :
  project f (a ++ b) = project f a ++ project f b.
Proof. apply flat_map_app. Qed.

Lemma stage_eqb_eq a b : stage_eqb a b = true <-> a = b.
Proof. destruct a, b; cbn; split; congruence. Qed.

Lemma follow_app pipe l1 : forall i l2,
  follow pipe i (l1 ++ l2)
  = match follow pipe i l1 with
    | Some i' => follow pipe i' l2
    | None => None
    end.
Proof.
  induction l1 as [|s l1 IH]; intros i l2; [reflexivity|].
  cbn [app follow]. destruct (advance pipe s i); [apply IH|reflexivity].
Qed.

Lemma advance_bounds pipe s i j :
  advance pipe s i = Some j -> i <= j <= S i.
Proof.
  unfold advance. destruct (is_step (at_step pipe i) s).
  - intros H. injection H as <-. lia.
  - destruct (is_step (nth_error pipe i) s); [|discriminate].
    intros H. injection H as <-. lia.
Qed.

Lemma follow_bounds pipe l : forall i n, follow pipe i l = Some n -> i <= n.
Proof.
  induction l as [|s l IH]; intros i n; cbn [follow].
  - intros H. injection H as <-. lia.
  - destruct (advance pipe s i) as [i'|] eqn:E; [|discriminate].
    intros H. apply IH in H. apply advance_bounds in E. lia.
Qed.

Lemma skipn_firstn_step {A} (l : list A) : forall i n a,
  nth_error l i = Some a -> i < n ->
  skipn i (firstn n l) = a :: skipn (S i) (firstn n l).
Proof.
  induction l as [|b l IH]; intros i n a Hi Hn.
  - destruct i; discriminate.
  - destruct n as [|n]; [lia|]. destruct i as [|i].
    + cbn in Hi. injection Hi as ->. reflexivity.
    + cbn [firstn skipn]. apply IH; [exact Hi | lia].
Qed.

Lemma skipn_firstn_same {A} (l : list A) i : skipn i (firstn i l) = [].
Proof. apply skipn_all2. rewrite length_firstn. lia. Qed.

(** An execution that keeps to a pipeline goes through the first steps
    of it. *)
Lemma follow_squash pipe l : forall i n,
  follow pipe i l = Some n ->
  squash_from (at_step pipe i) l = skipn i (firstn n pipe).
Proof.
  induction l as [|s l IH]; intros i n; cbn [follow squash_from].
  - intros H. injection H as <-. symmetry. apply skipn_firstn_same.
  - unfold advance.
    change (match at_step pipe i with
            | Some p => stage_eqb p s
            | None => false
            end) with (is_step (at_step pipe i) s).
    destruct (is_step (at_step pipe i) s) eqn:Hat.
    + apply IH.
    + destruct (is_step (nth_error pipe i) s) eqn:Hnext; [|discriminate].
      intros H. pose proof (follow_bounds _ _ _ _ H) as Hb.
      unfold is_step in Hnext.
      destruct (nth_error pipe i) as [p|] eqn:Hp; [|discriminate].
      apply stage_eqb_eq in Hnext. subst p.
      rewrite (skipn_firstn_step pipe i n s Hp) by lia. f_equal.
      change (Some s) with (Some s). rewrite <- Hp.
      apply (IH (S i) n H).
Qed.

Lemma follow_steps pipe l n :
  follow pipe 0 l = Some n -> squash l = firstn n pipe.
Proof. intros H. apply (follow_squash pipe l 0 n H). Qed.

Section Staged.
Context {St : Type} (fw : handler St) (pipe : list stage).

Lemma staged_sound {R} (p : prog St R) : forall i j,
  staged pipe p i j ->
  forall st, exists n,
    follow pipe i (project stage_of (trace fw p st)) = Some n /\
    i <= n <= j /\
    (is_ok (fst (run fw p st)) = true -> n = j).
Proof.
  induction p as [R r|X R m IHm k IHk|e|R y| |s|R c body IH|R body IHb h IHh|title];
    cbn [staged trace run]; intros i j Hs st;
    try (subst j; exists i; repeat split; auto; fail).
  - destruct Hs as (l & Hm & Hk & Hle).
    destruct (IHm i l Hm st) as (n1 & F1 & B1 & R1).
    rewrite project_app, follow_app, F1.
    destruct (run fw m st) as [[v|x] st1].
    + specialize (R1 eq_refl). subst n1.
      destruct (IHk v l j (Hk v) st1) as (n2 & F2 & B2 & R2).
      exists n2. repeat split; auto; lia.
    + exists n1. cbn [project flat_map follow]. repeat split; try lia.
      cbn. discriminate.
  - unfold project. cbn [flat_map]. destruct (stage_of e) as [s|]; cbn [app].
    + cbn [follow]. rewrite Hs. exists j. pose proof (advance_bounds _ _ _ _ Hs).
      repeat split; auto; lia.
    + subst j. exists i. repeat split; auto.
  - destruct (IH i j Hs (fw_enter fw c st)) as (n & F & B & Rn).
    exists n. split; [|split; [exact B|]].
    + unfold project in *. cbn [flat_map app]. rewrite flat_map_app.
      cbn [flat_map app]. rewrite app_nil_r. exact F.
    + destruct (run fw body (fw_enter fw c st)) as [r st1]. exact Rn.
  - contradiction.
Qed.

(** The steps of a program that keeps to the pipeline, as far as the
    pipeline goes. *)
Lemma staged_steps {R} (p : prog St R) j st :
  staged pipe p 0 j ->
  exists n,
    steps (trace fw p st) = firstn n (firstn j pipe) /\
    (is_ok (fst (run fw p st)) = true -> n = j).
Proof.
  intros Hs. destruct (staged_sound p 0 j Hs st) as (n & F & B & Rn).
  exists n. split; [|exact Rn].
  unfold steps. rewrite (follow_steps pipe _ n F), firstn_firstn.
  f_equal. lia.
Qed.

Lemma lift_staged {A} (r : result A) i : staged pipe (@lift St A r) i i.
Proof. destruct r; reflexivity. Qed.

Lemma for_each_staged {A} (xs : list A) (body : A -> prog St unit) i :
  (forall x, staged pipe (body x) i i) -> staged pipe (for_each xs body) i i.
Proof.
  intros Hb. induction xs as [|x xs IH]; cbn [for_each staged]; [reflexivity|].
  exists i. repeat split; auto.
Qed.

Lemma for_fold_staged {A B} (xs : list A) (body : B -> A -> prog St B) i :
  (forall acc x, staged pipe (body acc x) i i) ->
  forall acc, staged pipe (for_fold xs acc body) i i.
Proof.
  intros Hb. induction xs as [|x xs IH]; intros acc; cbn [for_fold staged];
    [reflexivity|].
  exists i. repeat split; auto.
Qed.

End Staged.

Lemma follows_prefix {St} (fw : handler St) pipe (p : prog St unit) j st expected :
  staged pipe p 0 j ->
  firstn j pipe = expected -> length expected = j ->
  exists n,
    steps (trace fw p st) = firstn n expected /\
    (fst (run fw p st) = Ok tt -> n = length expected).
Proof.
  intros Hs <- Hl. destruct (staged_steps fw pipe p j st Hs) as (n & Hn & Hr).
  exists n. split; [exact Hn|]. intros Hok. rewrite Hl. apply Hr.
  rewrite Hok. reflexivity.
Qed.

(** Goals [staged pipe p i j], by the structure of [p]. *)
Ltac prove_staged :=
  repeat first
    [ eassumption
    | apply lift_staged
    | apply for_each_staged; intros
    | apply for_fold_staged; intros
    | match goal with
      | |- exists _, _ => eexists; split; [|split]
      | |- forall _, _ => intros
      | |- _ = _ => reflexivity
      | |- _ <= _ => lia
      | |- staged _ (match ?x with _ => _ end) _ _ => destruct x
      | |- staged _ _ _ _ => progress hnf
      | |- staged _ ?p _ _ => let h := head_of p in progress unfold h
      end ].

Section LLMSteps.
Context {St : Type}.

Lemma llm_setup_staged : staged llm_pipeline (@LLM.upto_setup St) 0 0.
Proof. prove_staged. Qed.

Lemma llm_load_staged : staged llm_pipeline (@LLM.upto_load St) 0 1.
Proof. pose proof llm_setup_staged. prove_staged. Qed.

Lemma llm_fine_tune_staged : staged llm_pipeline (@LLM.upto_fine_tune St) 0 2.
Proof. pose proof llm_load_staged. prove_staged. Qed.

Lemma llm_ptq_staged : staged llm_pipeline (@LLM.upto_ptq St) 0 3.
Proof. pose proof llm_fine_tune_staged. prove_staged. Qed.

Lemma llm_int8_attention_staged :
  staged llm_pipeline (@LLM.upto_int8_attention St) 0 3.
Proof. pose proof llm_ptq_staged. prove_staged. Qed.

Lemma llm_kv_cache_staged : staged llm_pipeline (@LLM.upto_kv_cache St) 0 3.
Proof. pose proof llm_int8_attention_staged. prove_staged. Qed.

Lemma llm_dynamic_quantization_staged :
  staged llm_pipeline (@LLM.upto_dynamic_quantization St) 0 3.
Proof. pose proof llm_kv_cache_staged. prove_staged. Qed.

Lemma llm_onnx_staged : staged llm_pipeline (@LLM.upto_onnx St) 0 4.
Proof. pose proof llm_dynamic_quantization_staged. prove_staged. Qed.

Lemma llm_benchmark_staged : staged llm_pipeline (@LLM.upto_benchmark St) 0 5.
Proof. pose proof llm_onnx_staged. prove_staged. Qed.

End LLMSteps.

Section ViTSteps.
Context {St : Type} (norm2 : list Q -> Q).

Lemma vit_setup_staged : staged vit_pipeline (@ViT.upto_setup St) 0 0.
Proof. prove_staged. Qed.

Lemma vit_load_staged : staged vit_pipeline (@ViT.upto_load St) 0 1.
Proof. pose proof vit_setup_staged. prove_staged. Qed.

Lemma vit_dataset_staged : staged vit_pipeline (@ViT.upto_dataset St) 0 1.
Proof. pose proof vit_load_staged. prove_staged. Qed.

Lemma vit_fine_tune_staged : staged vit_pipeline (@ViT.upto_fine_tune St) 0 2.
Proof. pose proof vit_dataset_staged. prove_staged. Qed.

Lemma vit_qaf_staged : staged vit_pipeline (@ViT.upto_qaf St) 0 5.
Proof. pose proof vit_fine_tune_staged. prove_staged. Qed.

Lemma vit_pruning_staged : staged vit_pipeline (@ViT.upto_pruning St norm2) 0 6.
Proof. pose proof vit_qaf_staged. prove_staged. Qed.

Lemma vit_fusion_staged : staged vit_pipeline (@ViT.upto_fusion St norm2) 0 7.
Proof. pose proof vit_pruning_staged. prove_staged. Qed.

Lemma vit_verify_staged : staged vit_pipeline (@ViT.upto_verify St norm2) 0 7.
Proof. pose proof vit_fusion_staged. prove_staged. Qed.

Lemma vit_optimize_staged : staged vit_pipeline (@ViT.upto_optimize St norm2) 0 8.
Proof. pose proof vit_verify_staged. prove_staged. Qed.

Lemma vit_benchmark_staged : staged vit_pipeline (@ViT.upto_benchmark St norm2) 0 9.
Proof. pose proof vit_optimize_staged. prove_staged. Qed.

End ViTSteps.

Ltac table_row pipe lemma :=
  eapply (follows_prefix _ pipe);
  [ cbn [LLM.prefix ViT.prefix]; pose proof lemma; prove_staged
  | reflexivity
  | reflexivity ].

Lemma llm_follows_table {St} (fw : handler St) st :
  follows_table llm_cells LLM.prefix fw st.
Proof.
  intros k.
  destruct k as [|k]; [table_row llm_pipeline (@llm_setup_staged St)|].
  destruct k as [|k]; [table_row llm_pipeline (@llm_setup_staged St)|].
  destruct k as [|k]; [table_row llm_pipeline (@llm_load_staged St)|].
  destruct k as [|k]; [table_row llm_pipeline (@llm_fine_tune_staged St)|].
  destruct k as [|k]; [table_row llm_pipeline (@llm_ptq_staged St)|].
  destruct k as [|k]; [table_row llm_pipeline (@llm_int8_attention_staged St)|].
  destruct k as [|k]; [table_row llm_pipeline (@llm_kv_cache_staged St)|].
  destruct k as [|k]; [table_row llm_pipeline (@llm_dynamic_quantization_staged St)|].
  destruct k as [|k]; [table_row llm_pipeline (@llm_onnx_staged St)|].
  replace (steps_of_cells llm_cells (S (S (S (S (S (S (S (S (S k))))))))))
    with (steps_of_cells llm_cells 9)
    by (unfold steps_of_cells; cbn [firstn llm_cells]; rewrite firstn_nil; reflexivity).
  table_row llm_pipeline (@llm_benchmark_staged St).
Qed.

Lemma vit_follows_table {St} (fw : handler St) norm2 st :
  follows_table vit_cells (ViT.prefix norm2) fw st.
Proof.
  intros k.
  destruct k as [|k]; [table_row vit_pipeline (@vit_setup_staged St)|].
  destruct k as [|k]; [table_row vit_pipeline (@vit_setup_staged St)|].
  destruct k as [|k]; [table_row vit_pipeline (@vit_load_staged St)|].
  destruct k as [|k]; [table_row vit_pipeline (@vit_dataset_staged St)|].
  destruct k as [|k]; [table_row vit_pipeline (@vit_fine_tune_staged St)|].
  destruct k as [|k]; [table_row vit_pipeline (@vit_qaf_staged St)|].
  destruct k as [|k]; [table_row vit_pipeline (@vit_pruning_staged St norm2)|].
  destruct k as [|k]; [table_row vit_pipeline (@vit_fusion_staged St norm2)|].
  destruct k as [|k]; [table_row vit_pipeline (@vit_verify_staged St norm2)|].
  destruct k as [|k]; [table_row vit_pipeline (@vit_optimize_staged St norm2)|].
  replace (steps_of_cells vit_cells (S (S (S (S (S (S (S (S (S (S k)))))))))))
    with (steps_of_cells vit_cells 10)
    by (unfold steps_of_cells; cbn [firstn vit_cells]; rewrite firstn_nil; reflexivity).
  table_row vit_pipeline (@vit_benchmark_staged St norm2).
Qed.

(** The whole notebook: the steps it has gone through when it returns. *)
Lemma steps_when_returned {St} (fw : handler St) table
  (prefix : nat -> prog St unit) (notebook : prog St unit) st :
  follows_table table prefix fw st ->
  prefix (length table) = (notebook ;; Ret tt) ->
  (exists n, steps (trace fw notebook st)
             = firstn n (steps_of_cells table (length table))) /\
  (fst (run fw notebook st) = Ok tt ->
   steps (trace fw notebook st) = steps_of_cells table (length table)).
Proof.
  intros Hf Hp. destruct (Hf (length table)) as (n & Hs & Hr).
  rewrite Hp, trace_erased in Hs. split; [eauto|].
  intros Hok. rewrite Hs, Hr; [apply firstn_all|].
  rewrite Hp. cbn [run]. destruct (run fw notebook st) as [[[]|e] s1];
    [reflexivity|discriminate].
Qed.




(** Notebook 02 run to its end goes through the specified order: the
    model is trained again inside the quantization step. *)
Example vit_notebook_follows_the_specified_order :
  fst (run demo_fw (ViT.notebook square_norm) 0%Z) = Ok tt /\
  steps (trace demo_fw (ViT.notebook square_norm) 0%Z)
  = [Load; FineTune; Quantize; FineTune; Quantize; Prune; Fuse; Export; Benchmark] /\
  specified_pipeline (steps (trace demo_fw (ViT.notebook square_norm) 0%Z)) = true.
Proof. repeat split; vm_compute; reflexivity. Qed.

(* ================================================================== *)
(** * Part III: further properties of the code *)
(* ================================================================== *)

(** ** The key-value cache against the wrapper without cache *)

Lemma chunks_concat {A} n (bs : list (list A)) :
  Forall (fun b => length b = n) bs -> chunks n (length bs) (concat bs) = bs.
Proof.
  induction 1 as [|b bs Hb _ IH]; [reflexivity|].
  cbn [length concat chunks].
  rewrite firstn_app, skipn_app, Hb, Nat.sub_diag, firstn_all2, skipn_all2 by lia.
  cbn [firstn skipn app]. rewrite app_nil_r, IH. reflexivity.
Qed.

Lemma concat_chunks {A} n c : forall (l : list A),
  length l = (c * n)%nat -> concat (chunks n c l) = l.
Proof.
  induction c as [|c IH]; intros l Hl; cbn [chunks concat].
  - destruct l; [reflexivity|discriminate].
  - rewrite IH by (rewrite length_skipn; lia). apply firstn_skipn.
Qed.

Lemma joined_blocks {A} n m (xs ys : list (list A)) :
  Forall (fun b => length b = n) xs -> Forall (fun b => length b = m) ys ->
  length xs = length ys ->
  Forall (fun b => length b = (n + m)%nat)
         (map (fun p => fst p ++ snd p) (combine xs ys)) /\
  map (skipn n) (map (fun p => fst p ++ snd p) (combine xs ys)) = ys.
Proof.
  intros Hx. revert ys. induction Hx as [|x xs Hx _ IH]; intros ys Hy Hl.
  - destruct ys; [split; [constructor|reflexivity]|discriminate].
  - destruct ys as [|y ys]; [discriminate|].
    inversion Hy as [|? ? Hy1 Hy2]; subst. injection Hl as Hl.
    destruct (IH ys Hy2 Hl) as [IH1 IH2]. cbn [combine map fst snd]. split.
    + constructor; [rewrite length_app; lia|exact IH1].
    + rewrite IH2. f_equal.
      rewrite skipn_app, skipn_all2, Nat.sub_diag by lia. reflexivity.
Qed.

Lemma slice_last_of_cat h x c d0 d1 d2 rest :
  shape h = d0 :: d1 :: d2 :: rest -> shape x = d0 :: 1%nat :: d2 :: rest ->
  well_formed h -> well_formed x ->
  cat_dim1 h x = Ok c -> slice_last_dim1 c = Ok x.
Proof.
  unfold well_formed, cat_dim1. intros Hh Hx Wh Wx. rewrite Hh, Hx in *.
  rewrite Nat.eqb_refl. unfold shape_eqb.
  destruct (list_eq_dec Nat.eq_dec (d2 :: rest) (d2 :: rest)); [|congruence].
  cbn [andb]. intros Hc.
  assert (Hc' : Ok (Tensor (d0 :: (d1 + 1)%nat :: d2 :: rest)
                  (concat (map (fun p => fst p ++ snd p)
                     (combine (chunks (d1 * numel (d2 :: rest)) d0 (data h))
                              (chunks (1 * numel (d2 :: rest)) d0 (data x))))))
               = Ok c) by (destruct d0; exact Hc).
  clear Hc. injection Hc' as <-.
  unfold slice_last_dim1. cbn [shape data].
  set (inner := numel (d2 :: rest)) in *.
  assert (Wh' : length (data h) = (d0 * (d1 * inner))%nat) by exact Wh.
  assert (Wx' : length (data x) = (d0 * (1 * inner))%nat) by exact Wx.
  replace (Nat.min 1 (d1 + 1)) with 1%nat by lia.
  replace ((d1 + 1 - 1) * inner)%nat with (d1 * inner)%nat by nia.
  replace ((d1 + 1) * inner)%nat with (d1 * inner + 1 * inner)%nat by nia.
  destruct (joined_blocks (d1 * inner) (1 * inner)
              (chunks (d1 * inner) d0 (data h)) (chunks (1 * inner) d0 (data x)))
    as [Hlen Hskip].
  { apply chunks_length. lia. }
  { apply chunks_length. lia. }
  { rewrite !chunks_count. reflexivity. }
  set (blocks := map (fun p => fst p ++ snd p)
                   (combine (chunks (d1 * inner) d0 (data h))
                            (chunks (1 * inner) d0 (data x)))) in *.
  assert (Hn : length blocks = d0).
  { unfold blocks. rewrite length_map, length_combine, !chunks_count. lia. }
  change (d2 * numel rest + 0)%nat with (1 * inner)%nat.
  change (d2 * numel rest)%nat with inner. fold blocks.
  rewrite <- Hn at 2. rewrite (chunks_concat _ _ Hlen), Hskip.
  rewrite concat_chunks by lia.
  destruct x as [sx dx]. cbn in Hx |- *. rewrite Hx. reflexivity.
Qed.

(** ** Linear layers work position by position *)

Section RowWise.
Context {A B : Type} (g : list A -> list B) (F O : nat).
Hypothesis Hg : forall row, length (g row) = O.

Lemma rowwise_length n l : length (flat_map g (chunks F n l)) = (n * O)%nat.
Proof.
  revert l. induction n as [|n IH]; intros l; [reflexivity|].
  cbn [chunks flat_map]. rewrite length_app, Hg, IH. reflexivity.
Qed.

Lemma rowwise_app n1 n2 : forall l1 l2,
  length l1 = (n1 * F)%nat ->
  flat_map g (chunks F (n1 + n2) (l1 ++ l2))
  = flat_map g (chunks F n1 l1) ++ flat_map g (chunks F n2 l2).
Proof.
  induction n1 as [|n1 IH]; intros l1 l2 Hl.
  - destruct l1; [reflexivity|discriminate].
  - cbn [Nat.add chunks flat_map].
    rewrite firstn_app, skipn_app.
    replace (F - length l1)%nat with 0%nat by lia.
    cbn [firstn skipn]. rewrite app_nil_r, <- app_assoc. f_equal.
    apply IH. rewrite length_skipn. lia.
Qed.

Lemma chunks_app_first {X} n c (l1 l2 : list X) :
  length l1 = n -> chunks n (S c) (l1 ++ l2) = l1 :: chunks n c l2.
Proof.
  intros Hl. cbn [chunks].
  rewrite firstn_app, skipn_app, Hl, Nat.sub_diag, firstn_all2, skipn_all2 by lia.
  cbn [firstn skipn app]. rewrite app_nil_r. reflexivity.
Qed.

Lemma rowwise_cat d0 n1 n2 : forall dh dx,
  length dh = (d0 * (n1 * F))%nat -> length dx = (d0 * (n2 * F))%nat ->
  flat_map g (chunks F (d0 * (n1 + n2))
                (concat (map (fun p => fst p ++ snd p)
                   (combine (chunks (n1 * F) d0 dh) (chunks (n2 * F) d0 dx)))))
  = concat (map (fun p => fst p ++ snd p)
      (combine (chunks (n1 * O) d0 (flat_map g (chunks F (d0 * n1) dh)))
               (chunks (n2 * O) d0 (flat_map g (chunks F (d0 * n2) dx))))).
Proof.
  induction d0 as [|d0 IH]; intros dh dx Hh Hx; [reflexivity|].
  pose proof (firstn_skipn (n1 * F) dh) as Eh.
  pose proof (firstn_skipn (n2 * F) dx) as Ex.
  assert (Lbh : length (firstn (n1 * F) dh) = (n1 * F)%nat)
    by (rewrite length_firstn; lia).
  assert (Lbx : length (firstn (n2 * F) dx) = (n2 * F)%nat)
    by (rewrite length_firstn; lia).
  assert (Ldh : length (skipn (n1 * F) dh) = (d0 * (n1 * F))%nat)
    by (rewrite length_skipn; lia).
  assert (Ldx : length (skipn (n2 * F) dx) = (d0 * (n2 * F))%nat)
    by (rewrite length_skipn; lia).
  revert Eh Ex Lbh Lbx Ldh Ldx.
  generalize (firstn (n1 * F) dh) (skipn (n1 * F) dh)
             (firstn (n2 * F) dx) (skipn (n2 * F) dx).
  intros bh dh' bx dx' <- <- Lbh Lbx Ldh Ldx. clear Hh Hx.
  rewrite (chunks_app_first (n1 * F) d0 bh dh' Lbh),
          (chunks_app_first (n2 * F) d0 bx dx' Lbx).
  cbn [combine map concat fst snd].
  replace (S d0 * (n1 + n2))%nat with (n1 + (n2 + d0 * (n1 + n2)))%nat by lia.
  rewrite <- app_assoc.
  rewrite (rowwise_app n1 _ bh _ Lbh), (rowwise_app n2 _ bx _ Lbx).
  rewrite (IH dh' dx' Ldh Ldx).
  replace (S d0 * n1)%nat with (n1 + d0 * n1)%nat by lia.
  replace (S d0 * n2)%nat with (n2 + d0 * n2)%nat by lia.
  rewrite (rowwise_app n1 _ bh _ Lbh), (rowwise_app n2 _ bx _ Lbx).
  rewrite !chunks_app_first by apply rowwise_length.
  cbn [combine map concat fst snd]. rewrite <- app_assoc. reflexivity.
Qed.

End RowWise.

Lemma numel_app l f : numel (l ++ [f]) = (numel l * f)%nat.
Proof.
  induction l as [|a l IH]; cbn [app numel fold_right].
  - lia.
  - fold (numel (l ++ [f])). fold (numel l). rewrite IH. lia.
Qed.

Lemma length_map2 {X Y Z} (f : X -> Y -> Z) l l' :
  length (map2 f l l') = Nat.min (length l) (length l').
Proof.
  revert l'. induction l as [|a l IH]; intros [|b l']; cbn; auto.
Qed.

Lemma cat_dim1_joined a b d0 a1 b1 ra :
  shape a = d0 :: a1 :: ra -> shape b = d0 :: b1 :: ra ->
  cat_dim1 a b
  = Ok (Tensor (d0 :: (a1 + b1)%nat :: ra)
          (concat (map (fun p => fst p ++ snd p)
             (combine (chunks (a1 * numel ra) d0 (data a))
                      (chunks (b1 * numel ra) d0 (data b)))))).
Proof.
  intros Ha Hb. unfold cat_dim1. rewrite Ha, Hb.
  assert (E : Nat.eqb d0 d0 && shape_eqb ra ra = true).
  { rewrite Nat.eqb_refl. unfold shape_eqb.
    destruct (list_eq_dec Nat.eq_dec ra ra); [reflexivity|congruence]. }
  destruct d0; rewrite E; reflexivity.
Qed.

(** A linear layer works position by position. *)
Lemma linear_position_wise in_features weight bias m :
  position_wise (fun _ => linear in_features weight bias) m.
Proof.
  intros h x c kh kc d0 d1 d1' d2 rest Hh Hx Wh Wx Hc Hkh Hkc.
  set (T := d2 :: rest) in *.
  assert (HT : T <> []) by discriminate.
  pose proof (app_removelast_last 0%nat HT) as ET.
  set (mid := removelast T) in *. set (f := last T 0%nat) in *.
  assert (Hinner : numel T = (numel mid * f)%nat)
    by (rewrite ET at 1; apply numel_app).
  rewrite (cat_dim1_joined h x d0 d1 d1' T Hh Hx) in Hc. injection Hc as <-.
  unfold linear in *. rewrite Hh in Hkh. rewrite Hx.
  cbn [shape data] in Hkc.
  assert (Hlast : forall a b, last (a :: b :: T) 0%nat = f).
  { intros a b. unfold f, T. reflexivity. }
  assert (Hlead : forall a b, removelast (a :: b :: T) = a :: b :: mid).
  { intros a b. unfold mid, T. reflexivity. }
  rewrite Hlast, Hlead in *.
  destruct (Nat.eqb_spec f in_features) as [Hf|]; [|discriminate].
  injection Hkh as <-. injection Hkc as <-.
  eexists. split; [reflexivity|].
  set (O := Nat.min (length weight) (length bias)).
  set (g := fun row => map2 (fun w b => (dot row w + b)%Q) weight bias).
  assert (Hg : forall row, length (g row) = O)
    by (intros row; unfold g, O; apply length_map2).
  match goal with
  | |- cat_dim1 ?a ?b = _ =>
      rewrite (cat_dim1_joined a b d0 d1 d1' (mid ++ [O]));
        [|reflexivity|reflexivity]
  end.
  cbn [shape data]. do 2 f_equal.
  change (d2 * numel rest)%nat with (numel T).
  rewrite numel_app, Hinner, Hf.
  change (numel (d0 :: d1 :: mid)) with (d0 * (d1 * numel mid))%nat.
  change (numel (d0 :: d1' :: mid)) with (d0 * (d1' * numel mid))%nat.
  change (numel (d0 :: (d1 + d1')%nat :: mid))
    with (d0 * ((d1 + d1') * numel mid))%nat.
  rewrite !Nat.mul_assoc.
  replace (d0 * (d1 + d1') * numel mid)%nat
    with (d0 * (d1 * numel mid + d1' * numel mid))%nat by lia.
  rewrite <- !(Nat.mul_assoc d0).
  symmetry. apply (rowwise_cat g in_features O Hg).
  - unfold well_formed in Wh. rewrite Wh, Hh.
    change (numel (d0 :: d1 :: T)) with (d0 * (d1 * numel T))%nat.
    rewrite Hinner, Hf. lia.
  - unfold well_formed in Wx. rewrite Wx, Hx.
    change (numel (d0 :: d1' :: T)) with (d0 * (d1' * numel T))%nat.
    rewrite Hinner, Hf. lia.
Qed.

Section CacheCorrect.
Import LLM.
Variable mf : handle -> tensor -> result tensor.

Lemma forward_fresh b h q k v :
  mf (query b) h = Ok q -> mf (key b) h = Ok k -> mf (value b) h = Ok v ->
  run (attn_fw mf) (forward h)
      {| base := b; cached_key := None; cached_value := None |}
  = (Ok (q, Some k, Some v),
     {| base := b; cached_key := Some k; cached_value := Some v |}).
Proof.
  intros Hq Hk Hv. unfold forward, call_module.
  cbn [run attn_fw fw_call base cached_key cached_value set_cached_key
       set_cached_value].
  rewrite Hq. cbn [run attn_fw fw_call base cached_key]. rewrite Hk.
  cbn [run attn_fw fw_call base cached_key]. rewrite Hv. reflexivity.
Qed.

Lemma forward_cached self h q last k v ck cv ck' cv' :
  cached_key self = Some ck -> cached_value self = Some cv ->
  mf (query (base self)) h = Ok q ->
  slice_last_dim1 h = Ok last ->
  mf (key (base self)) last = Ok k ->
  mf (value (base self)) last = Ok v ->
  cat_dim1 ck k = Ok ck' -> cat_dim1 cv v = Ok cv' ->
  run (attn_fw mf) (forward h) self
  = (Ok (q, Some ck', Some cv'),
     {| base := base self; cached_key := Some ck'; cached_value := Some cv' |}).
Proof.
  intros Hck Hcv Hq Hs Hk Hv Hck' Hcv'. unfold forward, call_module.
  autorewrite with run. cbn.
  rewrite Hq. autorewrite with run. rewrite Hck.
  autorewrite with run. rewrite Hs.
  autorewrite with run. cbn. rewrite Hk.
  autorewrite with run. cbn. rewrite Hv.
  autorewrite with run. cbn. rewrite Hck. cbn. rewrite Hck'.
  autorewrite with run. cbn. rewrite Hcv. cbn. rewrite Hcv'.
  autorewrite with run. cbn. reflexivity.
Qed.

Lemma uncached_forward {St} (fw : handler St) (b : QuantizedAttention) h st
  (q k v : tensor) :
  fw_call fw (CallModule (query b) h) st = (Ok q, st) ->
  fw_call fw (CallModule (key b) h) st = (Ok k, st) ->
  fw_call fw (CallModule (value b) h) st = (Ok v, st) ->
  run fw (QuantizedAttention_forward b h) st = (Ok (q, k, v), st).
Proof.
  intros Hq Hk Hv. unfold QuantizedAttention_forward, call_module.
  cbn [run]. rewrite Hq, Hk, Hv. reflexivity.
Qed.

(** [X1] The key-value cache is right for an input that grows by one
    position per call.  On a new instance, [forward] returns what the
    wrapper without cache returns on the same input, and the cache holds
    the key and the value of that input.  When the cache holds the key
    and the value of [h], the key and value layers work position by
    position, and the next input is [h] with one more position, then
    [forward] on it returns the query, key and value of the whole new
    input, that is what the wrapper without cache returns, though it
    projects the last position only; and the cache holds the key and
    value of the new input. *)
Theorem X1_cache_matches_full_projection (b : QuantizedAttention) :
  position_wise mf (key b) -> position_wise mf (value b) ->
  (forall h q k v,
     run (attn_fw mf) (QuantizedAttention_forward b h)
         {| base := b; cached_key := None; cached_value := None |}
     = (Ok (q, k, v), {| base := b; cached_key := None; cached_value := None |}) ->
     exists self',
       run (attn_fw mf) (forward h)
           {| base := b; cached_key := None; cached_value := None |}
       = (Ok (q, Some k, Some v), self') /\
       base self' = b /\ in_sync mf self' h) /\
  (forall self h x h' d0 d1 d2 rest q k v,
     base self = b -> in_sync mf self h ->
     shape h = d0 :: d1 :: d2 :: rest -> shape x = d0 :: 1%nat :: d2 :: rest ->
     well_formed h -> well_formed x ->
     cat_dim1 h x = Ok h' ->
     run (attn_fw mf) (QuantizedAttention_forward b h') self
     = (Ok (q, k, v), self) ->
     exists self',
       run (attn_fw mf) (forward h') self = (Ok (q, Some k, Some v), self') /\
       base self' = b /\ in_sync mf self' h').
Proof.
  intros Pk Pv. split.
  - intros h q k v Hu.
    unfold QuantizedAttention_forward, call_module in Hu.
    cbn [run attn_fw fw_call] in Hu.
    destruct (mf (query b) h) as [q0|] eqn:Hq; [|discriminate].
    destruct (mf (key b) h) as [k0|] eqn:Hk; [|discriminate].
    destruct (mf (value b) h) as [v0|] eqn:Hv; [|discriminate].
    injection Hu as -> -> ->.
    eexists. split; [apply forward_fresh; eassumption|].
    split; [reflexivity|]. exists k, v. cbn. auto.
  - intros self h x h' d0 d1 d2 rest q k v Hb (kh & vh & Hck & Hcv & Hkh & Hvh)
      Hh Hx Wh Wx Hcat Hu. subst b.
    unfold QuantizedAttention_forward, call_module in Hu.
    cbn [run attn_fw fw_call] in Hu.
    destruct (mf (query (base self)) h') as [q0|] eqn:Hq; [|discriminate].
    destruct (mf (key (base self)) h') as [k0|] eqn:Hk; [|discriminate].
    destruct (mf (value (base self)) h') as [v0|] eqn:Hv; [|discriminate].
    injection Hu as -> -> ->.
    destruct (Pk h x h' kh k d0 d1 1%nat d2 rest Hh Hx Wh Wx Hcat Hkh Hk)
      as (kx & Hkx & Ck).
    destruct (Pv h x h' vh v d0 d1 1%nat d2 rest Hh Hx Wh Wx Hcat Hvh Hv)
      as (vx & Hvx & Cv).
    pose proof (slice_last_of_cat _ _ _ _ _ _ _ Hh Hx Wh Wx Hcat) as Hs.
    eexists. split.
    + eapply forward_cached; eassumption.
    + split; [reflexivity|]. exists k, v. cbn. auto.
Qed.

End CacheCorrect.

Lemma projections_position_wise m : position_wise projections m.
Proof.
  destruct m as [[|[|n]]].
  - exact (linear_position_wise 2 [[1%Q; 0%Q]; [0%Q; 1%Q]] [0%Q; 0%Q] (Obj 0)).
  - exact (linear_position_wise 2 [[1%Q; 1%Q]] [0%Q] (Obj 1)).
  - exact (linear_position_wise 2 [[2%Q; 0%Q]; [0%Q; 2%Q]; [1%Q; 1%Q]]
             [1%Q; 1%Q; 1%Q] (Obj (S (S n)))).
Qed.

Lemma X1_witness :
  exists self',
    run (attn_fw projections) (LLM.forward two_positions) served_one_position
    = (Ok (two_positions,
           Some (Tensor [1;2;1] [12%Q; 3%Q]),
           Some (Tensor [1;2;3] [11%Q; 15%Q; 13%Q; 3%Q; 5%Q; 4%Q])), self') /\
    LLM.base self' = attn0 /\ in_sync projections self' two_positions.
Proof.
  apply (proj2 (X1_cache_matches_full_projection projections attn0
                  (projections_position_wise _) (projections_position_wise _))
           served_one_position one_position next_position two_positions
           1%nat 1%nat 2%nat []); try reflexivity.
  exists (Tensor [1;1;1] [12%Q]), (Tensor [1;1;3] [11%Q; 15%Q; 13%Q]).
  repeat split.
Defined.

(** A linear layer of two input features refuses an input of one
    feature, whatever the number of positions. *)
Example linear_checks_width :
  projections (Obj 1) h_two
  = Raise (Exn "RuntimeError" "mat1 and mat2 shapes cannot be multiplied").
Proof. reflexivity. Qed.

(** ** A call of [forward] that raises *)

(** [X2] A call of [forward] that raises leaves the wrapped layers and
    the cached value as they were.  It leaves the cached key as it was
    too, unless it is the concatenation of the values that failed: the
    cached key has then already been replaced by the longer key, and the
    two caches are out of step.  A first call that raises leaves both
    caches [None]. *)
Theorem X2_failed_call_keeps_cached_value mf self h e self' :
  run (attn_fw mf) (LLM.forward h) self = (Raise e, self') ->
  LLM.base self' = LLM.base self /\
  LLM.cached_value self' = LLM.cached_value self /\
  (LLM.cached_key self' = LLM.cached_key self \/
   exists ck last k v ck',
     LLM.cached_key self = Some ck /\
     slice_last_dim1 h = Ok last /\
     mf (LLM.key (LLM.base self)) last = Ok k /\
     mf (LLM.value (LLM.base self)) last = Ok v /\
     cat_dim1 ck k = Ok ck' /\
     LLM.cat_cached (LLM.cached_value self) v = Raise e /\
     LLM.cached_key self' = Some ck') /\
  (LLM.cached_key self = None -> LLM.cached_key self' = None).
Proof.
  intros Hx. unfold LLM.forward, call_module in Hx.
  destruct (LLM.cached_key self) as [ck|] eqn:Hk.
  - run_cases Hx; try rewrite Hk in Hx; run_cases Hx;
      try rewrite Hk in *; run_cases Hx.
    all: try discriminate.
    all: inversion Hx; subst; clear Hx; cbn.
    all: try (repeat split; auto; discriminate).
    split; [reflexivity|]. split; [reflexivity|]. split; [|discriminate].
    right. exists ck, a0, a1, a2, a3. cbn in E3. repeat split; auto.
  - run_cases Hx; try rewrite Hk in Hx; run_cases Hx.
    all: try discriminate.
    all: inversion Hx; subst; clear Hx; cbn; auto.
Qed.

Lemma X2_witness :
  let self := {| LLM.base := attn0;
                 LLM.cached_key := Some (Tensor [1;1;1] [0%Q]);
                 LLM.cached_value := Some (Tensor [1;1;2] [1%Q; 2%Q]) |} in
  let self' := snd (run (attn_fw narrow_key_layer)
                        (LLM.forward (Tensor [1;1;3] [1%Q; 2%Q; 3%Q])) self) in
  LLM.cached_value self' = LLM.cached_value self /\
  LLM.cached_key self' = Some (Tensor [1;2;1] [0%Q; 0%Q]).
Proof.
  intros self self'.
  destruct (X2_failed_call_keeps_cached_value narrow_key_layer self
              (Tensor [1;1;3] [1%Q; 2%Q; 3%Q])
              (Exn "RuntimeError" "Sizes of tensors must match except in dimension 1")
              self' eq_refl) as (_ & Hv & _ & _).
  split; [exact Hv|reflexivity].
Defined.

(** The state of the witness is reached by a first call on an input of
    two features. *)
Example narrow_key_first_call :
  run (attn_fw narrow_key_layer) (LLM.forward (Tensor [1;1;2] [1%Q; 2%Q]))
      {| LLM.base := attn0; LLM.cached_key := None; LLM.cached_value := None |}
  = (Ok (Tensor [1;1;2] [1%Q; 2%Q], Some (Tensor [1;1;1] [0%Q]),
         Some (Tensor [1;1;2] [1%Q; 2%Q])),
     {| LLM.base := attn0;
        LLM.cached_key := Some (Tensor [1;1;1] [0%Q]);
        LLM.cached_value := Some (Tensor [1;1;2] [1%Q; 2%Q]) |}).
Proof. reflexivity. Qed.

(** ** Layer fusion, again *)

Lemma replace_bn_twice m : replace_bn (replace_bn m) = replace_bn m.
Proof.
  induction m as [c b s ch IH] using nn_module_induction.
  cbn [replace_bn]. f_equal. rewrite map_map.
  induction ch as [|[n child] ch IHch]; [reflexivity|].
  destruct IH as [Hc Hrest]. cbn [map]. f_equal; [|apply IHch, Hrest].
  destruct (is_BatchNorm2d child) eqn:Hb; [reflexivity|].
  destruct (replace_bn_head child) as (_ & Hb' & _). rewrite Hb', Hb, Hc.
  reflexivity.
Qed.

Lemma replace_bn_unique_names m : unique_names m -> unique_names (replace_bn m).
Proof.
  induction m as [c b s ch IH] using nn_module_induction. intros Hu.
  destruct (unique_names_children _ _ _ _ Hu) as [Hnd Hall].
  cbn [replace_bn unique_names]. split.
  - rewrite map_map.
    replace (map (fun x : string * nn_module =>
                    fst (let (n, child) := x in
                         (n, if is_BatchNorm2d child then ViT.Identity
                             else replace_bn child))) ch)
      with (map fst ch); [exact Hnd|].
    apply map_ext. intros [n child]. reflexivity.
  - clear Hnd Hu. induction ch as [|[n child] ch IHch]; [exact I|].
    destruct IH as [Hc Hrest]. destruct Hall as [Hu Hall]. cbn [map]. split.
    + destruct (is_BatchNorm2d child); [cbn; split; [constructor|exact I]|auto].
    + apply IHch; assumption.
Qed.

Lemma replace_bn_fixed m : replace_bn m = m <-> has_bn_below m = false.
Proof.
  induction m as [c b s ch IH] using nn_module_induction.
  cbn [replace_bn has_bn_below].
  assert (H : map (fun item : string * nn_module =>
                     let (n, child) := item in
                     (n, if is_BatchNorm2d child then ViT.Identity
                         else replace_bn child)) ch = ch
              <-> existsb (fun item : string * nn_module =>
                             is_BatchNorm2d (snd item) || has_bn_below (snd item)) ch
                  = false).
  { induction ch as [|[n child] ch IHch]; [split; reflexivity|].
    destruct IH as [Hc Hrest]. specialize (IHch Hrest).
    cbn [map existsb snd]. rewrite orb_false_iff, orb_false_iff. split.
    - intros Heq. injection Heq as Hchild Htail.
      destruct (is_BatchNorm2d child) eqn:Hb.
      + rewrite <- Hchild in Hb. discriminate.
      + repeat split; [apply Hc, Hchild|apply IHch, Htail].
    - intros [[Hb Hbelow] Htail]. rewrite Hb.
      f_equal; [f_equal; apply Hc, Hbelow|apply IHch, Htail]. }
  split.
  - intros Heq. injection Heq as Heq. apply H, Heq.
  - intros Hf. f_equal. apply H, Hf.
Qed.

(** [X3] Fusing twice is fusing once: on a module tree (the names of the
    children of a module being the keys of a dict),
    [fuse_bn_recursively] leaves what it returned unchanged when it is run
    again.  The module it is called on is never replaced itself: it keeps
    its class, also when it is a [BatchNorm2d], and its own state. *)
Theorem X3_fuse_is_idempotent m :
  unique_names m ->
  ViT.fuse_bn_recursively (ViT.fuse_bn_recursively m) = ViT.fuse_bn_recursively m /\
  unique_names (ViT.fuse_bn_recursively m) /\
  class_name (ViT.fuse_bn_recursively m) = class_name m /\
  is_BatchNorm2d (ViT.fuse_bn_recursively m) = is_BatchNorm2d m /\
  state (ViT.fuse_bn_recursively m) = state m.
Proof.
  intros Hu. rewrite (fuse_is_replace_bn m Hu).
  pose proof (replace_bn_unique_names m Hu) as Hu'.
  rewrite (fuse_is_replace_bn _ Hu'), replace_bn_twice.
  destruct (replace_bn_head m) as (Hc & Hb & Hs & _). auto.
Qed.

Lemma X3_witness :
  ViT.fuse_bn_recursively (ViT.fuse_bn_recursively conv_bn_model)
  = ViT.fuse_bn_recursively conv_bn_model.
Proof.
  apply (X3_fuse_is_idempotent conv_bn_model).
  cbn. repeat split; repeat constructor; cbn; intuition discriminate.
Defined.

(** [X4] On a module tree, [fuse_bn_recursively] returns the model as it
    was exactly when no module below the root is a [BatchNorm2d]. *)
Theorem X4_fuse_changes_only_batchnorm_models m :
  unique_names m ->
  (ViT.fuse_bn_recursively m = m <-> has_bn_below m = false).
Proof.
  intros Hu. rewrite (fuse_is_replace_bn m Hu). apply replace_bn_fixed.
Qed.

Lemma X4_witness :
  ViT.fuse_bn_recursively conv_bn_model <> conv_bn_model /\
  ViT.fuse_bn_recursively (ViT.fuse_bn_recursively conv_bn_model)
  = ViT.fuse_bn_recursively conv_bn_model.
Proof.
  assert (Hu : unique_names conv_bn_model).
  { cbn. repeat split; repeat constructor; cbn; intuition discriminate. }
  assert (Hu' : unique_names (ViT.fuse_bn_recursively conv_bn_model)).
  { cbn. repeat split; repeat constructor; cbn; intuition discriminate. }
  split.
  - intros H. apply (X4_fuse_changes_only_batchnorm_models _ Hu) in H.
    discriminate.
  - apply (X4_fuse_changes_only_batchnorm_models _ Hu'). reflexivity.
Defined.

(** ** Pruning, again *)

Lemma prune_loop_skips {fw : handler (list vit_module)} norm2 prune_ratio model :
  (forall a, ~ In (AttentionModule a) model) ->
  forall idx,
    run fw (for_each idx (ViT.prune_module norm2 prune_ratio)) model = (Ok tt, model).
Proof.
  intros Hno. induction idx as [|i idx IH]; [reflexivity|].
  cbn [for_each run]. unfold ViT.prune_module at 1. cbn [run].
  destruct (nth_error model i) as [[a|c]|] eqn:Ei; cbn [run]; try exact IH.
  exfalso. apply (Hno a). eapply nth_error_In, Ei.
Qed.

(** [X5] On a model without attention module, the empty model among
    them, [prune_attention_heads] returns and changes nothing. *)
Theorem X5_prune_without_attention_is_noop (fw : handler (list vit_module))
  norm2 prune_ratio model :
  (forall a, ~ In (AttentionModule a) model) ->
  run fw (ViT.prune_attention_heads norm2 prune_ratio) model = (Ok tt, model).
Proof.
  intros Hno. unfold ViT.prune_attention_heads. cbn [run].
  apply prune_loop_skips. exact Hno.
Qed.

Lemma X5_witness :
  run no_fw (ViT.prune_attention_heads square_norm (PFloat (3 # 10)))
      [OtherModule "VisionTransformer"; OtherModule "Linear"]
  = (Ok tt, [OtherModule "VisionTransformer"; OtherModule "Linear"]).
Proof.
  apply X5_prune_without_attention_is_noop.
  intros a [H|[H|[]]]; discriminate.
Defined.

Lemma prune_attention_raises (fw : handler (list vit_module)) norm2 prune_ratio ms :
  (exists a, In (AttentionModule a) ms) ->
  (forall a, In (AttentionModule a) ms -> ndim (qkv_weight a) = 2%nat) ->
  exists e, run fw (ViT.prune_attention_heads norm2 prune_ratio) ms = (Raise e, ms).
Proof.
  intros [a Ha] H2d. unfold ViT.prune_attention_heads. cbn [run].
  apply prune_loop_raises; [exact H2d|].
  destruct (In_nth_error _ _ Ha) as [i Hi]. exists i, a. split; [|exact Hi].
  apply in_seq. split; [lia|]. cbn. apply nth_error_Some. congruence.
Qed.

(** The pruning cell on a model that has an attention module. *)
Lemma cell_pruning_raises {St} (fw : handler St) norm2 model_quantized st :
  (forall m s ms s',
     fw_call fw (Modules m) s = (Ok ms, s') ->
     (exists a, In (AttentionModule a) ms) /\
     (forall a, In (AttentionModule a) ms -> ndim (qkv_weight a) = 2%nat)) ->
  is_ok (fst (run fw (ViT.cell_pruning norm2 model_quantized) st)) = false.
Proof.
  intros Hm. unfold ViT.cell_pruning, modules, set_modules. cbn [run].
  destruct (fw_call fw (Modules model_quantized) st) as [[ms|e] s1] eqn:Ems;
    [|reflexivity].
  destruct (Hm _ _ _ _ Ems) as [Ha H2d].
  destruct (prune_attention_raises no_fw norm2 (PFloat (3 # 10)) ms Ha H2d)
    as [e He].
  rewrite He. cbn [run].
  destruct (fw_call fw (SetModules model_quantized ms) s1) as [[u|e'] s2];
    reflexivity.
Qed.

Lemma upto_pruning_raises {St} (fw : handler St) norm2 st :
  (forall m s ms s',
     fw_call fw (Modules m) s = (Ok ms, s') ->
     (exists a, In (AttentionModule a) ms) /\
     (forall a, In (AttentionModule a) ms -> ndim (qkv_weight a) = 2%nat)) ->
  is_ok (fst (run fw (ViT.upto_pruning norm2) st)) = false.
Proof.
  intros Hm. unfold ViT.upto_pruning. cbn [run].
  destruct (run fw ViT.upto_qaf st) as [[[model mq]|e] s1]; [|reflexivity].
  cbn [run].
  pose proof (cell_pruning_raises fw norm2 mq s1 Hm) as Hc.
  destruct (run fw (ViT.cell_pruning norm2 mq) s1) as [[u|e] s2];
    [discriminate|reflexivity].
Qed.

(** [X6] On a framework whose models have an attention module with a
    two-dimensional [qkv] weight, as the Vision Transformers of timm
    have, notebook 02 never runs to its end: whatever else the framework
    does, the notebook ends with an exception, at the latest in the
    pruning cell, and the cells from "7. Layer Fusion" on are never
    begun. *)
Theorem X6_vit_notebook_stops_at_pruning {St} (fw : handler St) norm2 st :
  (forall m s ms s',
     fw_call fw (Modules m) s = (Ok ms, s') ->
     (exists a, In (AttentionModule a) ms) /\
     (forall a, In (AttentionModule a) ms -> ndim (qkv_weight a) = 2%nat)) ->
  (exists e, fst (run fw (ViT.notebook norm2) st) = Raise e) /\
  exists n, n <= 6 /\
    cells (trace fw (ViT.notebook norm2) st) = firstn n (map fst vit_cells).
Proof.
  intros Hm.
  destruct (vit_in_order fw norm2 st) as (n & Hn & Hc & Hbefore & Hall).
  assert (Hn6 : n <= 6).
  { destruct (le_lt_dec n 6) as [H|H]; [exact H|].
    destruct (Hbefore 6 H) as [Hok _].
    pose proof (upto_pruning_raises fw norm2 st Hm) as Hp.
    apply (f_equal is_ok) in Hok. cbn [ViT.prefix] in Hok.
    rewrite is_ok_erased, Hp in Hok.
    discriminate. }
  split.
  - destruct (fst (run fw (ViT.notebook norm2) st)) as [[]|e] eqn:Hr; [|eauto].
    specialize (Hall eq_refl). cbn in Hall. lia.
  - exists n. auto.
Qed.

Lemma X6_witness :
  (exists e, fst (run attention_fw (ViT.notebook square_norm) 0%Z) = Raise e) /\
  exists n, n <= 6 /\
    cells (trace attention_fw (ViT.notebook square_norm) 0%Z)
    = firstn n (map fst vit_cells).
Proof.
  apply X6_vit_notebook_stops_at_pruning.
  intros m s ms s' H. cbn in H. injection H as <- _. split.
  - exists two_heads. right. left. reflexivity.
  - intros a [H|[H|[]]]; [discriminate|]. injection H as <-. reflexivity.
Defined.

(** On that framework the notebook gets as far as the pruning cell. *)
Example vit_notebook_on_attention :
  run attention_fw (ViT.notebook square_norm) 0%Z
  = (Raise (Exn "RuntimeError"
                "output with shape doesn't match the broadcast shape"), 0%Z) /\
  cells (trace attention_fw (ViT.notebook square_norm) 0%Z)
  = firstn 6 (map fst vit_cells).
Proof. split; vm_compute; reflexivity. Qed.

(** ** Where the framework is called *)

Section Placement.
Context {St : Type} (fw : handler St) (c : ctx) (ok : fwE -> bool -> bool).

Lemma placed_trace {R} (p : prog St R) : forall inside,
  placed_in c ok inside p ->
  forall st d rest, (0 <? d)%nat = inside ->
    placed c ok d (trace fw p st ++ rest) = placed c ok d rest.
Proof.
  induction p as [R r|X R m IHm k IHk|e|R y| |s|R c' body IH|R body IHb h IHh|title];
    cbn [placed_in trace]; intros inside Hp st d rest Hd; try reflexivity.
  - destruct Hp as [Hm Hk]. rewrite <- app_assoc, (IHm _ Hm) by exact Hd.
    destruct (run fw m st) as [[v|x] st1]; [|reflexivity].
    apply (IHk _ _ (Hk v)). exact Hd.
  - cbn [app placed]. rewrite Hd, Hp. reflexivity.
  - cbn [app placed]. rewrite <- app_assoc.
    destruct (ctx_eqb c c') eqn:Ec.
    + rewrite (IH _ Hp) by (rewrite orb_true_r; reflexivity).
      cbn [app placed]. rewrite Ec. reflexivity.
    + rewrite (IH _ Hp) by (rewrite orb_false_r; exact Hd).
      cbn [app placed]. rewrite Ec. reflexivity.
  - destruct Hp as [Hb Hh]. rewrite <- app_assoc, (IHb _ Hb) by exact Hd.
    destruct (run fw body st) as [[v|x] st1]; [reflexivity|].
    apply (IHh _ _ (Hh x)). exact Hd.
Qed.

Lemma placed_program {R} (p : prog St R) st :
  placed_in c ok false p -> placed c ok 0 (trace fw p st) = true.
Proof.
  intros Hp. rewrite <- (app_nil_r (trace fw p st)).
  rewrite (placed_trace p false Hp) by reflexivity. reflexivity.
Qed.

Lemma lift_placed_in inside {A} (r : result A) :
  placed_in c ok inside (@lift St A r).
Proof. destruct r; exact I. Qed.

Lemma for_each_placed_in inside {A} (xs : list A) (body : A -> prog St unit) :
  (forall x, placed_in c ok inside (body x)) ->
  placed_in c ok inside (for_each xs body).
Proof. intros Hb. induction xs as [|x xs IH]; cbn; auto. Qed.

Lemma for_fold_placed_in inside {A B} (xs : list A) (body : B -> A -> prog St B) :
  (forall acc x, placed_in c ok inside (body acc x)) ->
  forall acc, placed_in c ok inside (for_fold xs acc body).
Proof. intros Hb. induction xs as [|x xs IH]; intros acc; cbn; auto. Qed.

End Placement.

(** Goals [placed_in c ok inside p], by the structure of [p]. *)
Ltac prove_placed :=
  repeat first
    [ exact I
    | reflexivity
    | assumption
    | apply lift_placed_in
    | apply for_each_placed_in; intros
    | apply for_fold_placed_in; intros
    | match goal with
      | H : forall x, placed_in _ _ _ (?f x) |- placed_in _ _ _ (?f _) => apply H
      | |- _ /\ _ => split
      | |- forall _, _ => intros
      | |- placed_in _ _ _ (match ?x with _ => _ end) => destruct x
      end
    | progress cbn [placed_in orb ctx_eqb]
    | match goal with
      | |- placed_in _ _ _ ?p => let h := head_of p in progress unfold h
      end ].

(** [X7] Whatever the framework does, in [train_epoch] and in
    [fine_tune] every forward pass and every loss is computed inside a
    block [with autocast()], and the gradients are zeroed, scaled and
    computed and the optimizer and the scaler stepped outside of such a
    block; an exception does not change that: the block is left before
    anything else happens. *)
Theorem X7_mixed_precision_placement {St} (fw : handler St) (st : St) :
  (forall model loader optimizer scaler criterion,
     placed Autocast mixed_precision 0
       (trace fw (ViT.train_epoch model loader optimizer scaler criterion) st)
     = true) /\
  (forall model train_dataloader optimizer epochs,
     placed Autocast mixed_precision 0
       (trace fw (LLM.fine_tune model train_dataloader optimizer epochs) st)
     = true).
Proof.
  split; intros; apply placed_program; prove_placed.
Qed.

(** [X8] Whatever the framework does, [validate], [apply_ptq], the two
    [benchmark] functions, [dynamic_quantized_inference] and
    [optimize_for_mobile] train nothing: they never zero or compute
    gradients, never step an optimizer or a scaler, never put a model in
    training mode; and all but the last, which traces the model, run
    every forward pass inside a block [with torch.no_grad()].
    [benchmark] of notebook 01 calls the [model] it is given inside
    [no_grad]. *)
Theorem X8_inference_trains_nothing {St} (fw : handler St) (st : St) :
  (forall model loader criterion,
     placed NoGrad inference_only 0
       (trace fw (ViT.validate model loader criterion) st) = true) /\
  (forall train_dataloader model,
     placed NoGrad inference_only 0
       (trace fw (LLM.apply_ptq train_dataloader model) st) = true) /\
  (forall model input_shape num_runs,
     placed NoGrad inference_only 0
       (trace fw (ViT.benchmark model input_shape num_runs) st) = true) /\
  (forall model input_ids runs,
     (forall x, placed_in NoGrad inference_only true (model x)) ->
     placed NoGrad inference_only 0
       (trace fw (LLM.benchmark model input_ids runs) st) = true) /\
  (forall model input_ids,
     placed NoGrad inference_only 0
       (trace fw (LLM.dynamic_quantized_inference model input_ids) st) = true) /\
  (forall model,
     placed NoGrad (fun e _ => inference_only e true) 0
       (trace fw (ViT.optimize_for_mobile model) st) = true).
Proof.
  repeat split; intros; apply placed_program; prove_placed.
Qed.

Lemma X8_witness :
  placed NoGrad inference_only 0
    (trace demo_fw
       (LLM.benchmark (fun x => LLM.onnx_inference "quantized_gpt2.onnx" x ;; Ret tt)
                      (Tensor [1;1] [0%Q]) 3) 0%Z) = true.
Proof.
  apply (X8_inference_trains_nothing demo_fw 0%Z).
  intros x. prove_placed.
Defined.

(** The placement is one of the code: a backward pass inside the block,
    or a forward pass outside of it, is not placed this way. *)
Example misplaced_backward :
  placed Autocast mixed_precision 0
    [EvEnter Autocast; EvCall (Backward (Tensor [] [0%Q])); EvExit Autocast] = false /\
  placed Autocast mixed_precision 0
    [EvCall (CallModule (Obj 0) (Tensor [] [0%Q]))] = false.
Proof. split; reflexivity. Qed.

(** ** The benchmarks *)

Section TotalFramework.
Context {St : Type}.
Variable ans : forall e : fwE, St -> resp e.
Variable eff : fwE -> St -> St.
Variables enter exit : ctx -> St -> St.

Let fw := total_fw ans eff enter exit.

(** On a framework that does not raise, a program that raises nothing
    of its own returns. *)
Lemma no_throw_returns {R} (p : prog St R) :
  no_throw p -> forall st, exists v st', run fw p st = (Ok v, st').
Proof.
  induction p as [R r|X R m IHm k IHk|e|R y| |s|R c body IH|R body IHb h IHh|title];
    cbn [no_throw run]; intros Hn st; try (eauto; fail); try contradiction.
  - destruct Hn as [Hm Hk]. destruct (IHm Hm st) as (v & st1 & ->).
    apply IHk, Hk.
  - cbn. eauto.
  - destruct (IH Hn (fw_enter fw c st)) as (v & st1 & ->). eauto.
  - destruct Hn as [Hb Hh]. destruct (IHb Hb st) as (v & st1 & ->). eauto.
Qed.

(** A loop whose body returns: the events of the loop are those of the
    iterations, one after the other. *)
Lemma loop_trace {A} (xs : list A) (body : A -> prog St unit) :
  (forall x, no_throw (body x)) ->
  forall st, exists st' blocks,
    run fw (for_each xs body) st = (Ok tt, st') /\
    trace fw (for_each xs body) st = concat blocks /\
    Forall2 (fun x b => exists s, b = trace fw (body x) s) xs blocks.
Proof.
  intros Hb. induction xs as [|x xs IH]; intros st.
  - exists st, []. repeat split. constructor.
  - destruct (no_throw_returns (body x) (Hb x) st) as ([] & st1 & Hx).
    destruct (IH st1) as (st' & blocks & Hr & Ht & Hf).
    exists st', (trace fw (body x) st :: blocks).
    rewrite run_for_each_cons, trace_for_each_cons, Hx, Hr, Ht.
    repeat split. constructor; [eauto|exact Hf].
Qed.

Lemma concat_same {A B} (e : B) (xs : list A) (blocks : list (list B)) :
  Forall2 (fun _ b => b = [e]) xs blocks ->
  concat blocks = repeat e (length xs).
Proof.
  induction 1 as [|x b xs blocks Hb _ IH]; [reflexivity|].
  cbn. rewrite Hb, IH. reflexivity.
Qed.

Lemma forward_loop_trace {A} (xs : list A) (model : handle) (x : tensor) st :
  exists st',
    run fw (for_each xs (fun _ => call_module model x ;; Ret tt)) st = (Ok tt, st') /\
    trace fw (for_each xs (fun _ => call_module model x ;; Ret tt)) st
    = repeat (EvCall (CallModule model x)) (length xs).
Proof.
  destruct (loop_trace xs (fun _ => call_module model x ;; Ret tt)
              (fun _ => conj I (fun _ => I)) st) as (st' & blocks & Hr & Ht & Hf).
  exists st'. split; [exact Hr|]. rewrite Ht. apply concat_same.
  eapply Forall2_impl; [|exact Hf]. intros a b [s ->]. reflexivity.
Qed.

Lemma trace_lift {A} (r : result A) st : trace fw (lift r) st = [].
Proof. destruct r; reflexivity. Qed.

Lemma length_range n : length (range n) = Z.to_nat n.
Proof. unfold range. rewrite length_map, length_seq. reflexivity. Qed.

(** The structure of [benchmark] of notebook 01. *)
Lemma llm_benchmark_runs (model : tensor -> prog St unit) input_ids runs st :
  (forall x, no_throw (model x)) ->
  exists start_time end_time blocks st',
    run fw (LLM.benchmark model input_ids runs) st
    = (py_truediv (py_sub end_time start_time) (PInt runs), st') /\
    trace fw (LLM.benchmark model input_ids runs) st
    = EvCall (FwNum "time.time" []) :: concat (map timed_run blocks)
      ++ [EvCall (FwNum "time.time" [])] /\
    length blocks = Z.to_nat runs /\
    Forall (fun b => exists s, b = trace fw (model input_ids) s) blocks.
Proof.
  intros Hm. unfold LLM.benchmark, fw_num, truediv.
  destruct (loop_trace (range runs) (fun _ => With NoGrad (model input_ids))
              (fun _ => Hm input_ids) (eff (FwNum "time.time" []) st))
    as (st1 & blocks & Hr & Ht & Hf).
  cbn [run trace fw total_fw fw_call]. rewrite Hr, Ht.
  cbn [run trace fw total_fw fw_call]. rewrite run_lift. cbn [trace app].
  assert (Hb : exists bodies, blocks = map timed_run bodies /\
             length bodies = length (range runs) /\
             Forall (fun b => exists s, b = trace fw (model input_ids) s) bodies).
  { clear Hr Ht. induction Hf as [|x b xs blocks [s Hb] _ IH].
    - exists []. repeat split. constructor.
    - destruct IH as (bodies & -> & Hl & Hall).
      exists (trace fw (model input_ids) (enter NoGrad s) :: bodies).
      cbn [map length]. rewrite Hb, Hl. repeat split.
      constructor; [eauto|exact Hall]. }
  destruct Hb as (bodies & -> & Hl & Hall). rewrite length_range in Hl.
  exists (ans (FwNum "time.time" []) st),
         (ans (FwNum "time.time" []) st1), bodies.
  eexists. split; [reflexivity|]. rewrite trace_lift. auto.
Qed.

(** The state a loop leaves when each iteration runs the same body that
    returns: the effect of the body, once per iteration. *)
Lemma loop_state {A} (xs : list A) (body : prog St unit) :
  no_throw body ->
  forall st,
    run fw (for_each xs (fun _ => body)) st
    = (Ok tt, Nat.iter (length xs) (fun s => snd (run fw body s)) st).
Proof.
  intros Hb. induction xs as [|x xs IH]; intros st; [reflexivity|].
  destruct (no_throw_returns body Hb st) as ([] & st1 & Hx).
  rewrite run_for_each_cons, Hx, IH. cbn [length].
  rewrite Nat.iter_succ_r, Hx. reflexivity.
Qed.

(** The structure of [benchmark] of notebook 01: the result is computed
    from the reading of the clock before the runs and the reading after
    them. *)
Lemma llm_benchmark_result (model : tensor -> prog St unit) input_ids runs st :
  (forall x, no_throw (model x)) ->
  let clock := FwNum "time.time" [] in
  let after_runs :=
    Nat.iter (Z.to_nat runs)
             (fun s => snd (run fw (With NoGrad (model input_ids)) s))
             (eff clock st) in
  run fw (LLM.benchmark model input_ids runs) st
  = (py_truediv (py_sub (ans clock after_runs) (ans clock st)) (PInt runs),
     eff clock after_runs).
Proof.
  intros Hm clock after_runs. unfold LLM.benchmark, fw_num, truediv.
  cbn [run fw total_fw fw_call]. fold fw.
  rewrite (loop_state (range runs) (With NoGrad (model input_ids)) (Hm input_ids)).
  rewrite length_range.
  cbn [run fw total_fw fw_call]. rewrite run_lift. reflexivity.
Qed.

End TotalFramework.

Ltac prove_no_throw :=
  repeat first
    [ exact I
    | match goal with
      | |- _ /\ _ => split
      | |- forall _, _ => intros
      | |- no_throw (match ?x with _ => _ end) => destruct x
      end
    | progress cbn [no_throw]
    | match goal with
      | |- no_throw ?p => let h := head_of p in progress unfold h
      end ].

(** [X9] On a framework that does not raise, [benchmark] of notebook 02
    puts the model in evaluation mode, draws one input, creates the two
    events, and inside one block [with torch.no_grad()] runs the model
    on the input 10 times to warm up, records the first event, runs the
    model [num_runs] more times (not at all when [num_runs] is negative)
    and records the second event.  It returns what the framework answers
    to [start_time.elapsed_time(end_time)], asked after the
    synchronization, divided by [num_runs]; so with [num_runs = 0] it
    raises [ZeroDivisionError], after the warm-up runs and the
    synchronization. *)
Theorem X9_vit_benchmark_runs {St} (ans : forall e : fwE, St -> resp e)
  (eff : fwE -> St -> St) (enter exit : ctx -> St -> St)
  model input_shape num_runs st :
  let fw := total_fw ans eff enter exit in
  let rand := FwTensor "torch.rand" [ATuple input_shape] in
  let event := FwObj "torch.cuda.Event" [AKw "enable_timing" (ABool true)] in
  let s1 := eff (ModelEval model) st in
  let t0 := ans rand s1 in
  let s2 := eff rand s1 in
  let x := ans (ToDevice t0) s2 in
  let s3 := eff (ToDevice t0) s2 in
  let start_time := ans event s3 in
  let s4 := eff event s3 in
  let end_time := ans event s4 in
  let s5 := enter NoGrad (eff event s4) in
  let s6 := Nat.iter 10 (eff (CallModule model x)) s5 in
  let s7 := eff (FwUnit "record" [AObj start_time]) s6 in
  let s8 := Nat.iter (Z.to_nat num_runs) (eff (CallModule model x)) s7 in
  let s9 := eff (FwUnit "torch.cuda.synchronize" [])
                (exit NoGrad (eff (FwUnit "record" [AObj end_time]) s8)) in
  let elapsed_time := FwNum "elapsed_time" [AObj start_time; AObj end_time] in
  run fw (ViT.benchmark model input_shape num_runs) st
  = (py_truediv (ans elapsed_time s9) (PInt num_runs), eff elapsed_time s9) /\
  trace fw (ViT.benchmark model input_shape num_runs) st
  = [EvCall (ModelEval model);
     EvCall rand;
     EvCall (ToDevice t0);
     EvCall event;
     EvCall event;
     EvEnter NoGrad]
    ++ repeat (EvCall (CallModule model x)) 10
    ++ [EvCall (FwUnit "record" [AObj start_time])]
    ++ repeat (EvCall (CallModule model x)) (Z.to_nat num_runs)
    ++ [EvCall (FwUnit "record" [AObj end_time]);
        EvExit NoGrad;
        EvCall (FwUnit "torch.cuda.synchronize" []);
        EvCall elapsed_time] /\
  (num_runs = 0%Z ->
   fst (run fw (ViT.benchmark model input_shape num_runs) st)
   = Raise (ZeroDivisionError (ans elapsed_time s9))).
Proof.
  intros fw rand event s1 t0 s2 x s3 start_time s4 end_time s5 s6 s7 s8 s9
    elapsed_time.
  assert (Hloop : forall n s,
            run fw (for_each (range n) (fun _ => call_module model x ;; Ret tt)) s
            = (Ok tt, Nat.iter (Z.to_nat n) (eff (CallModule model x)) s)).
  { intros n s. unfold fw.
    rewrite (loop_state ans eff enter exit (range n)
               (call_module model x ;; Ret tt) (conj I (fun _ => I)) s).
    rewrite length_range. reflexivity. }
  unfold ViT.benchmark, model_eval, fw_tensor, to_device, fw_obj,
    fw_unit, fw_num, truediv.
  cbn [run trace fw total_fw fw_call fw_enter fw_exit].
  fold fw rand event s1 t0 s2 x s3 start_time s4 end_time s5.
  destruct (forward_loop_trace ans eff enter exit (range 10) model x s5)
    as (s6' & Hr1 & Ht1).
  fold fw in Hr1, Ht1. rewrite Ht1. rewrite (Hloop 10%Z s5) in Hr1 |- *.
  injection Hr1 as <-.
  cbn [run trace fw total_fw fw_call fw_enter fw_exit].
  change (Nat.iter (Z.to_nat 10) (eff (CallModule model x)) s5) with s6.
  fold s7.
  destruct (forward_loop_trace ans eff enter exit (range num_runs) model x s7)
    as (s8' & Hr2 & Ht2).
  fold fw in Hr2, Ht2. rewrite Ht2. rewrite (Hloop num_runs s7) in Hr2 |- *.
  injection Hr2 as <-. fold s8. rewrite !length_range.
  cbn [run trace fw total_fw fw_call fw_enter fw_exit].
  fold s9 elapsed_time.
  rewrite run_lift, (trace_lift ans eff enter exit).
  split; [reflexivity|]. split.
  - cbn [app]. repeat (rewrite <- ?app_assoc; cbn [app]). reflexivity.
  - intros ->. reflexivity.
Qed.

(** [X10] On a framework that does not raise, [benchmark] of notebook 01
    reads the clock, makes [runs] timed runs, each inside a block
    [with torch.no_grad()] of its own, reads the clock again and returns
    the second reading less the first, divided by [runs]: with
    [runs = 0] it raises [ZeroDivisionError].  A timed run of a model is
    one forward pass; a timed run of the ONNX lambda of the notebook
    begins by opening a new inference session on the file, so that the
    time reported for ONNX Runtime includes loading the model [runs]
    times. *)
Theorem X10_llm_benchmark_runs {St} (ans : forall e : fwE, St -> resp e)
  (eff : fwE -> St -> St) (enter exit : ctx -> St -> St) input_ids runs st :
  let fw := total_fw ans eff enter exit in
  let clock := FwNum "time.time" [] in
  (forall model,
     let after_runs :=
       Nat.iter (Z.to_nat runs)
         (fun s => exit NoGrad (eff (CallModel model input_ids) (enter NoGrad s)))
         (eff clock st) in
     run fw (LLM.benchmark (fun x => call_model model x ;; Ret tt) input_ids runs) st
     = (py_truediv (py_sub (ans clock after_runs) (ans clock st)) (PInt runs),
        eff clock after_runs) /\
     trace fw (LLM.benchmark (fun x => call_model model x ;; Ret tt)
                             input_ids runs) st
     = EvCall clock
       :: concat (repeat (timed_run [EvCall (CallModel model input_ids)])
                         (Z.to_nat runs))
       ++ [EvCall clock]) /\
  (forall onnx_path,
     let after_runs :=
       Nat.iter (Z.to_nat runs)
         (fun s => snd (run fw (With NoGrad
                                  (LLM.onnx_inference onnx_path input_ids ;; Ret tt)) s))
         (eff clock st) in
     run fw (LLM.benchmark (fun x => LLM.onnx_inference onnx_path x ;; Ret tt)
                           input_ids runs) st
     = (py_truediv (py_sub (ans clock after_runs) (ans clock st)) (PInt runs),
        eff clock after_runs) /\
     exists blocks,
       trace fw (LLM.benchmark (fun x => LLM.onnx_inference onnx_path x ;; Ret tt)
                               input_ids runs) st
       = EvCall clock :: concat (map timed_run blocks) ++ [EvCall clock] /\
       length blocks = Z.to_nat runs /\
       Forall (fun b => exists rest, b = opens_session onnx_path :: rest) blocks).
Proof.
  intros fw clock. split.
  - intros model after_runs. split.
    + apply (llm_benchmark_result ans eff enter exit
               (fun x => call_model model x ;; Ret tt) input_ids runs st).
      intros; prove_no_throw.
    + destruct (llm_benchmark_runs ans eff enter exit
                  (fun x => call_model model x ;; Ret tt) input_ids runs st)
        as (s & e & blocks & st' & Hr & Ht & Hl & Hall); [intros; prove_no_throw|].
      fold fw in Ht. rewrite Ht.
      do 3 f_equal. rewrite <- Hl. clear Hr Ht Hl.
      induction Hall as [|b blocks [s0 Hb] _ IH]; [reflexivity|].
      cbn [map length repeat]. rewrite Hb, IH. reflexivity.
  - intros onnx_path after_runs. split.
    + apply (llm_benchmark_result ans eff enter exit
               (fun x => LLM.onnx_inference onnx_path x ;; Ret tt) input_ids runs st).
      intros; prove_no_throw.
    + destruct (llm_benchmark_runs ans eff enter exit
                  (fun x => LLM.onnx_inference onnx_path x ;; Ret tt) input_ids runs st)
        as (s & e & blocks & st' & Hr & Ht & Hl & Hall); [intros; prove_no_throw|].
      exists blocks. repeat split; auto.
      eapply Forall_impl; [|exact Hall]. intros b [s0 ->].
      eexists. reflexivity.
Qed.

(** ** Post-training quantization without calibration data *)

(** [X11] With a loader that yields no batch, [apply_ptq] raises
    nothing of its own: on a framework that does not raise it enters and
    leaves the block [with torch.no_grad()] without a single forward
    pass, converts the model that [prepare] answered all the same, casts
    the embeddings and the head of the original model to half precision,
    assigns them to the model that [convert] answered, and returns that
    model. *)
Theorem X11_ptq_without_calibration {St} (ans : forall e : fwE, St -> resp e)
  (eff : fwE -> St -> St) (enter exit : ctx -> St -> St) model st :
  let fw := total_fw ans eff enter exit in
  let s1 := eff (GetDefaultQConfig "fbgemm") st in
  let qconfig := ans (GetDefaultQConfig "fbgemm") st in
  let s2 := eff (SetAttr model "qconfig" qconfig) s1 in
  let model_prepared := ans (Prepare model) s2 in
  let s3 := exit NoGrad (enter NoGrad (eff (Prepare model) s2)) in
  let model_quantized := ans (Convert model_prepared) s3 in
  let s4 := eff (Convert model_prepared) s3 in
  let t := ans (GetAttr model "transformer") s4 in
  let s5 := eff (GetAttr model "transformer") s4 in
  let wte := ans (GetAttr t "wte") s5 in
  let s6 := eff (GetAttr t "wte") s5 in
  let wte16 := ans (Half wte) s6 in
  let s7 := eff (Half wte) s6 in
  let tq := ans (GetAttr model_quantized "transformer") s7 in
  let s8 := eff (GetAttr model_quantized "transformer") s7 in
  let s9 := eff (SetAttr tq "wte" wte16) s8 in
  let t' := ans (GetAttr model "transformer") s9 in
  let s10 := eff (GetAttr model "transformer") s9 in
  let wpe := ans (GetAttr t' "wpe") s10 in
  let s11 := eff (GetAttr t' "wpe") s10 in
  let wpe16 := ans (Half wpe) s11 in
  let s12 := eff (Half wpe) s11 in
  let tq' := ans (GetAttr model_quantized "transformer") s12 in
  let s13 := eff (GetAttr model_quantized "transformer") s12 in
  let s14 := eff (SetAttr tq' "wpe" wpe16) s13 in
  let lm_head := ans (GetAttr model "lm_head") s14 in
  let s15 := eff (GetAttr model "lm_head") s14 in
  let lm_head16 := ans (Half lm_head) s15 in
  let s16 := eff (Half lm_head) s15 in
  let s17 := eff (SetAttr model_quantized "lm_head" lm_head16) s16 in
  run fw (LLM.apply_ptq [] model) st = (Ok model_quantized, s17) /\
  trace fw (LLM.apply_ptq [] model) st
  = [EvCall (GetDefaultQConfig "fbgemm");
     EvCall (SetAttr model "qconfig" qconfig);
     EvCall (Prepare model);
     EvEnter NoGrad; EvExit NoGrad;
     EvCall (Convert model_prepared);
     EvCall (GetAttr model "transformer");
     EvCall (GetAttr t "wte");
     EvCall (Half wte);
     EvCall (GetAttr model_quantized "transformer");
     EvCall (SetAttr tq "wte" wte16);
     EvCall (GetAttr model "transformer");
     EvCall (GetAttr t' "wpe");
     EvCall (Half wpe);
     EvCall (GetAttr model_quantized "transformer");
     EvCall (SetAttr tq' "wpe" wpe16);
     EvCall (GetAttr model "lm_head");
     EvCall (Half lm_head);
     EvCall (SetAttr model_quantized "lm_head" lm_head16)] /\
  forall m x, ~ In (EvCall (CallModel m x)) (trace fw (LLM.apply_ptq [] model) st).
Proof.
  intros fw s1 qconfig s2 model_prepared s3 model_quantized s4 t s5 wte s6 wte16
    s7 tq s8 s9 t' s10 wpe s11 wpe16 s12 tq' s13 s14 lm_head s15 lm_head16 s16 s17.
  assert (Ht : trace fw (LLM.apply_ptq [] model) st
    = [EvCall (GetDefaultQConfig "fbgemm");
     EvCall (SetAttr model "qconfig" qconfig);
     EvCall (Prepare model);
     EvEnter NoGrad; EvExit NoGrad;
     EvCall (Convert model_prepared);
     EvCall (GetAttr model "transformer");
     EvCall (GetAttr t "wte");
     EvCall (Half wte);
     EvCall (GetAttr model_quantized "transformer");
     EvCall (SetAttr tq "wte" wte16);
     EvCall (GetAttr model "transformer");
     EvCall (GetAttr t' "wpe");
     EvCall (Half wpe);
     EvCall (GetAttr model_quantized "transformer");
     EvCall (SetAttr tq' "wpe" wpe16);
     EvCall (GetAttr model "lm_head");
     EvCall (Half lm_head);
     EvCall (SetAttr model_quantized "lm_head" lm_head16)]) by reflexivity.
  split; [reflexivity|]. split; [exact Ht|].
  intros m x Hin. rewrite Ht in Hin. cbn [In] in Hin.
  repeat (destruct Hin as [Hin|Hin]; [discriminate|]). exact Hin.
Qed.

(** ** The accuracy is a percentage *)

Lemma count_hits_bounds rs targets :
  (0 <= count_hits rs targets <= Z.of_nat (length targets))%Z.
Proof.
  revert targets. induction rs as [|r rs IH]; intros [|y targets]; cbn [count_hits length];
    try lia.
  specialize (IH targets). destruct (hit r y); lia.
Qed.

Lemma epoch_hits_bounds {St} (ans : forall e : fwE, St -> resp e) model criterion
  loader obs :
  well_shaped ans model loader ->
  observed ans model criterion loader obs ->
  (0 <= epoch_hits loader obs <= epoch_examples loader)%Z.
Proof.
  intros Hws Hobs. induction Hobs as [|inputs targets loader st_m st_c l rest Hl Hobs IH].
  - unfold epoch_examples. cbn. lia.
  - destruct Hws as (Hdev & Hcrit & Hout).
    destruct (Hout inputs targets st_m (or_introl eq_refl))
      as (n & c & Hc & Hs & Hlen & Ht & Htl).
    assert (IH' : (0 <= epoch_hits loader rest <= epoch_examples loader)%Z).
    { apply IH. repeat split; auto. intros i t s H. apply Hout. right. exact H. }
    unfold epoch_examples in *. cbn [epoch_hits fold_right snd].
    unfold hits.
    replace (size targets 0) with n by (unfold size; rewrite Ht; reflexivity).
    pose proof (count_hits_bounds (rows (ans (CallModule model inputs) st_m))
                  (data targets)) as Hb.
    rewrite Htl in Hb. lia.
Qed.

Lemma percentage_bounds correct total :
  (0 <= correct <= total)%Z -> (0 < total)%Z ->
  (0 <= percentage correct total <= 100)%Q.
Proof.
  intros [H0 H1] Ht. unfold percentage.
  assert (Hq : (0 < inject_Z total)%Q).
  { change 0%Q with (inject_Z 0). rewrite <- Zlt_Qlt. exact Ht. }
  split.
  - apply Qle_shift_div_l; [exact Hq|]. rewrite Qmult_0_l.
    change 0%Q with (100 * inject_Z 0)%Q.
    apply Qmult_le_l; [reflexivity|]. rewrite <- Zle_Qle. exact H0.
  - apply Qle_shift_div_r; [exact Hq|].
    apply Qmult_le_l; [reflexivity|]. rewrite <- Zle_Qle. exact H1.
Qed.

(** [X12] The accuracy that [train_epoch] and [validate] return is a
    percentage: for a loader that yields at least one example, on a
    framework that does not raise and whose model answers with one row
    of scores per example, it lies between 0 and 100. *)
Theorem X12_accuracy_is_a_percentage {St} (ans : forall e : fwE, St -> resp e)
  (eff : fwE -> St -> St) (enter exit : ctx -> St -> St)
  model optimizer scaler criterion loader st :
  well_shaped ans model loader ->
  loader <> [] -> (0 < epoch_examples loader)%Z ->
  (exists a b st',
     run (total_fw ans eff enter exit)
         (ViT.train_epoch model loader optimizer scaler criterion) st
     = (Ok (PFloat a, PFloat b), st') /\ (0 <= b <= 100)%Q) /\
  (exists a b st',
     run (total_fw ans eff enter exit)
         (ViT.validate model loader criterion) st
     = (Ok (PFloat a, PFloat b), st') /\ (0 <= b <= 100)%Q).
Proof.
  intros Hws Hne Htot. split.
  - destruct (train_epoch_returns ans eff enter exit model optimizer scaler
                criterion loader st Hws Hne Htot)
      as (obs & a & b & st' & Hobs & Hrun & _ & Hb).
    exists a, b, st'. split; [exact Hrun|]. rewrite Hb.
    apply percentage_bounds; [|exact Htot].
    eapply epoch_hits_bounds; eassumption.
  - destruct (validate_returns ans eff enter exit model criterion loader st
                Hws Hne Htot)
      as (obs & a & b & st' & Hobs & Hrun & _ & Hb).
    exists a, b, st'. split; [exact Hrun|]. rewrite Hb.
    apply percentage_bounds; [|exact Htot].
    eapply epoch_hits_bounds; eassumption.
Qed.

Lemma X12_witness :
  exists a b st',
    run echo_fw (ViT.validate (Obj 1) two_examples (Obj 4)) tt
    = (Ok (PFloat a, PFloat b), st') /\ (0 <= b <= 100)%Q.
Proof.
  apply (proj2 (X12_accuracy_is_a_percentage (fun e (_ : unit) => echo_answer e)
                  (fun _ st => st) (fun _ st => st) (fun _ st => st)
                  (Obj 1) (Obj 2) (Obj 3) (Obj 4) two_examples tt
                  two_examples_well_shaped ltac:(discriminate) eq_refl)).
Defined.

(** ** The check of the attention modules *)

Section Verify.
Variable ans : forall e : fwE, result (resp e).

Let fw := stateless_fw ans.

Lemma verify_skips (ms : list handle) :
  (forall m, In m ms -> ans (isinstance_Attention m) = Ok false) ->
  run fw (for_each ms ViT.verify_module) tt = (Ok tt, tt) /\
  printed (trace fw (for_each ms ViT.verify_module) tt) = [].
Proof.
  induction ms as [|m ms IH]; intros Hno; [split; reflexivity|].
  destruct (IH (fun m' H => Hno m' (or_intror H))) as [Hr Ht].
  rewrite run_for_each_cons, trace_for_each_cons.
  unfold ViT.verify_module at 1 3 4, fw_bool.
  cbn [run trace fw stateless_fw fw_call].
  change (FwBool "isinstance"
            [AObj m; AStr "timm.models.vision_transformer.Attention"])
    with (isinstance_Attention m).
  rewrite (Hno m (or_introl eq_refl)). cbn [run trace app printed].
  split; assumption.
Qed.

(** [X13] [verify_quantized_attention] prints nothing and returns on a
    model without attention module.  On a model with one, it prints the
    line that names the module and then looks up
    [torch.quantization.Quantized]: in a framework where this lookup
    raises, the function ends with that exception at the first attention
    module, after this one line. *)
Theorem X13_verify_stops_at_first_attention model (ms : list handle) :
  ans (FwObjs "model.modules" [AObj model]) = Ok ms ->
  ((forall m, In m ms -> ans (isinstance_Attention m) = Ok false) ->
   run fw (ViT.verify_quantized_attention model) tt = (Ok tt, tt) /\
   printed (trace fw (ViT.verify_quantized_attention model) tt) = []) /\
  (forall pre m post qkv weight x,
     ms = pre ++ m :: post ->
     (forall m', In m' pre -> ans (isinstance_Attention m') = Ok false) ->
     ans (isinstance_Attention m) = Ok true ->
     ans (Print "Attention module: {module}" []) = Ok tt ->
     ans (GetAttr m "qkv") = Ok qkv ->
     ans (GetAttr qkv "weight") = Ok weight ->
     ans (FwObj "torch.quantization.Quantized" []) = Raise x ->
     run fw (ViT.verify_quantized_attention model) tt = (Raise x, tt) /\
     printed (trace fw (ViT.verify_quantized_attention model) tt)
     = [("Attention module: {module}", [])]).
Proof.
  intros Hms. unfold ViT.verify_quantized_attention, fw_objs.
  cbn [run trace fw stateless_fw fw_call]. rewrite Hms. cbn [app printed]. split.
  - apply verify_skips.
  - intros pre m post qkv weight x -> Hpre Hatt Hprint Hqkv Hw Hq.
    clear Hms. induction pre as [|m' pre IH].
    + cbn [app]. rewrite run_for_each_cons, trace_for_each_cons.
      unfold ViT.verify_module at 1 3 4, fw_bool, print, getattr, fw_obj.
      cbn [run trace fw stateless_fw fw_call].
      change (FwBool "isinstance"
                [AObj m; AStr "timm.models.vision_transformer.Attention"])
        with (isinstance_Attention m).
      rewrite Hatt. cbn [run trace fw stateless_fw fw_call].
      rewrite Hprint. cbn [run trace fw stateless_fw fw_call].
      rewrite Hqkv. cbn [run trace fw stateless_fw fw_call].
      rewrite Hw. cbn [run trace fw stateless_fw fw_call].
      rewrite Hq. split; reflexivity.
    + destruct (verify_skips [m'] (fun m0 H =>
                  Hpre m0 (or_introl (match H with
                                      | or_introl E => E
                                      | or_intror F => match F with end
                                      end)))) as [Hr Ht].
      cbn [for_each] in Hr, Ht. cbn [run trace] in Hr, Ht.
      destruct (run fw (ViT.verify_module m') tt) as [[[]|e] []] eqn:Hm';
        [|discriminate].
      rewrite app_nil_r in Ht.
      destruct (IH (fun m0 H => Hpre m0 (or_intror H))) as [IHr IHt].
      cbn [app]. rewrite run_for_each_cons, trace_for_each_cons, Hm'.
      rewrite printed_app, Ht. split; assumption.
Qed.

End Verify.

Lemma X13_witness :
  run (stateless_fw verify_answer) (ViT.verify_quantized_attention (Obj 0)) tt
  = (Raise no_Quantized, tt) /\
  printed (trace (stateless_fw verify_answer)
                 (ViT.verify_quantized_attention (Obj 0)) tt)
  = [("Attention module: {module}", [])].
Proof.
  apply (proj2 (X13_verify_stops_at_first_attention verify_answer (Obj 0)
                  [Obj 1; Obj 2] eq_refl)
           [Obj 1] (Obj 2) [] (Obj 0) (Obj 0) no_Quantized); try reflexivity.
  intros m' [<-|[]]. reflexivity.
Defined.

(** ** What notebook 02 never builds *)

Lemma vit_notebook_builds_no_stub {St} norm2 :
  no_call creates_stub (@ViT.notebook St norm2).
Proof. prove_static. Qed.

(** [X14] Notebook 02 defines [QuantizedViT] and never uses it: whatever
    the framework does, no run of the notebook creates a [QuantStub] or a
    [DeQuantStub], the two calls with which [QuantizedViT.__init__]
    begins; the model that is prepared and converted is the model as
    [timm] built it. *)
Theorem X14_vit_notebook_never_builds_QuantizedViT {St} (fw : handler St) norm2 st :
  (forall e, In (EvCall e) (trace fw (ViT.notebook norm2) st) ->
             creates_stub e = false) /\
  (forall (model : handle) st1 st2 st3 quant dequant,
     fw_call fw NNModuleInit st = (Ok tt, st1) ->
     fw_call fw (FwObj "torch.quantization.QuantStub" []) st1 = (Ok quant, st2) ->
     fw_call fw (FwObj "torch.quantization.DeQuantStub" []) st2 = (Ok dequant, st3) ->
     run fw (ViT.QuantizedViT__init__ model) st
     = (Ok {| ViT.quant := quant; ViT.model := model; ViT.dequant := dequant |}, st3) /\
     existsb (fun ev => match ev with EvCall e => creates_stub e | _ => false end)
             (trace fw (ViT.QuantizedViT__init__ model) st) = true).
Proof.
  split.
  - apply no_call_trace, vit_notebook_builds_no_stub.
  - intros model st1 st2 st3 q d H1 H2 H3.
    unfold ViT.QuantizedViT__init__, nn_Module__init__, fw_obj.
    cbn [run trace]. rewrite H1. cbn [run trace]. rewrite H2. cbn [run trace].
    rewrite H3. split; reflexivity.
Qed.

Lemma X14_witness :
  run echo_fw (ViT.QuantizedViT__init__ (Obj 7)) tt
  = (Ok {| ViT.quant := Obj 0; ViT.model := Obj 7; ViT.dequant := Obj 0 |}, tt) /\
  existsb (fun ev => match ev with EvCall e => creates_stub e | _ => false end)
          (trace echo_fw (ViT.QuantizedViT__init__ (Obj 7)) tt) = true.
Proof.
  apply (proj2 (X14_vit_notebook_never_builds_QuantizedViT echo_fw square_norm tt)
           (Obj 7) tt tt tt (Obj 0) (Obj 0)); reflexivity.
Defined.

(** ** A notebook on an empty dataset *)

Section UntilFailure.
Context {St : Type} (fw : handler St).
Variables (titles : list string) (chain : nat -> prog St unit) (st : St) (N : nat).
Hypothesis HN : N <= length titles.
Hypothesis H0 : trace fw (chain 0) st = [].
Hypothesis Hstep : forall k, k < N ->
  exists rest, cells rest = [] /\
    trace fw (chain (S k)) st
    = trace fw (chain k) st
      ++ (if is_ok (fst (run fw (chain k) st))
          then EvCell (nth k titles "") :: rest else []).
Hypothesis Hok : forall k, k < N ->
  is_ok (fst (run fw (chain (S k)) st)) = true ->
  is_ok (fst (run fw (chain k) st)) = true.

(** The cells begun when the notebook fails in cell [j] (counted from 0). *)
Lemma cells_until_failure j :
  j < N ->
  is_ok (fst (run fw (chain j) st)) = true ->
  is_ok (fst (run fw (chain (S j)) st)) = false ->
  forall m, S j <= m -> m <= N ->
    cells (trace fw (chain m) st) = firstn (S j) titles /\
    is_ok (fst (run fw (chain m) st)) = false.
Proof.
  intros Hj Hokj Hfail m Hm. induction Hm as [|m Hm IH]; intros HmN.
  - split; [|exact Hfail].
    destruct (cells_in_order fw titles chain st N HN H0 Hstep Hok j)
      as (n & Hn & Hc & _ & Hall); [lia|].
    rewrite (Hall Hokj) in Hc.
    destruct (Hstep j Hj) as (rest & Hrest & Ht).
    rewrite Ht, Hokj, cells_app, Hc. cbn [cells flat_map app].
    fold (cells rest). rewrite Hrest. symmetry. apply firstn_snoc. lia.
  - destruct IH as [IHc IHf]; [lia|]. split.
    + destruct (Hstep m) as (rest & _ & Ht); [lia|].
      rewrite Ht, IHf, app_nil_r. exact IHc.
    + destruct (is_ok (fst (run fw (chain (S m)) st))) eqn:E; [|reflexivity].
      apply Hok in E; [congruence|lia].
Qed.

End UntilFailure.

Lemma llm_steps {St} (fw : handler St) st k :
  k < 9 ->
  exists rest, cells rest = [] /\
    trace fw (LLM.prefix (S k)) st
    = trace fw (LLM.prefix k) st
      ++ (if is_ok (fst (run fw (LLM.prefix k) st))
          then EvCell (nth k (map fst llm_cells) "") :: rest else []).
Proof.
  intros Hk.
  do 9 (destruct k as [|k];
        [cbn [LLM.prefix nth map fst llm_cells]; next_cell|]).
  lia.
Qed.

Lemma llm_returned {St} (fw : handler St) st k :
  k < 9 ->
  is_ok (fst (run fw (LLM.prefix (S k)) st)) = true ->
  is_ok (fst (run fw (LLM.prefix k) st)) = true.
Proof.
  intros Hk.
  do 9 (destruct k as [|k]; [cbn [LLM.prefix]; previous_cell|]).
  lia.
Qed.

Lemma vit_steps {St} (fw : handler St) norm2 st k :
  k < 10 ->
  exists rest, cells rest = [] /\
    trace fw (ViT.prefix norm2 (S k)) st
    = trace fw (ViT.prefix norm2 k) st
      ++ (if is_ok (fst (run fw (ViT.prefix norm2 k) st))
          then EvCell (nth k (map fst vit_cells) "") :: rest else []).
Proof.
  intros Hk.
  do 10 (destruct k as [|k];
         [cbn [ViT.prefix nth map fst vit_cells]; next_cell|]).
  lia.
Qed.

Lemma vit_returned {St} (fw : handler St) norm2 st k :
  k < 10 ->
  is_ok (fst (run fw (ViT.prefix norm2 (S k)) st)) = true ->
  is_ok (fst (run fw (ViT.prefix norm2 k) st)) = true.
Proof.
  intros Hk.
  do 10 (destruct k as [|k]; [cbn [ViT.prefix]; previous_cell|]).
  lia.
Qed.

(** An exception of the notebook so far is the exception of the
    notebook. *)
Lemma raise_passes {St} (fw : handler St) {A R} (prev : prog St A)
  (k : A -> prog St R) st x :
  fst (run fw prev st) = Raise x -> fst (run fw (Bind prev k) st) = Raise x.
Proof.
  cbn [run]. destruct (run fw prev st) as [[v|e] st1]; cbn; congruence.
Qed.

Section EmptyDataset.
Context {St : Type}.
Variable ans : forall e : fwE, St -> resp e.
Variable eff : fwE -> St -> St.
Variables enter exit : ctx -> St -> St.

Let fw := total_fw ans eff enter exit.

Lemma llm_fine_tune_cell_fails st :
  (forall f args s, ans (FwBatches f args) s = []) ->
  fst (run fw LLM.upto_fine_tune st)
  = Raise (Exn "ZeroDivisionError" "division by zero").
Proof.
  intros Hempty. unfold LLM.upto_fine_tune. cbn [run].
  destruct (no_throw_returns ans eff enter exit LLM.upto_load
              ltac:(prove_no_throw) st) as ([model tokenizer] & s1 & Hl).
  fold fw in Hl. rewrite Hl.
  unfold LLM.cell_fine_tune, fw_obj, fw_batches.
  cbn [run fw total_fw fw_call]. rewrite Hempty.
  reflexivity.
Qed.

Lemma vit_fine_tune_cell_fails st :
  (forall f args s, ans (FwPairs f args) s = []) ->
  fst (run fw ViT.upto_fine_tune st)
  = Raise (Exn "ZeroDivisionError" "division by zero").
Proof.
  intros Hempty. unfold ViT.upto_fine_tune. cbn [run].
  destruct (no_throw_returns ans eff enter exit ViT.upto_load
              ltac:(prove_no_throw) st) as ([model transform] & s1 & Hl).
  fold fw in Hl. unfold ViT.upto_dataset. cbn [run]. rewrite Hl.
  unfold ViT.cell_dataset, fw_obj, fw_pairs.
  cbn [run fw total_fw fw_call]. rewrite !Hempty.
  reflexivity.
Qed.

(** [X15] On a framework that does not raise and whose data loaders
    yield no batch, neither notebook gets past its fine-tuning cell: the
    first epoch divides the loss by zero batches.  Notebook 01 ends with
    [ZeroDivisionError] in cell 3 and notebook 02 in cell 4; no later
    cell is begun, so nothing is quantized, exported or measured. *)
Theorem X15_empty_dataset_stops_at_fine_tuning st :
  ((forall f args s, ans (FwBatches f args) s = []) ->
   fst (run fw LLM.notebook st)
   = Raise (Exn "ZeroDivisionError" "division by zero") /\
   cells (trace fw LLM.notebook st) = firstn 3 (map fst llm_cells)) /\
  ((forall f args s, ans (FwPairs f args) s = []) ->
   forall norm2,
     fst (run fw (ViT.notebook norm2) st)
     = Raise (Exn "ZeroDivisionError" "division by zero") /\
     cells (trace fw (ViT.notebook norm2) st) = firstn 4 (map fst vit_cells)).
Proof.
  split.
  - intros Hempty. pose proof (llm_fine_tune_cell_fails st Hempty) as Hf. split.
    + unfold LLM.notebook, LLM.upto_benchmark, LLM.upto_onnx,
        LLM.upto_dynamic_quantization, LLM.upto_kv_cache,
        LLM.upto_int8_attention, LLM.upto_ptq.
      do 6 apply raise_passes. exact Hf.
    + rewrite <- (trace_erased fw LLM.notebook).
      refine (proj1 (cells_until_failure fw (map fst llm_cells) LLM.prefix st 9
                       (le_n _) eq_refl (llm_steps fw st) (llm_returned fw st) 2
                       _ _ _ 9 _ _)); try lia.
      * cbn [LLM.prefix]. rewrite is_ok_erased.
        destruct (no_throw_returns ans eff enter exit LLM.upto_load
                    ltac:(prove_no_throw) st) as (v & s1 & Hl).
        fold fw in Hl. rewrite Hl. reflexivity.
      * cbn [LLM.prefix]. rewrite is_ok_erased, Hf. reflexivity.
  - intros Hempty norm2.
    pose proof (vit_fine_tune_cell_fails st Hempty) as Hf. split.
    + unfold ViT.notebook, ViT.upto_benchmark, ViT.upto_optimize,
        ViT.upto_verify, ViT.upto_fusion, ViT.upto_pruning, ViT.upto_qaf.
      do 6 apply raise_passes. exact Hf.
    + rewrite <- (trace_erased fw (ViT.notebook norm2)).
      refine (proj1 (cells_until_failure fw (map fst vit_cells) (ViT.prefix norm2)
                       st 10 (le_n _) eq_refl (vit_steps fw norm2 st)
                       (vit_returned fw norm2 st) 3 _ _ _ 10 _ _)); try lia.
      * cbn [ViT.prefix]. rewrite is_ok_erased.
        destruct (no_throw_returns ans eff enter exit ViT.upto_dataset
                    ltac:(prove_no_throw) st) as (v & s1 & Hl).
        fold fw in Hl. rewrite Hl. reflexivity.
      * cbn [ViT.prefix]. rewrite is_ok_erased, Hf. reflexivity.
Qed.

End EmptyDataset.

Lemma X15_witness :
  fst (run echo_fw LLM.notebook tt)
  = Raise (Exn "ZeroDivisionError" "division by zero") /\
  cells (trace echo_fw LLM.notebook tt) = firstn 3 (map fst llm_cells).
Proof.
  apply (proj1 (X15_empty_dataset_stops_at_fine_tuning
                  (fun e (_ : unit) => echo_answer e)
                  (fun _ st => st) (fun _ st => st) (fun _ st => st) tt)).
  reflexivity.
Defined.

(** ** The schedule of quantization-aware fine-tuning *)

Lemma project_call {A} (f : fwE -> option A) e t :
  project f (EvCall e :: t)
  = match f e with Some a => [a] | None => [] end ++ project f t.
Proof. reflexivity. Qed.

Lemma project_none {A} (f : fwE -> option A) t :
  (forall e, In (EvCall e) t -> keeps_none f e = false) -> project f t = [].
Proof.
  induction t as [|ev t IH]; intros H; [reflexivity|].
  unfold project. cbn [flat_map]. fold (project f t).
  rewrite IH by (intros e He; apply H; right; exact He).
  destruct ev as [e| | |]; try reflexivity.
  specialize (H e (or_introl eq_refl)). unfold keeps_none in H.
  destruct (f e); [discriminate|reflexivity].
Qed.

Lemma project_static {A} (f : fwE -> option A) {St} (fw : handler St) {R}
  (p : prog St R) st :
  no_call (keeps_none f) p -> project f (trace fw p st) = [].
Proof.
  intros Hp. apply project_none. intros e He.
  eapply no_call_trace; eassumption.
Qed.

Section Schedule.
Context {St : Type}.
Variable ans : forall e : fwE, St -> resp e.
Variable eff : fwE -> St -> St.
Variables enter exit : ctx -> St -> St.
Variables (train_loader val_loader : list (tensor * tensor)).
Hypothesis Htrain : forall m, well_shaped ans m train_loader.
Hypothesis Hval : forall m, well_shaped ans m val_loader.
Hypothesis Htrain_ne : train_loader <> [].
Hypothesis Hval_ne : val_loader <> [].
Hypothesis Htrain_ex : (0 < epoch_examples train_loader)%Z.
Hypothesis Hval_ex : (0 < epoch_examples val_loader)%Z.

Let fw := total_fw ans eff enter exit.

Lemma trace_call_bind {R} (e : fwE) (k : resp e -> prog St R) st :
  trace fw (Bind (Call e) k) st = EvCall e :: trace fw (k (ans e st)) (eff e st).
Proof. reflexivity. Qed.

Lemma train_epoch_schedule model optimizer scaler criterion st :
  exists r st',
    run fw (ViT.train_epoch model train_loader optimizer scaler criterion) st
    = (Ok r, st') /\
    project schedule_mark
      (trace fw (ViT.train_epoch model train_loader optimizer scaler criterion) st)
    = ["train"].
Proof.
  destruct (train_epoch_returns ans eff enter exit model optimizer scaler criterion
              train_loader st (Htrain model) Htrain_ne Htrain_ex)
    as (obs & a & b & st' & _ & Hrun & _).
  exists (PFloat a, PFloat b), st'. split; [exact Hrun|].
  unfold ViT.train_epoch, model_train.
  match goal with
  | |- project _ (trace fw (Bind _ ?k) st) = _ =>
      change (project schedule_mark (trace fw (Bind (Call (ModelTrain model)) k) st))
        with ("train" :: project schedule_mark
                (trace fw (k (ans (ModelTrain model) st)) (eff (ModelTrain model) st)))
  end.
  f_equal. apply project_static. prove_static.
Qed.

Lemma validate_schedule model criterion st :
  exists r st',
    run fw (ViT.validate model val_loader criterion) st = (Ok r, st') /\
    project schedule_mark (trace fw (ViT.validate model val_loader criterion) st)
    = ["eval"].
Proof.
  destruct (validate_returns ans eff enter exit model criterion
              val_loader st (Hval model) Hval_ne Hval_ex)
    as (obs & a & b & st' & _ & Hrun & _).
  exists (PFloat a, PFloat b), st'. split; [exact Hrun|].
  unfold ViT.validate, model_eval.
  match goal with
  | |- project _ (trace fw (Bind _ ?k) st) = _ =>
      change (project schedule_mark (trace fw (Bind (Call (ModelEval model)) k) st))
        with ("eval" :: project schedule_mark
                (trace fw (k (ans (ModelEval model) st)) (eff (ModelEval model) st)))
  end.
  f_equal. apply project_static. prove_static.
Qed.

Lemma run_bind_ok {X R} (m : prog St X) (k : X -> prog St R) st v s1 :
  run fw m st = (Ok v, s1) -> run fw (Bind m k) st = run fw (k v) s1.
Proof. intros H. cbn [run]. rewrite H. reflexivity. Qed.

Lemma trace_bind_ok {X R} (m : prog St X) (k : X -> prog St R) st v s1 :
  run fw m st = (Ok v, s1) ->
  trace fw (Bind m k) st = trace fw m st ++ trace fw (k v) s1.
Proof. intros H. cbn [trace]. rewrite H. reflexivity. Qed.

Lemma run_call (e : fwE) st : run fw (Call e) st = (Ok (ans e st), eff e st).
Proof. reflexivity. Qed.

Ltac step_call :=
  match goal with
  | |- context [run ?fw (Bind ?m ?k) ?s] =>
      lazymatch m with
      | Call ?e =>
          change (run fw (Bind m k) s)
            with (run fw (k (ans e s)) (eff e s));
          change (trace fw (Bind m k) s)
            with (EvCall e :: trace fw (k (ans e s)) (eff e s));
          cbn beta
      end
  end.

Lemma qat_epoch_runs criterion model_qat optimizer scaler epochs epoch st :
  exists st',
    run fw (ViT.qat_epoch criterion model_qat train_loader val_loader
                          optimizer scaler epochs epoch) st = (Ok tt, st') /\
    project schedule_mark
      (trace fw (ViT.qat_epoch criterion model_qat train_loader val_loader
                               optimizer scaler epochs epoch) st)
    = qat_epoch_schedule epoch.
Proof.
  unfold ViT.qat_epoch, qat_epoch_schedule, fw_obj, print.
  step_call. set (s1 := eff _ st). step_call. set (s2 := eff _ s1).
  match goal with
  | |- context [run fw (Bind ?m _) s2] =>
      assert (Hobs : exists s3,
                run fw m s2 = (Ok tt, s3) /\
                project schedule_mark (trace fw m s2)
                = if (0 <? epoch)%Z
                  then ["torch.quantization.enable_observer"] else [])
  end.
  { destruct (0 <? epoch)%Z; eexists; split; reflexivity. }
  destruct Hobs as (s3 & Hr3 & Ht3).
  rewrite (run_bind_ok _ _ _ _ _ Hr3), (trace_bind_ok _ _ _ _ _ Hr3).
  destruct (train_epoch_schedule model_qat optimizer scaler criterion s3)
    as ([tl ta] & s4 & Hr4 & Ht4).
  rewrite (run_bind_ok _ _ _ _ _ Hr4), (trace_bind_ok _ _ _ _ _ Hr4).
  destruct (validate_schedule model_qat criterion s4)
    as ([vl va] & s5 & Hr5 & Ht5).
  rewrite (run_bind_ok _ _ _ _ _ Hr5), (trace_bind_ok _ _ _ _ _ Hr5).
  eexists. split.
  { cbn [run fw total_fw fw_call].
    match goal with |- (Ok ?u, _) = _ => destruct u end. reflexivity. }
  rewrite !project_call, !project_app, Ht3, Ht4, Ht5. reflexivity.
Qed.

Lemma qat_loop_runs criterion model_qat optimizer scaler epochs (es : list Z) :
  forall st, exists st',
    run fw (for_each es (ViT.qat_epoch criterion model_qat train_loader val_loader
                                       optimizer scaler epochs)) st = (Ok tt, st') /\
    project schedule_mark
      (trace fw (for_each es (ViT.qat_epoch criterion model_qat train_loader
                                val_loader optimizer scaler epochs)) st)
    = flat_map qat_epoch_schedule es.
Proof.
  induction es as [|epoch es IH]; intros st.
  - exists st. split; reflexivity.
  - destruct (qat_epoch_runs criterion model_qat optimizer scaler epochs epoch st)
      as (s1 & Hr & Ht).
    destruct (IH s1) as (st' & Hr' & Ht').
    exists st'. rewrite run_for_each_cons, trace_for_each_cons, Hr, Hr'.
    split; [reflexivity|]. rewrite project_app, Ht, Ht'. reflexivity.
Qed.

Ltac step_trace :=
  match goal with
  | |- context [trace ?fw (Bind ?m ?k) ?s] =>
      lazymatch m with
      | Call ?e =>
          change (trace fw (Bind m k) s)
            with (EvCall e :: trace fw (k (ans e s)) (eff e s));
          cbn beta
      end
  end.

(** [X16] The schedule of [apply_qaf], on a framework that does not
    raise, with loaders that yield at least one example and a model that
    answers with one row of scores per example.  The function prepares
    the model for quantization-aware training, puts the patch embedding
    and the head of the original model into the prepared model, and
    trains the prepared model.  Each epoch disables the observers,
    enables fake quantization, enables the observers again only from the
    second epoch on, then trains and validates: the first epoch is
    trained with the observers off, every later one with the observers
    on, and fake quantization is on in all of them.  After the last
    epoch the function puts the prepared model in evaluation mode and
    returns what [convert] answers on it. *)
Theorem X16_qaf_schedule criterion model epochs st :
  let get_qconfig :=
    FwObj "torch.quantization.get_default_qat_qconfig" [AStr "fbgemm"] in
  let s1 := eff get_qconfig st in
  let set_qconfig := SetAttr model "qconfig" (ans get_qconfig st) in
  let s2 := eff set_qconfig s1 in
  let prepare_qat := FwObj "torch.quantization.prepare_qat" [AObj model] in
  let model_qat := ans prepare_qat s2 in
  let s3 := eff prepare_qat s2 in
  let patch_embed := ans (GetAttr model "patch_embed") s3 in
  let s4 := eff (GetAttr model "patch_embed") s3 in
  let s5 := eff (SetAttr model_qat "patch_embed" patch_embed) s4 in
  let head := ans (GetAttr model "head") s5 in
  let s6 := eff (GetAttr model "head") s5 in
  let s7 := eff (SetAttr model_qat "head" head) s6 in
  let get_parameters := FwObj "model_qat.parameters" [AObj model_qat] in
  let s8 := eff get_parameters s7 in
  let AdamW :=
    FwObj "optim.AdamW"
      [AObj (ans get_parameters s7); AKw "lr" (ANum (PFloat (1 # 100000)));
       AKw "weight_decay" (ANum (PFloat (1 # 100)))] in
  let optimizer := ans AdamW s8 in
  let s9 := eff AdamW s8 in
  let scaler := ans GradScalerNew s9 in
  let s10 := eff GradScalerNew s9 in
  let epochs_loop :=
    for_each (range epochs)
      (ViT.qat_epoch criterion model_qat train_loader val_loader
                     optimizer scaler epochs) in
  let s11 := snd (run fw epochs_loop s10) in
  let eval := FwObj "model_qat.eval" [AObj model_qat] in
  let s12 := eff eval s11 in
  let convert :=
    FwObj "torch.quantization.convert"
      [AObj (ans eval s11); AKw "inplace" (ABool false)] in
  run fw (ViT.apply_qaf criterion model train_loader val_loader epochs) st
  = (Ok (ans convert s12), eff convert s12) /\
  trace fw (ViT.apply_qaf criterion model train_loader val_loader epochs) st
  = [EvCall get_qconfig; EvCall set_qconfig; EvCall prepare_qat;
     EvCall (GetAttr model "patch_embed");
     EvCall (SetAttr model_qat "patch_embed" patch_embed);
     EvCall (GetAttr model "head");
     EvCall (SetAttr model_qat "head" head);
     EvCall get_parameters; EvCall AdamW; EvCall GradScalerNew]
    ++ trace fw epochs_loop s10
    ++ [EvCall eval; EvCall convert] /\
  project schedule_mark (trace fw epochs_loop s10)
  = flat_map qat_epoch_schedule (range epochs) /\
  project schedule_mark
    (trace fw (ViT.apply_qaf criterion model train_loader val_loader epochs) st)
  = flat_map qat_epoch_schedule (range epochs).
Proof.
  intros get_qconfig s1 set_qconfig s2 prepare_qat model_qat s3 patch_embed s4 s5
    head s6 s7 get_parameters s8 AdamW optimizer s9 scaler s10 epochs_loop s11
    eval s12 convert.
  destruct (qat_loop_runs criterion model_qat optimizer scaler epochs
              (range epochs) s10) as (s' & Hr & Ht).
  fold epochs_loop in Hr, Ht.
  assert (Hs : s11 = s') by (unfold s11; rewrite Hr; reflexivity).
  assert (Htr : trace fw (ViT.apply_qaf criterion model train_loader val_loader
                            epochs) st
    = [EvCall get_qconfig; EvCall set_qconfig; EvCall prepare_qat;
       EvCall (GetAttr model "patch_embed");
       EvCall (SetAttr model_qat "patch_embed" patch_embed);
       EvCall (GetAttr model "head");
       EvCall (SetAttr model_qat "head" head);
       EvCall get_parameters; EvCall AdamW; EvCall GradScalerNew]
      ++ trace fw epochs_loop s10
      ++ [EvCall eval; EvCall convert]).
  { unfold ViT.apply_qaf, fw_obj, set_attr, getattr, GradScaler.
    repeat step_trace.
    fold get_qconfig s1 set_qconfig s2 prepare_qat model_qat s3 patch_embed s4 s5
      head s6 s7 get_parameters s8 AdamW optimizer s9 scaler s10 epochs_loop.
    rewrite (trace_bind_ok _ _ _ _ _ Hr).
    cbn [app]. do 10 f_equal. f_equal.
    repeat step_trace. rewrite <- Hs. reflexivity. }
  split; [|split; [exact Htr|split; [exact Ht|]]].
  - unfold ViT.apply_qaf, fw_obj, set_attr, getattr, GradScaler.
    repeat step_call.
    fold get_qconfig s1 set_qconfig s2 prepare_qat model_qat s3 patch_embed s4 s5
      head s6 s7 get_parameters s8 AdamW optimizer s9 scaler s10 epochs_loop.
    rewrite (run_bind_ok _ _ _ _ _ Hr).
    repeat step_call. rewrite <- Hs. reflexivity.
  - rewrite Htr, !project_app, Ht.
    unfold get_qconfig, set_qconfig, prepare_qat, get_parameters, AdamW, eval, convert.
    cbn [project flat_map schedule_mark app]. rewrite app_nil_r. reflexivity.
Qed.

End Schedule.

Lemma two_examples_well_shaped_for m :
  well_shaped (fun e (_ : unit) => echo_answer e) m two_examples.
Proof.
  split; [reflexivity|]. split; [intros; eexists; reflexivity|].
  intros inputs targets st [H|[]]. injection H as <- <-.
  exists 2%nat, 2%nat. cbn. repeat split; lia.
Qed.

Lemma X16_witness :
  fst (run echo_fw (ViT.apply_qaf (Obj 4) (Obj 1) two_examples two_examples 3) tt)
  = Ok (echo_answer (FwObj "torch.quantization.convert"
                       [AObj (echo_answer (FwObj "model_qat.eval" [AObj (Obj 0)]));
                        AKw "inplace" (ABool false)])) /\
  project schedule_mark
    (trace echo_fw (ViT.apply_qaf (Obj 4) (Obj 1) two_examples two_examples 3) tt)
  = ["torch.quantization.disable_observer"; "torch.quantization.enable_fake_quant";
     "train"; "eval";
     "torch.quantization.disable_observer"; "torch.quantization.enable_fake_quant";
     "torch.quantization.enable_observer"; "train"; "eval";
     "torch.quantization.disable_observer"; "torch.quantization.enable_fake_quant";
     "torch.quantization.enable_observer"; "train"; "eval"].
Proof.
  destruct (X16_qaf_schedule (fun e (_ : unit) => echo_answer e)
              (fun _ st => st) (fun _ st => st) (fun _ st => st)
              two_examples two_examples
              two_examples_well_shaped_for two_examples_well_shaped_for
              ltac:(discriminate) ltac:(discriminate) eq_refl eq_refl
              (Obj 4) (Obj 1) 3 tt) as (Hr & _ & _ & Hp).
  split; [|exact Hp].
  change echo_fw with (total_fw (fun e (_ : unit) => echo_answer e)
                         (fun _ st => st) (fun _ st => st) (fun _ st => st)).
  rewrite Hr. reflexivity.
Defined.

(** ** The steps of the optimizer *)

Section Steps.
Context {St : Type}.
Variable ans : forall e : fwE, St -> resp e.
Variable eff : fwE -> St -> St.
Variables enter exit : ctx -> St -> St.

Let fw := total_fw ans eff enter exit.

Lemma project_bind_none {A X R} (f : fwE -> option A) (m : prog St X)
  (k : X -> prog St R) st :
  no_call (keeps_none f) m ->
  project f (trace fw (Bind m k) st)
  = match run fw m st with
    | (Ok v, s1) => project f (trace fw (k v) s1)
    | (Raise _, _) => []
    end.
Proof.
  intros Hm. cbn [trace]. rewrite project_app, (project_static f fw m st Hm).
  destruct (run fw m st) as [[v|e] s1]; reflexivity.
Qed.

Lemma project_bind_tail {A X R} (f : fwE -> option A) (m : prog St X)
  (k : X -> prog St R) st :
  (forall v, no_call (keeps_none f) (k v)) ->
  project f (trace fw (Bind m k) st) = project f (trace fw m st).
Proof.
  intros Hk. cbn [trace]. rewrite project_app.
  destruct (run fw m st) as [[v|e] s1]; [|apply app_nil_r].
  rewrite (project_static f fw (k v) s1 (Hk v)). apply app_nil_r.
Qed.

(** A loop each of whose iterations returns and makes the one step [x]. *)
Lemma fold_steps {A B X} (f : fwE -> option X) (x : X) (loader : list A)
  (body : B -> A -> prog St B) :
  (forall acc b st, In b loader ->
     is_ok (fst (run fw (body acc b) st)) = true /\
     project f (trace fw (body acc b) st) = [x]) ->
  forall acc st,
    project f (trace fw (for_fold loader acc body) st) = repeat x (length loader).
Proof.
  induction loader as [|b loader IH]; intros Hb acc st; [reflexivity|].
  destruct (Hb acc b st (or_introl eq_refl)) as [Hok Hx].
  cbn [for_fold trace length repeat]. rewrite project_app, Hx.
  destruct (run fw (body acc b) st) as [[acc'|e] s1]; [|discriminate].
  cbn [app]. f_equal. apply IH. intros acc0 b0 st0 H0. apply Hb. right. exact H0.
Qed.

Ltac step_project :=
  match goal with
  | |- context [trace ?fw0 (Bind ?m ?k) ?s] =>
      lazymatch m with
      | Call ?e =>
          change (trace fw0 (Bind m k) s)
            with (EvCall e :: trace fw0 (k (ans e s)) (eff e s));
          cbn beta; rewrite project_call; cbn [optimizer_step app]
      end
  end.

Lemma train_body_steps model optimizer scaler criterion acc b st :
  project optimizer_step
    (trace fw (ViT.train_epoch_body model optimizer scaler criterion acc b) st)
  = [(scaler, optimizer)].
Proof.
  destruct acc as [[total_loss correct] total]. destruct b as [inputs targets].
  unfold ViT.train_epoch_body, to_device, zero_grad, scale, backward,
    scaler_step, scaler_update.
  do 3 step_project.
  rewrite project_bind_none by prove_static.
  match goal with
  | |- context [run fw ?m ?s] =>
      destruct (no_throw_returns ans eff enter exit m ltac:(prove_no_throw) s)
        as ([outputs loss] & s1 & Hr)
  end.
  fold fw in Hr. rewrite Hr.
  do 3 step_project.
  f_equal. apply project_static. prove_static.
Qed.

Lemma fine_tune_body_steps model optimizer scaler loader total_loss b st :
  well_formed_lm ans loader -> In b loader ->
  project optimizer_step
    (trace fw (LLM.fine_tune_body model optimizer scaler total_loss b) st)
  = [(scaler, optimizer)].
Proof.
  intros (_ & _ & _ & Hids) Hin. destruct (Hids b Hin) as [x Hx].
  unfold LLM.fine_tune_body, zero_grad, scale, backward, scaler_step, scaler_update.
  step_project.
  rewrite project_bind_none by prove_static.
  match goal with
  | |- context [run fw (With Autocast ?m) ?s] =>
      assert (Hr : exists loss s1, run fw (With Autocast m) s = (Ok loss, s1))
  end.
  { rewrite Hx. unfold to_device, clone, call_model_labels, getattr_tensor.
    cbn [lift run fw total_fw fw_call fw_enter fw_exit]. eauto. }
  destruct Hr as (loss & s1 & Hr). rewrite Hr.
  do 3 step_project.
  f_equal. apply project_static. prove_static.
Qed.

Lemma metrics_returns outputs loss targets acc acc' :
  is_ok (metrics outputs loss targets acc) = is_ok (metrics outputs loss targets acc').
Proof.
  unfold metrics. destruct acc as [[a b] c], acc' as [[a' b'] c'].
  destruct (item loss); [|reflexivity]. cbn [rbind].
  destruct (max_dim1 outputs); [|reflexivity]. cbn [rbind].
  destruct (size_dim targets 0); [|reflexivity]. cbn [rbind].
  destruct (tensor_eq _ targets); [|reflexivity]. cbn [rbind].
  destruct (item_int _); reflexivity.
Qed.

(** [X17] One step of the optimizer per batch.  On a framework that
    does not raise, [train_epoch] steps the optimizer, through the
    scaler, once for each batch of the loader (the model answering with
    one row of scores per example), and [fine_tune] once for each batch
    of each epoch, [epochs * len(train_dataloader)] times in all (each
    batch holding its [input_ids] and the loss being a scalar), always
    with the scaler that [fine_tune] created. *)
Theorem X17_one_optimizer_step_per_batch :
  (forall model optimizer scaler criterion loader st,
     well_shaped ans model loader ->
     project optimizer_step
       (trace fw (ViT.train_epoch model loader optimizer scaler criterion) st)
     = repeat (scaler, optimizer) (length loader)) /\
  (forall model optimizer train_dataloader epochs st,
     well_formed_lm ans train_dataloader ->
     project optimizer_step
       (trace fw (LLM.fine_tune model train_dataloader optimizer epochs) st)
     = repeat (ans GradScalerNew st, optimizer)
              (Z.to_nat epochs * length train_dataloader)).
Proof.
  split.
  - intros model optimizer scaler criterion loader st Hws.
    unfold ViT.train_epoch, model_train. step_project.
    rewrite project_bind_tail by (intros; prove_static).
    apply fold_steps. intros acc [inputs targets] s Hin. split.
    + destruct (train_body_computes ans eff enter exit model optimizer scaler
                  criterion (proj1 Hws) acc inputs targets s)
        as (st_m & st_c & s' & Hrun).
      fold fw in Hrun. rewrite Hrun. cbn [fst].
      destruct Hws as (Hdev & Hcrit & Hout).
      destruct (Hout inputs targets st_m Hin) as (n & c & Hc & Hs & Hl & Ht & Htl).
      destruct (Hcrit criterion (ans (CallModule model inputs) st_m) targets st_c)
        as [q Hq].
      rewrite (metrics_returns _ _ _ acc (PInt 0, PInt 0, PInt 0)).
      rewrite (metrics_ok _ _ _ n c q _ _ _ Hs Hc Hl Ht Htl Hq). reflexivity.
    + apply train_body_steps.
  - intros model optimizer loader epochs st Hwf.
    unfold LLM.fine_tune, GradScaler, model_train. do 2 step_project.
    set (scaler := ans GradScalerNew st).
    set (s0 := eff (ModelTrain model) (eff GradScalerNew st)).
    rewrite <- length_range. generalize (range epochs) s0. clear s0.
    intros es. induction es as [|epoch es IH]; intros s; [reflexivity|].
    rewrite trace_for_each_cons, project_app.
    assert (Hepoch :
              project optimizer_step
                (trace fw (LLM.fine_tune_epoch model loader optimizer scaler
                             epochs epoch) s)
              = repeat (scaler, optimizer) (length loader)).
    { unfold LLM.fine_tune_epoch.
      rewrite project_bind_tail by (intros; prove_static).
      apply fold_steps. intros acc b s' Hin. split.
      - destruct (fine_tune_body_run ans eff enter exit model optimizer scaler
                    loader acc b s' Hwf Hin)
          as (x & st_m & st_l & q & s'' & _ & _ & Hrun).
        fold fw in Hrun. rewrite Hrun. reflexivity.
      - eapply fine_tune_body_steps; eassumption. }
    rewrite Hepoch. cbn [length]. rewrite Nat.mul_succ_l, Nat.add_comm, repeat_app.
    apply (f_equal (app _)).
    destruct loader as [|b0 loader0].
    + rewrite Nat.mul_0_r. cbn [repeat].
      destruct (run fw _ s) as [[u|e] s1]; [|reflexivity].
      rewrite IH, Nat.mul_0_r. reflexivity.
    + destruct (fine_tune_epoch_prints ans eff enter exit model optimizer scaler
                  (b0 :: loader0) epochs epoch s Hwf ltac:(discriminate))
        as (losses & a & s1 & _ & _ & Hrun & _).
      fold fw in Hrun. rewrite Hrun. cbn beta iota. apply IH.
Qed.

End Steps.

Lemma X17_witness :
  project optimizer_step
    (trace echo_fw (ViT.train_epoch (Obj 1) two_examples (Obj 2) (Obj 3) (Obj 4)) tt)
  = [(Obj 3, Obj 2)].
Proof.
  apply (proj1 (X17_one_optimizer_step_per_batch
                  (fun e (_ : unit) => echo_answer e)
                  (fun _ st => st) (fun _ st => st) (fun _ st => st))
           (Obj 1) (Obj 2) (Obj 3) (Obj 4) two_examples tt
           two_examples_well_shaped).
Defined.

(** ** An input without batch dimension *)

(** [X18] The first call of [forward] takes an input of any number of
    dimensions, but every later call slices [hidden_states[:, -1:, :]]:
    once the cache is set, an input of fewer than three dimensions makes
    [forward] raise [IndexError] (the query layer having returned), and
    the cache stays as it was. *)
Theorem X18_cached_forward_needs_three_dimensions mf self h ck q :
  LLM.cached_key self = Some ck ->
  (ndim h < 3)%nat ->
  mf (LLM.query (LLM.base self)) h = Ok q ->
  run (attn_fw mf) (LLM.forward h) self
  = (Raise (Exn "IndexError" "too many indices for tensor"), self).
Proof.
  intros Hck Hn Hq. unfold LLM.forward, call_module.
  cbn [run attn_fw fw_call]. rewrite Hq. cbn [run]. rewrite Hck.
  cbn [run]. rewrite run_lift.
  unfold slice_last_dim1, ndim in *.
  destruct (shape h) as [|d0 [|d1 [|d2 rest]]]; try reflexivity.
  cbn in Hn. lia.
Qed.

Lemma X18_witness :
  run (attn_fw id_layer) (LLM.forward (Tensor [2;1] [5%Q; 7%Q])) served_once
  = (Raise (Exn "IndexError" "too many indices for tensor"), served_once).
Proof.
  apply (X18_cached_forward_needs_three_dimensions id_layer served_once
           (Tensor [2;1] [5%Q; 7%Q]) h_one (Tensor [2;1] [5%Q; 7%Q]));
    [reflexivity|cbn; lia|reflexivity].
Defined.

(** The same input is accepted by the first call. *)
Example first_call_takes_two_dimensions :
  run (attn_fw id_layer) (LLM.forward (Tensor [2;1] [5%Q; 7%Q]))
      {| LLM.base := attn0; LLM.cached_key := None; LLM.cached_value := None |}
  = (Ok (Tensor [2;1] [5%Q; 7%Q], Some (Tensor [2;1] [5%Q; 7%Q]),
         Some (Tensor [2;1] [5%Q; 7%Q])),
     {| LLM.base := attn0; LLM.cached_key := Some (Tensor [2;1] [5%Q; 7%Q]);
        LLM.cached_value := Some (Tensor [2;1] [5%Q; 7%Q]) |}).
Proof. reflexivity. Qed.

(** ** Attention modules without [query], [key] and [value] *)

Section NoQuery.
Context {St : Type} (fw : handler St).
Hypothesis Hquery : forall o s, exists e s',
  fw_call fw (GetAttr o "query") s = (Raise e, s').

Lemma init_without_query attention st :
  is_ok (fst (run fw (LLM.QuantizedAttention__init__ attention) st)) = false /\
  forall e, In (EvCall e) (trace fw (LLM.QuantizedAttention__init__ attention) st) ->
            wraps_attention e = false.
Proof.
  unfold LLM.QuantizedAttention__init__, nn_Module__init__, getattr.
  cbn [run trace].
  destruct (fw_call fw NNModuleInit st) as [[u|e0] s1].
  - destruct (Hquery attention s1) as (e & s' & Hq). cbn [run trace]. rewrite Hq.
    split; [reflexivity|].
    intros e1 [H|[H|[]]]; injection H as <-; reflexivity.
  - split; [reflexivity|]. intros e1 [H|[]]. injection H as <-. reflexivity.
Qed.

Lemma wrapper_loop_without_query (layers : list handle) st :
  layers <> [] ->
  is_ok (fst (run fw (for_each layers (fun layer =>
            attn <- getattr layer "attn" ;;
            self <- LLM.QuantizedAttention__init__ attn ;;
            instance <- fw_obj "QuantizedAttention"
                          [AObj (LLM.query self); AObj (LLM.key self);
                           AObj (LLM.value self)] ;;
            set_attr layer "attn" instance)) st)) = false /\
  forall e, In (EvCall e) (trace fw (for_each layers (fun layer =>
            attn <- getattr layer "attn" ;;
            self <- LLM.QuantizedAttention__init__ attn ;;
            instance <- fw_obj "QuantizedAttention"
                          [AObj (LLM.query self); AObj (LLM.key self);
                           AObj (LLM.value self)] ;;
            set_attr layer "attn" instance)) st) ->
            wraps_attention e = false.
Proof.
  destruct layers as [|layer layers]; [congruence|]. intros _.
  rewrite run_for_each_cons, trace_for_each_cons.
  unfold getattr at 1 3 4. cbn [run trace].
  destruct (fw_call fw (GetAttr layer "attn") st) as [[attn|e0] s1].
  - destruct (init_without_query attn s1) as [Hok Hno].
    cbn [run trace].
    destruct (run fw (LLM.QuantizedAttention__init__ attn) s1) as [[self|e1] s2];
      [discriminate|].
    split; [reflexivity|].
    intros e Hin. rewrite !app_nil_r in Hin. cbn [app] in Hin.
    destruct Hin as [H|Hin]; [injection H as <-; reflexivity|].
    apply Hno, Hin.
  - split; [reflexivity|]. intros e [H|[]]. injection H as <-. reflexivity.
Qed.

Hypothesis Hlayers : forall args s layers s',
  fw_call fw (FwObjs "iter" args) s = (Ok layers, s') -> layers <> [].

Lemma attention_cell_without_query model_int8 st :
  is_ok (fst (run fw (LLM.cell_int8_attention model_int8) st)) = false /\
  forall e, In (EvCall e) (trace fw (LLM.cell_int8_attention model_int8) st) ->
            wraps_attention e = false.
Proof.
  unfold LLM.cell_int8_attention, getattr, fw_objs. cbn [run trace].
  destruct (fw_call fw (GetAttr model_int8 "transformer") st) as [[t|e0] s1].
  2:{ split; [reflexivity|]. intros e [H|[]]. injection H as <-. reflexivity. }
  cbn [run trace].
  destruct (fw_call fw (GetAttr t "h") s1) as [[h|e0] s2].
  2:{ split; [reflexivity|].
      intros e [H|[H|[]]]; injection H as <-; reflexivity. }
  cbn [run trace].
  destruct (fw_call fw (FwObjs "iter" [AObj h]) s2) as [[layers|e0] s3] eqn:Hl.
  2:{ split; [reflexivity|].
      intros e [H|[H|[H|[]]]]; injection H as <-; reflexivity. }
  destruct (wrapper_loop_without_query layers s3 (Hlayers _ _ _ _ Hl))
    as [Hok Hno].
  unfold getattr in Hok, Hno. cbn [run trace].
  match goal with
  | |- context [run fw (for_each layers ?body) s3] =>
      destruct (run fw (for_each layers body) s3) as [[u|e1] s4];
        [discriminate|]
  end.
  split; [reflexivity|].
  intros e Hin. rewrite !app_nil_r in Hin. cbn [app] in Hin.
  destruct Hin as [H|[H|[H|Hin]]]; try (injection H as <-; reflexivity).
  apply Hno, Hin.
Qed.

Lemma failed_so_far {A R} (prev : prog St A) (k : A -> prog St R) st :
  is_ok (fst (run fw prev st)) = false ->
  is_ok (fst (run fw (Bind prev k) st)) = false /\
  trace fw (Bind prev k) st = trace fw prev st.
Proof.
  cbn [run trace]. destruct (run fw prev st) as [[v|e] s1]; [discriminate|].
  intros _. split; [reflexivity|apply app_nil_r].
Qed.

Lemma upto_attention_without_query st :
  is_ok (fst (run fw LLM.upto_int8_attention st)) = false /\
  forall e, In (EvCall e) (trace fw LLM.upto_int8_attention st) ->
            wraps_attention e = false.
Proof.
  unfold LLM.upto_int8_attention. cbn [run trace].
  assert (Hpre : forall e, In (EvCall e) (trace fw LLM.upto_ptq st) ->
                           wraps_attention e = false).
  { apply no_call_trace. prove_static. }
  destruct (run fw LLM.upto_ptq st) as [[[model model_int8]|e0] s1].
  - destruct (attention_cell_without_query model_int8 s1) as [Hok Hno].
    cbn [run trace].
    destruct (run fw (LLM.cell_int8_attention model_int8) s1) as [[u|e1] s2];
      [discriminate|].
    split; [reflexivity|].
    intros e Hin. apply in_app_or in Hin. destruct Hin as [Hin|Hin]; [auto|].
    rewrite !app_nil_r in Hin. cbn [app] in Hin.
    destruct Hin as [H|Hin]; [discriminate|]. apply Hno, Hin.
  - split; [reflexivity|]. intros e Hin. rewrite app_nil_r in Hin. auto.
Qed.

(** [X19] [QuantizedAttention.__init__] reads [attention.query],
    [attention.key] and [attention.value].  On a framework in which an
    attention module has no attribute [query], as the attention modules
    of GPT-2 have none, and a model has at least one layer, notebook 01
    never runs to its end, whatever else the framework does: it ends
    with an exception at the latest in cell 5, the cells from the
    key-value cache on are never begun, no layer is quantized
    dynamically and no attention module is ever replaced. *)
Theorem X19_llm_notebook_stops_at_attention_wrappers st :
  (exists e, fst (run fw LLM.notebook st) = Raise e) /\
  (exists n, n <= 5 /\
     cells (trace fw LLM.notebook st) = firstn n (map fst llm_cells)) /\
  (forall e, In (EvCall e) (trace fw LLM.notebook st) -> wraps_attention e = false).
Proof.
  destruct (upto_attention_without_query st) as [Hfail Hno].
  assert (Hnb : is_ok (fst (run fw LLM.notebook st)) = false /\
                trace fw LLM.notebook st = trace fw LLM.upto_int8_attention st).
  { unfold LLM.notebook, LLM.upto_benchmark.
    destruct (failed_so_far LLM.upto_int8_attention
                (fun x => let '(model, model_int8) := x in
                   Cell "6. Apply quantized key-value caching for faster autoregressive inference" ;;
                   LLM.cell_kv_cache model_int8 ;; Ret (model, model_int8))
                st Hfail) as [H6 T6].
    fold (@LLM.upto_kv_cache St) in H6, T6.
    destruct (failed_so_far LLM.upto_kv_cache
                (fun x => let '(model, model_int8) := x in
                   Cell "7. Use dynamic quantization for activations to handle varying sequence lengths" ;;
                   LLM.cell_dynamic_quantization ;; Ret (model, model_int8))
                st H6) as [H7 T7].
    fold (@LLM.upto_dynamic_quantization St) in H7, T7.
    destruct (failed_so_far LLM.upto_dynamic_quantization
                (fun x => let '(model, model_int8) := x in
                   Cell "8. Deploy using an inference-optimized runtime like ONNX Runtime" ;;
                   LLM.cell_onnx model_int8 ;; Ret (model, model_int8))
                st H7) as [H8 T8].
    fold (@LLM.upto_onnx St) in H8, T8.
    destruct (failed_so_far LLM.upto_onnx
                (fun x => let '(model, model_int8) := x in
                   Cell "9. Performance Benchmarking" ;;
                   LLM.cell_benchmark model model_int8)
                st H8) as [H9 T9].
    split; [exact H9|]. rewrite T9, T8, T7, T6. reflexivity. }
  destruct Hnb as [Hr Ht]. split; [|split].
  - destruct (fst (run fw LLM.notebook st)) as [u|e]; [discriminate|eauto].
  - destruct (llm_in_order fw st) as (n & Hn & Hc & Hbefore & Hall).
    exists n. split; [|exact Hc].
    destruct (le_lt_dec n 5) as [H|H]; [exact H|].
    destruct (Hbefore 5 H) as [Hok _].
    apply (f_equal is_ok) in Hok. cbn [LLM.prefix] in Hok.
    rewrite is_ok_erased, Hfail in Hok. discriminate.
  - rewrite Ht. exact Hno.
Qed.

End NoQuery.

Lemma X19_witness :
  (exists e, fst (run gpt2_fw LLM.notebook 0%Z) = Raise e) /\
  (exists n, n <= 5 /\
     cells (trace gpt2_fw LLM.notebook 0%Z) = firstn n (map fst llm_cells)) /\
  (forall e, In (EvCall e) (trace gpt2_fw LLM.notebook 0%Z) ->
             wraps_attention e = false).
Proof.
  apply X19_llm_notebook_stops_at_attention_wrappers.
  - intros o s. exists no_query, s. reflexivity.
  - intros args s layers s' H. cbn in H. injection H as <- _. discriminate.
Defined.

(** On that framework the notebook gets as far as cell 5. *)
Example llm_notebook_on_gpt2 :
  run gpt2_fw LLM.notebook 0%Z = (Raise no_query, 0%Z) /\
  cells (trace gpt2_fw LLM.notebook 0%Z) = firstn 5 (map fst llm_cells).
Proof. split; vm_compute; reflexivity. Qed.
